(** * emailos-cli: the message decoding and link extraction engine

    A shallow embedding of [EmailReader] of [src/email_client.py]: header
    decoding, body and attachment extraction, web links, the IMAP search
    string and the unsubscribe link heuristics, with the properties the
    specification states about them.

    Python values are modelled as follows.
    - [str] is a list of Unicode code points ([N]); [bytes] is a list of
      [Byte.byte].
    - A call that can raise returns a [result]: [OK v] or [Raise e].
    - The functions of the Python standard library the code calls ([str]
      methods, [bytes.decode], [urllib.parse.quote], [re], [Message.walk])
      are written out after their CPython definitions, on the part of
      their domain the code uses; [email.header.decode_header], [int] and
      the codecs other than UTF-8 are parameters. *)

From Stdlib Require Import NArith ZArith List String Ascii Bool Lia.
From Stdlib.Strings Require Import Byte.
From stdpp Require Import base decidable countable gmap list.
Import ListNotations.

Set Warnings "-register-all,-clear-no-such-hyp".
Local Open Scope N_scope.

(** ** Python values *)

Definition codepoint := N.
Definition str := list codepoint.
Definition bytes := list byte.

(** A string literal of the source: one code point per character. *)
Definition py (s : string) : str :=
  List.map N_of_ascii (list_ascii_of_string s).

Inductive exn :=
  | AttributeError
  | LookupError
  | HeaderParseError
  | UnicodeDecodeError
  | UnicodeEncodeError
  | OverflowError
  | TypeError.

Inductive result (A : Type) :=
  | OK (a : A)
  | Raise (e : exn).
Arguments OK {A} a.
Arguments Raise {A} e.

Definition bind {A B} (r : result A) (k : A -> result B) : result B :=
  match r with
  | OK a => k a
  | Raise e => Raise e
  end.

Notation "'let*' x ':=' r 'in' k" := (bind r (fun x => k))
  (at level 10, x pattern, r at level 100, k at level 200).

Definition returns {A} (r : result A) : Prop := exists a, r = OK a.

(** Truthiness of a string: [if s:]. *)
Definition truthy (s : str) : bool :=
  match s with [] => false | _ => true end.

Definition str_eqb (a b : str) : bool := bool_decide (a = b).

(** [a.startswith(p)] *)
Fixpoint startswith (p s : str) : bool :=
  match p, s with
  | [], _ => true
  | c :: p', d :: s' => (c =? d) && startswith p' s'
  | _ :: _, [] => false
  end.

(** [needle in s] *)
Fixpoint contains (needle s : str) : bool :=
  startswith needle s ||
  match s with
  | [] => false
  | _ :: s' => contains needle s'
  end.

(** [sep.join(l)] *)
Fixpoint join (sep : str) (l : list str) : str :=
  match l with
  | [] => []
  | [x] => x
  | x :: rest => x ++ sep ++ join sep rest
  end.

(** [s.replace(old, new)]: the occurrences of [old] are replaced from left
    to right and do not overlap. [skip] counts the characters of a replaced
    occurrence still to be passed over. *)
Fixpoint replace_from (old new : str) (skip : nat) (s : str) : str :=
  match s with
  | [] => []
  | c :: s' =>
      match skip with
      | S k => replace_from old new k s'
      | O =>
          if startswith old s
          then new ++ replace_from old new (Nat.pred (length old)) s'
          else c :: replace_from old new O s'
      end
  end.

Definition replace (old new s : str) : str :=
  match old with
  | [] => flat_map (fun c => new ++ [c]) s ++ new
  | _ => replace_from old new O s
  end.

(** [s.strip(chars)]: characters of [chars] are removed from both ends. *)
Definition in_chars (chars : str) (c : codepoint) : bool :=
  existsb (N.eqb c) chars.

Fixpoint lstrip_by (p : codepoint -> bool) (s : str) : str :=
  match s with
  | c :: s' => if p c then lstrip_by p s' else s
  | [] => []
  end.

Definition rstrip_by (p : codepoint -> bool) (s : str) : str :=
  rev (lstrip_by p (rev s)).

Definition strip_chars (chars s : str) : str :=
  rstrip_by (in_chars chars) (lstrip_by (in_chars chars) s).

(** [str.isspace] for one character, which is also the class [\s] of [re]
    on [str] patterns. *)
Definition isspace (c : codepoint) : bool :=
  ((0x09 <=? c) && (c <=? 0x0D)) || ((0x1C <=? c) && (c <=? 0x20)) ||
  (c =? 0x85) || (c =? 0xA0) || (c =? 0x1680) ||
  ((0x2000 <=? c) && (c <=? 0x200A)) || (c =? 0x2028) || (c =? 0x2029) ||
  (c =? 0x202F) || (c =? 0x205F) || (c =? 0x3000).

(** [s.strip()] *)
Definition strip (s : str) : str :=
  rstrip_by isspace (lstrip_by isspace s).

(** [s.lower()], exact wherever the result is compared with an ASCII
    literal, as it is at every use in the source: outside ASCII only
    U+212A (to [k]) and U+0130 (to [i] followed by U+0307) have a lower
    case form that contains an ASCII character; the other characters
    outside ASCII are kept as they are. *)
Definition lower_char (c : codepoint) : str :=
  if (0x41 <=? c) && (c <=? 0x5A) then [c + 0x20]
  else if c =? 0x212A then [0x6B]
  else if c =? 0x130 then [0x69; 0x307]
  else [c].

Definition lower (s : str) : str := flat_map lower_char s.

(** ** [bytes.decode('utf-8', errors)] and [str.encode('utf-8')] *)

Inductive errors := Strict | Ignore | Replace.

(** What the error handler does with a malformed run of bytes; [k] is the
    decoding of the input after the run. *)
Definition on_error {A} (h : errors) (k : result (list A)) (fffd : A)
  : result (list A) :=
  match h with
  | Strict => Raise UnicodeDecodeError
  | Ignore => k
  | Replace => let* r := k in OK (fffd :: r)
  end.

Definition emit (c : codepoint) (k : result str) : result str :=
  let* r := k in OK (c :: r).

Definition is_cont (c : N) : bool := (0x80 <=? c) && (c <? 0xC0).

(** The second byte of a three byte sequence: a continuation byte that
    makes neither an overlong form (after E0) nor a surrogate (after ED). *)
Definition second_of_3 (c0 c1 : N) : bool :=
  is_cont c1 && negb (if c1 <? 0xA0 then c0 =? 0xE0 else c0 =? 0xED).

(** The second byte of a four byte sequence: neither overlong (after F0)
    nor above U+10FFFF (after F4). *)
Definition second_of_4 (c0 c1 : N) : bool :=
  is_cont c1 && negb (if c1 <? 0x90 then c0 =? 0xF0 else c0 =? 0xF4).

Definition low6 (c : N) : N := N.land c 0x3F.

(** CPython's decoder: a malformed run is an invalid start byte (one byte),
    a lead byte with the continuation bytes before the first wrong one, or
    a truncated sequence at the end of the input; the handler is applied
    and decoding resumes after the run. *)
Fixpoint utf8_decode (h : errors) (bs : bytes) {struct bs} : result str :=
  match bs with
  | [] => OK []
  | b0 :: r0 =>
      let c0 := Byte.to_N b0 in
      if c0 <? 0x80 then emit c0 (utf8_decode h r0)
      else if (c0 <? 0xC2) || (0xF5 <=? c0)
      then on_error h (utf8_decode h r0) 0xFFFD
      else if c0 <? 0xE0 then
        match r0 with
        | [] => on_error h (OK []) 0xFFFD
        | b1 :: r1 =>
            let c1 := Byte.to_N b1 in
            if is_cont c1
            then emit (N.lor (N.shiftl (N.land c0 0x1F) 6) (low6 c1))
                      (utf8_decode h r1)
            else on_error h (utf8_decode h r0) 0xFFFD
        end
      else if c0 <? 0xF0 then
        match r0 with
        | [] => on_error h (OK []) 0xFFFD
        | b1 :: r1 =>
            let c1 := Byte.to_N b1 in
            if negb (second_of_3 c0 c1)
            then on_error h (utf8_decode h r0) 0xFFFD
            else
              match r1 with
              | [] => on_error h (OK []) 0xFFFD
              | b2 :: r2 =>
                  let c2 := Byte.to_N b2 in
                  if is_cont c2
                  then emit (N.lor (N.shiftl (N.land c0 0x0F) 12)
                               (N.lor (N.shiftl (low6 c1) 6) (low6 c2)))
                            (utf8_decode h r2)
                  else on_error h (utf8_decode h r1) 0xFFFD
              end
        end
      else
        match r0 with
        | [] => on_error h (OK []) 0xFFFD
        | b1 :: r1 =>
            let c1 := Byte.to_N b1 in
            if negb (second_of_4 c0 c1)
            then on_error h (utf8_decode h r0) 0xFFFD
            else
              match r1 with
              | [] => on_error h (OK []) 0xFFFD
              | b2 :: r2 =>
                  let c2 := Byte.to_N b2 in
                  if negb (is_cont c2)
                  then on_error h (utf8_decode h r1) 0xFFFD
                  else
                    match r2 with
                    | [] => on_error h (OK []) 0xFFFD
                    | b3 :: r3 =>
                        let c3 := Byte.to_N b3 in
                        if is_cont c3
                        then emit (N.lor (N.shiftl (N.land c0 0x07) 18)
                                     (N.lor (N.shiftl (low6 c1) 12)
                                        (N.lor (N.shiftl (low6 c2) 6)
                                           (low6 c3))))
                                  (utf8_decode h r3)
                        else on_error h (utf8_decode h r2) 0xFFFD
                    end
              end
        end
  end.

Definition byte_of (n : N) : byte :=
  match Byte.of_N n with
  | Some b => b
  | None => x00
  end.

Definition cont_byte (c : N) (shift : N) : byte :=
  byte_of (N.lor 0x80 (low6 (N.shiftr c shift))).

(** [s.encode('utf-8')] with the default strict handler: a surrogate cannot
    be encoded. A [str] holds no code point above U+10FFFF. *)
Fixpoint utf8_encode (s : str) : result bytes :=
  match s with
  | [] => OK []
  | c :: s' =>
      if ((0xD800 <=? c) && (c <=? 0xDFFF)) || (0x10FFFF <? c)
      then Raise UnicodeEncodeError
      else
        let* r := utf8_encode s' in
        OK ((if c <? 0x80 then [byte_of c]
             else if c <? 0x800
             then [byte_of (N.lor 0xC0 (N.shiftr c 6)); cont_byte c 0]
             else if c <? 0x10000
             then [byte_of (N.lor 0xE0 (N.shiftr c 12)); cont_byte c 6;
                   cont_byte c 0]
             else [byte_of (N.lor 0xF0 (N.shiftr c 18)); cont_byte c 12;
                   cont_byte c 6; cont_byte c 0]) ++ r)
  end.

(** ** The regular expressions of [re]

    The constructs the patterns of the source use, matched as [re] does:
    by backtracking, alternatives from left to right, greedy repetition. *)

Inductive item :=
  | Ch (c : codepoint)
  | Space.

Inductive regex :=
  | Eps
  | Lit (c : codepoint)
  | Dot
  | Set_ (negated : bool) (items : list item)
  | Cat (r1 r2 : regex)
  | Alt (r1 r2 : regex)
  | Star (r : regex)
  | Group (n : nat) (r : regex).

(** [r+] and [r?] *)
Definition Plus (r : regex) : regex := Cat r (Star r).
Definition Opt (r : regex) : regex := Alt r Eps.

Definition seq (rs : list regex) : regex := fold_right Cat Eps rs.

(** The lower case form [re] compares with under [IGNORECASE], exact on
    the characters whose form is an ASCII character. *)
Definition sre_lower (c : codepoint) : codepoint :=
  if (0x41 <=? c) && (c <=? 0x5A) then c + 0x20
  else if c =? 0x130 then 0x69
  else if c =? 0x212A then 0x6B
  else c.

(** A literal of the pattern against a character of the input. Under
    [IGNORECASE], [i] also matches U+0131 and [s] also matches U+017F. *)
Definition lit_match (ignorecase : bool) (p c : codepoint) : bool :=
  if ignorecase then
    let lo := sre_lower p in
    let c' := sre_lower c in
    (c' =? lo) || ((lo =? 0x69) && (c' =? 0x131)) ||
    ((lo =? 0x73) && (c' =? 0x17F))
  else c =? p.

Definition item_match (c : codepoint) (i : item) : bool :=
  match i with
  | Ch p => c =? p
  | Space => isspace c
  end.

Definition set_match (ignorecase negated : bool) (items : list item)
    (c : codepoint) : bool :=
  let c' := if ignorecase then sre_lower c else c in
  xorb negated (existsb (item_match c') items).

Definition captures := list (nat * str).

Definition group_of (n : nat) (caps : captures) : str :=
  match List.find (fun '(i, _) => Nat.eqb i n) caps with
  | Some (_, s) => s
  | None => []
  end.

Section Matcher.
Context {A : Type}.
Variable ignorecase : bool.

(** The greedy loop of [r*] over the matcher [body] of [r]: one more
    iteration is tried first, then the rest of the pattern. An iteration
    that consumes nothing ends the loop. *)
Fixpoint star_loop (body : str -> captures -> (str -> captures -> option A)
                           -> option A)
    (fuel : nat) (s : str) (caps : captures)
    (k : str -> captures -> option A) : option A :=
  match fuel with
  | O => k s caps
  | S fuel' =>
      match body s caps (fun s' caps' =>
              if (length s' <? length s)%nat
              then star_loop body fuel' s' caps' k else None) with
      | Some x => Some x
      | None => k s caps
      end
  end.

(** [matcher r s caps k]: match [r] at the start of [s] and hand the rest
    of the input to [k]; when [k] fails the next way to match [r] is
    tried. *)
Fixpoint matcher (r : regex) (s : str) (caps : captures)
    (k : str -> captures -> option A) {struct r} : option A :=
  match r with
  | Eps => k s caps
  | Lit p =>
      match s with
      | c :: s' => if lit_match ignorecase p c then k s' caps else None
      | [] => None
      end
  | Dot =>
      match s with
      | c :: s' => if c =? 0x0A then None else k s' caps
      | [] => None
      end
  | Set_ negated items =>
      match s with
      | c :: s' =>
          if set_match ignorecase negated items c then k s' caps else None
      | [] => None
      end
  | Cat r1 r2 =>
      matcher r1 s caps (fun s' caps' => matcher r2 s' caps' k)
  | Alt r1 r2 =>
      match matcher r1 s caps k with
      | Some x => Some x
      | None => matcher r2 s caps k
      end
  | Star r' => star_loop (matcher r') (S (length s)) s caps k
  | Group n r' =>
      matcher r' s caps (fun s' caps' =>
        k s' ((n, take (length s - length s')%nat s) :: caps'))
  end.

End Matcher.

(** A match object: the text matched and the groups. *)
Record match_ := { whole : str; groups : captures }.

Definition group (n : nat) (m : match_) : str :=
  match n with
  | O => whole m
  | _ => group_of n (groups m)
  end.

(** [pattern.match(s)] at the start of [s]: the match and the rest. *)
Definition match_here (ignorecase : bool) (r : regex) (s : str)
  : option (match_ * str) :=
  matcher ignorecase r s [] (fun rest caps =>
    Some ({| whole := take (length s - length rest)%nat s; groups := caps |},
          rest)).

(** [re.finditer(r, s)]: the leftmost match, then the leftmost one after
    its end, and so on. [skip] counts the characters of the last match
    still to be passed over. No pattern of the source matches the empty
    string; after an empty match the scan moves one character on. *)
Fixpoint finditer_from (ignorecase : bool) (r : regex) (skip : nat)
    (s : str) {struct s} : list match_ :=
  match skip with
  | S n =>
      match s with
      | [] => []
      | _ :: s' => finditer_from ignorecase r n s'
      end
  | O =>
      match match_here ignorecase r s with
      | Some (m, _) =>
          m :: match s with
               | [] => []
               | _ :: s' =>
                   finditer_from ignorecase r (Nat.pred (length (whole m))) s'
               end
      | None =>
          match s with
          | [] => []
          | _ :: s' => finditer_from ignorecase r O s'
          end
      end
  end.

Definition finditer (ignorecase : bool) (r : regex) (s : str) : list match_ :=
  finditer_from ignorecase r O s.

(** [re.findall(r, s)] for a pattern without a group ([n = 0]: the matched
    texts) or with one group ([n = 1]: the texts of the group). *)
Definition findall (ignorecase : bool) (r : regex) (n : nat) (s : str)
  : list str :=
  List.map (group n) (finditer ignorecase r s).

(** [re.search(r, s)] used as a condition. *)
Definition search (ignorecase : bool) (r : regex) (s : str) : bool :=
  match finditer ignorecase r s with
  | [] => false
  | _ => true
  end.

(** A run of literal characters. *)
Definition lits (s : string) : regex := seq (List.map Lit (py s)).

Definition ch (s : string) : item :=
  match py s with
  | c :: _ => Ch c
  | [] => Space
  end.

(** ** [email.message.Message]

    A message is a leaf with its decoded payload or a container of
    messages ([is_multipart()]: the payload is a list). The record holds
    the raw headers and what [get_content_type()] and [get_filename()]
    return for the part. A header value is the [str] the parser stored:
    a raw byte above 0x7F of the message is in it as the surrogate escape
    U+DC80 to U+DCFF of that byte. *)

Record part_info := {
  _headers : list (str * str);
  get_content_type : str;
  get_filename : option str
}.

Inductive Message :=
  | Leaf (info : part_info) (payload : bytes)
  | Multipart (info : part_info) (parts : list Message).

Definition info_of (msg : Message) : part_info :=
  match msg with
  | Leaf i _ => i
  | Multipart i _ => i
  end.

Definition is_multipart (msg : Message) : bool :=
  match msg with
  | Leaf _ _ => false
  | Multipart _ _ => true
  end.

(** [msg.get(name)] read as text: the first header of that name, compared
    in lower case; [None] when there is none. Python hands a value that
    holds raw bytes back as a [Header] object ([header_fetch_parse] below);
    the code that applies [str] to it, and [get_content_disposition], read
    the same ASCII text from it. *)
Definition get (msg : Message) (name : str) : option str :=
  match List.find (fun '(k, _) => str_eqb (lower k) (lower name))
          (_headers (info_of msg)) with
  | Some (_, v) => Some v
  | None => None
  end.

(** [_has_surrogates(value)]: whether [value.encode()] raises. *)
Definition _has_surrogates (value : str) : bool :=
  match utf8_encode value with
  | OK _ => false
  | Raise _ => true
  end.

(** What [msg.get] returns for a header that is present: the [str], or a
    [Header] object made of it. *)
Inductive fetched :=
  | Str (value : str)
  | Header (value : str).

(** [header_fetch_parse] of the policy of [message_from_bytes]: a value
    with surrogate escapes becomes a [Header]. *)
Definition header_fetch_parse (value : str) : fetched :=
  if _has_surrogates value then Header value else Str value.

(** [msg.get(name, '')] *)
Definition get_or_empty (msg : Message) (name : str) : fetched :=
  match get msg name with
  | Some v => header_fetch_parse v
  | None => Str []
  end.

(** [str(x)] of an optional string. *)
Definition str_of (x : option str) : str :=
  match x with
  | Some v => v
  | None => py "None"
  end.

(** The text before the first [;]: [value.partition(';')[0]]. *)
Fixpoint before_semicolon (s : str) : str :=
  match s with
  | [] => []
  | c :: s' => if c =? 0x3B then [] else c :: before_semicolon s'
  end.

(** [msg.get_content_disposition()] *)
Definition get_content_disposition (msg : Message) : option str :=
  match get msg (py "content-disposition") with
  | None => None
  | Some value => Some (lower (strip (before_semicolon value)))
  end.

(** [msg.get_payload(decode=True)]: [None] for a container. *)
Definition get_payload_decoded (msg : Message) : option bytes :=
  match msg with
  | Leaf _ payload => Some payload
  | Multipart _ _ => None
  end.

(** [msg.walk()]: the message, then the walks of its parts in order. *)
Fixpoint walk (msg : Message) : list Message :=
  msg :: match msg with
         | Leaf _ _ => []
         | Multipart _ parts => flat_map walk parts
         end.

(** A [for] loop whose body can raise, over a state. *)
Fixpoint for_each {S X} (body : S -> X -> result S) (xs : list X) (st : S)
  : result S :=
  match xs with
  | [] => OK st
  | x :: xs' => let* st' := body st x in for_each body xs' st'
  end.

(** ** [EmailReader._get_email_body] *)

(** [part.get_payload(decode=True).decode('utf-8', errors='ignore')];
    calling [decode] on [None] raises. *)
Definition payload_text (part : Message) : result str :=
  match get_payload_decoded part with
  | Some b => utf8_decode Ignore b
  | None => Raise AttributeError
  end.

(** The body of the loop over [msg.walk()], on the pair
    [(plain_body, html_body)]. *)
Definition capture_step (st : str * str) (part : Message)
  : result (str * str) :=
  let '(plain_body, html_body) := st in
  let content_type := get_content_type (info_of part) in
  let content_disposition := str_of (get part (py "Content-Disposition")) in
  if negb (contains (py "attachment") content_disposition) then
    if str_eqb content_type (py "text/plain") then
      let* t := payload_text part in OK (t, html_body)
    else if str_eqb content_type (py "text/html") then
      let* t := payload_text part in OK (plain_body, t)
    else OK st
  else OK st.

(** The two bodies before the choice between them. *)
Definition captured_bodies (msg : Message) : result (str * str) :=
  if is_multipart msg then
    for_each capture_step (walk msg) ([], [])
  else
    let* body := payload_text msg in
    if str_eqb (get_content_type (info_of msg)) (py "text/html")
    then OK ([], body)
    else OK (body, []).

(** The last two statements of the function. *)
Definition choose_body (prefer_html : bool) (plain_body html_body : str)
  : str :=
  if prefer_html && truthy html_body then html_body
  else if truthy plain_body then plain_body else html_body.

Definition _get_email_body (msg : Message) (prefer_html : bool) : result str :=
  let* bodies := captured_bodies msg in
  let '(plain_body, html_body) := bodies in
  OK (choose_body prefer_html plain_body html_body).

(** ** [EmailReader._decode_header] and [EmailReader._get_attachments] *)

(** A chunk of [email.header.decode_header]: bytes or, for a header
    without encoded words, the string itself. *)
Inductive chunk :=
  | BytesChunk (b : bytes)
  | StrChunk (s : str).

Definition codec := errors -> bytes -> result str.

Section Decoding.

(** [email.header.decode_header], which raises on malformed base64. *)
Variable decode_header : str -> result (list (chunk * option str)).

(** The codecs known by name, other than the literal name [utf-8]. *)
Variable codecs : str -> option codec.

(** [b.decode(encoding, errors)]: an unknown name raises [LookupError]. *)
Definition decode (encoding : str) (h : errors) (b : bytes) : result str :=
  if str_eqb encoding (py "utf-8") then utf8_decode h b
  else match codecs encoding with
       | Some c => c h b
       | None => Raise LookupError
       end.

(** [encoding or 'utf-8'] *)
Definition or_utf8 (encoding : option str) : str :=
  match encoding with
  | Some e => if truthy e then e else py "utf-8"
  | None => py "utf-8"
  end.

Definition decode_chunk (handler : errors) (p : chunk * option str)
  : result str :=
  match p with
  | (BytesChunk b, encoding) => decode (or_utf8 encoding) handler b
  | (StrChunk s, _) => OK s
  end.

(** The loop that fills [result]. *)
Fixpoint decode_chunks (handler : errors) (ps : list (chunk * option str))
  : result (list str) :=
  match ps with
  | [] => OK []
  | p :: ps' =>
      let* s := decode_chunk handler p in
      let* rest := decode_chunks handler ps' in
      OK (s :: rest)
  end.

(** The function with the error handler it passes to [decode] left open;
    the source passes ['ignore']. *)
Definition decode_header_with (handler : errors) (header : option str)
  : result str :=
  match header with
  | None => OK []
  | Some h =>
      if negb (truthy h) then OK []
      else
        let* decoded_parts := decode_header h in
        let* result := decode_chunks handler decoded_parts in
        OK (join (py " ") result)
  end.

Definition _decode_header (header : option str) : result str :=
  decode_header_with Ignore header.

Definition is_attachment (part : Message) : bool :=
  bool_decide (get_content_disposition part = Some (py "attachment")).

(** The body of the loop over [msg.walk()], on [attachments]. *)
Definition attachment_step (attachments : list str) (part : Message)
  : result (list str) :=
  if is_attachment part then
    match get_filename (info_of part) with
    | Some filename =>
        if truthy filename then
          let* name := _decode_header (Some filename) in
          OK (attachments ++ [name])
        else OK attachments
    | None => OK attachments
    end
  else OK attachments.

Definition _get_attachments (msg : Message) : result (list str) :=
  for_each attachment_step (walk msg) [].

End Decoding.

(** ** Numbers in text *)

Definition digit_char (n : N) : codepoint :=
  if n <? 10 then 0x30 + n else 0x61 + (n - 10).

Definition upper_digit_char (n : N) : codepoint :=
  if n <? 10 then 0x30 + n else 0x41 + (n - 10).

Fixpoint digits_fuel (base : N) (fuel : nat) (n : N) : str :=
  match fuel with
  | O => []
  | S fuel' =>
      if n <? base then [digit_char n]
      else digits_fuel base fuel' (n / base) ++ [digit_char (n mod base)]
  end.

(** The digits of [n] in a base from 2 to 16, without leading zeros. *)
Definition digits (base : N) (n : N) : str :=
  digits_fuel base (S (N.size_nat n)) n.

Definition signed_digits (base : N) (z : Z) : str :=
  if (z <? 0)%Z then 0x2D :: digits base (Z.abs_N z) else digits base (Z.abs_N z).

(** [format(n, 'x')] *)
Definition format_x (z : Z) : str := signed_digits 16 z.

(** ** [urllib.parse.quote] *)

Definition always_safe (n : N) : bool :=
  ((0x41 <=? n) && (n <=? 0x5A)) || ((0x61 <=? n) && (n <=? 0x7A)) ||
  ((0x30 <=? n) && (n <=? 0x39)) ||
  (n =? 0x5F) || (n =? 0x2E) || (n =? 0x2D) || (n =? 0x7E).

Definition quote_byte (safe : str) (b : byte) : str :=
  let n := Byte.to_N b in
  if always_safe n || ((n <? 0x80) && in_chars safe n) then [n]
  else [0x25; upper_digit_char (n / 16); upper_digit_char (n mod 16)].

(** [quote(s, safe=safe)]: the UTF-8 bytes of [s], each kept when it is a
    letter, a digit, one of [_.-~] or a character of [safe], and written
    [%XX] otherwise. *)
Definition quote (s safe : str) : result str :=
  let* b := utf8_encode s in
  OK (flat_map (quote_byte safe) b).

(** ** [EmailReader._get_web_link] and [EmailReader._get_native_mail_link] *)

Section WebLink.

(** [int(s)], [None] when it raises [ValueError]. *)
Variable int : str -> option Z.

(** The first rule: the provider is gmail, [gmail_msg_id] is not empty and
    [int] reads it. *)
Definition gmail_numeric_id (provider : str) (gmail_msg_id : option str)
  : option Z :=
  if str_eqb provider (py "gmail") then
    match gmail_msg_id with
    | Some g => if truthy g then int g else None
    | None => None
    end
  else None.

Definition _get_web_link (provider message_id : str)
    (gmail_msg_id : option str) : result str :=
  match gmail_numeric_id provider gmail_msg_id with
  | Some n => OK (py "https://mail.google.com/mail/u/0/#inbox/" ++ format_x n)
  | None =>
      if negb (truthy message_id) then OK []
      else
        let clean_id := replace (py ">") [] (replace (py "<") [] message_id) in
        if str_eqb provider (py "gmail") then
          let* encoded_id := quote clean_id [] in
          OK (py "https://mail.google.com/mail/u/0/#search/rfc822msgid%3A"
                ++ encoded_id)
        else if str_eqb provider (py "zoho") then
          OK (py "https://mail.zoho.com/zm/#search/msgid/" ++ clean_id)
        else if str_eqb provider (py "fastmail") then
          OK (py "https://app.fastmail.com/mail/search:msgid:" ++ clean_id)
        else
          OK (py "https://mail." ++ provider ++ py ".com/search?q=" ++ clean_id)
  end.

End WebLink.

Definition _get_native_mail_link (message_id : str) : result str :=
  if negb (truthy message_id) then OK []
  else
    let clean_id := strip_chars (py "<>") message_id in
    let* q := quote clean_id (py "@") in
    OK (py "message://" ++ q).

(** ** The search criteria of [EmailReader.read]

    A date is its proleptic Gregorian ordinal ([date.toordinal()]): day 1 is
    0001-01-01 and day 3652059 is 9999-12-31. *)

Local Open Scope Z_scope.

Definition days_before_month (month : Z) : Z :=
  nth (Z.to_nat month)
    [-1; 0; 31; 59; 90; 120; 151; 181; 212; 243; 273; 304; 334] 0.

Definition days_in_month (month : Z) : Z :=
  nth (Z.to_nat month) [-1; 31; 28; 31; 30; 31; 30; 31; 31; 30; 31; 30; 31] 0.

(** [_ord2ymd] of [datetime]: year, month and day of an ordinal. *)
Definition ord2ymd (ordinal : Z) : Z * Z * Z :=
  let n := ordinal - 1 in
  let n400 := n / 146097 in
  let n := n mod 146097 in
  let year := n400 * 400 + 1 in
  let n100 := n / 36524 in
  let n := n mod 36524 in
  let n4 := n / 1461 in
  let n := n mod 1461 in
  let n1 := n / 365 in
  let n := n mod 365 in
  let year := year + n100 * 100 + n4 * 4 + n1 in
  if (n1 =? 4) || (n100 =? 4) then (year - 1, 12, 31)
  else
    let leapyear := (n1 =? 3) && (negb (n4 =? 24) || (n100 =? 3)) in
    let month := Z.shiftr (n + 50) 5 in
    let preceding :=
      days_before_month month + (if (2 <? month) && leapyear then 1 else 0) in
    if n <? preceding then
      let month := month - 1 in
      let preceding :=
        preceding -
        (days_in_month month + (if (month =? 2) && leapyear then 1 else 0)) in
      (year, month, n - preceding + 1)
    else (year, month, n - preceding + 1).

Definition month_abbr (month : Z) : str :=
  nth (Z.to_nat month)
    (List.map py ["Jan"; "Feb"; "Mar"; "Apr"; "May"; "Jun"; "Jul"; "Aug";
                  "Sep"; "Oct"; "Nov"; "Dec"]%string) [].

Definition two_digits (n : Z) : str :=
  if n <? 10 then 0x30%N :: digits 10 (Z.to_N n) else digits 10 (Z.to_N n).

(** [d.strftime("%d-%b-%Y")] in the C locale; the year is written without
    padding, as the C library of the platform does. *)
Definition strftime_d_b_Y (ordinal : Z) : str :=
  let '(year, month, day) := ord2ymd ordinal in
  two_digits day ++ py "-" ++ month_abbr (month - 1) ++ py "-"
    ++ digits 10 (Z.to_N year).

Definition max_ordinal : Z := 3652059.

(** [(datetime.now() - timedelta(days=days)).strftime("%d-%b-%Y")], [now]
    being the day of [datetime.now()]: [timedelta] takes at most
    999999999 days either way and the difference has to be a date. *)
Definition since_date (now days : Z) : result str :=
  if (days <? -999999999) || (999999999 <? days) then Raise OverflowError
  else if (now - days <? 1) || (max_ordinal <? now - days)
  then Raise OverflowError
  else OK (strftime_d_b_Y (now - days)).

(** [if x:] on an optional string and on an optional number. *)
Definition present (x : option str) : bool :=
  match x with
  | Some s => truthy s
  | None => false
  end.

Definition present_days (days : option Z) : bool :=
  match days with
  | Some d => negb (d =? 0)
  | None => false
  end.

Definition dquote : str := [0x22%N].

(** The list [criteria] at the end of the four [if] statements. *)
Definition build_criteria (now : Z) (from_address subject_filter : option str)
    (unread_only : bool) (days : option Z) : result (list str) :=
  let criteria := [] in
  let criteria :=
    if present from_address
    then criteria ++ [py "FROM " ++ dquote ++ default [] from_address ++ dquote]
    else criteria in
  let criteria :=
    if present subject_filter
    then criteria
           ++ [py "SUBJECT " ++ dquote ++ default [] subject_filter ++ dquote]
    else criteria in
  let criteria :=
    if unread_only then criteria ++ [py "UNSEEN"] else criteria in
  if present_days days then
    let* date := since_date now (default 0 days) in
    OK (criteria ++ [py "SINCE " ++ date])
  else OK criteria.

(** [search_string] of [read]. *)
Definition search_string (now : Z) (from_address subject_filter : option str)
    (unread_only : bool) (days : option Z) : result str :=
  let* criteria := build_criteria now from_address subject_filter
                     unread_only days in
  OK (match criteria with
      | [] => py "ALL"
      | _ => join (py " ") criteria
      end).

Local Close Scope Z_scope.

(** ** [EmailReader._get_unsubscribe_links] *)

(** The character classes of the patterns. [Q] below stands for the class
    of the two quote characters, [NQ] for its complement and [U] for the
    class of a URL character: anything but white space, the angle brackets
    and the two quotes. *)
Definition not_gt : regex := Set_ true [ch ">"].
Definition not_lt : regex := Set_ true [ch "<"].
Definition a_quote : regex := Set_ false [Ch 0x22; ch "'"].
Definition not_quote : regex := Set_ true [Ch 0x22; ch "'"].
Definition url_char : regex :=
  Set_ true [Space; ch "<"; ch ">"; Ch 0x22; ch "'"].

(** [<(https?://[^>]+)>] *)
Definition header_url_pattern : regex :=
  seq [lits "<";
       Group 1 (seq [lits "http"; Opt (lits "s"); lits "://"; Plus not_gt]);
       lits ">"].

(** [<(mailto:[^>]+)>] *)
Definition header_mailto_pattern : regex :=
  seq [lits "<"; Group 1 (seq [lits "mailto:"; Plus not_gt]); lits ">"].

(** [https?://U+], [middle], [U*] *)
Definition url_with (middle : list regex) : regex :=
  seq ([lits "http"; Opt (lits "s"); lits "://"; Plus url_char]
         ++ middle ++ [Star url_char]).

(** [https?://U*beehiiv\.com/U*], [middle], [U*] *)
Definition beehiiv_with (middle : string) : regex :=
  seq [lits "http"; Opt (lits "s"); lits "://"; Star url_char;
       lits "beehiiv.com/"; Star url_char; lits middle; Star url_char].

Definition unsubscribe_patterns : list regex :=
  [url_with [lits "unsubscribe"];
   url_with [lits "/unsub"];
   url_with [lits "/opt-out"];
   url_with [lits "/preferences"];
   url_with [lits "/email-preferences"];
   url_with [lits "/manage"; Star url_char; lits "subscription"];
   url_with [lits "/email/preferences"];
   url_with [lits "/settings/notifications"];
   beehiiv_with "unsubscribe";
   beehiiv_with "preferences";
   beehiiv_with "manage"].

(** [<a[^>]+href=Q(NQ+)Q] *)
Definition anchor_href : list regex :=
  [lits "<a"; Plus not_gt; lits "href="; a_quote; Group 1 (Plus not_quote);
   a_quote].

(** [link_pattern]: the anchor with its [href], the rest of the tag, the
    text up to the next [<] as group 2, and [</a>]. *)
Definition link_pattern : regex :=
  seq (anchor_href
         ++ [Star not_gt; lits ">"; Group 2 (Star not_lt); lits "</a>"]).

(** [unsubscribe|opt.?out|preferences|manage|settings|stop.?receiv] *)
Definition link_text_pattern : regex :=
  Alt (lits "unsubscribe")
    (Alt (seq [lits "opt"; Opt Dot; lits "out"])
       (Alt (lits "preferences")
          (Alt (lits "manage")
             (Alt (lits "settings")
                (seq [lits "stop"; Opt Dot; lits "receiv"]))))).

(** [unsubscribe[^<]*<a[^>]+href=Q(NQ+)Q] *)
Definition unsub_before_link_pattern : regex :=
  seq ([lits "unsubscribe"; Star not_lt] ++ anchor_href).

(** [<a[^>]+href=Q(NQ+)Q[^>]*>[^<]*unsubscribe] *)
Definition unsub_in_link_pattern : regex :=
  seq (anchor_href
         ++ [Star not_gt; lits ">"; Star not_lt; lits "unsubscribe"]).

(** [if url.startswith('http') and url not in unsubscribe_links:
    unsubscribe_links.append(url)] *)
Definition append_new (unsubscribe_links : list str) (url : str) : list str :=
  if startswith (py "http") url && negb (bool_decide (url ∈ unsubscribe_links))
  then unsubscribe_links ++ [url]
  else unsubscribe_links.

(** The characters given to [strip]: seven punctuation marks, the two
    quotes and the five characters of [&amp;]. *)
Definition strip_set : str := py ".,;:)]}'" ++ [0x22] ++ py "&amp;".

(** The two statements that clean a match of a URL pattern. *)
Definition clean_url (m : str) : str :=
  replace (py "&amp;") (py "&") (strip_chars strip_set m).

(** The three loops that run on the HTML pass only. *)
Definition anchor_links (body : str) (unsubscribe_links : list str)
  : list str :=
  let links :=
    fold_left (fun links m =>
        let url := group 1 m in
        let link_text := group 2 m in
        if search true link_text_pattern link_text
        then append_new links url else links)
      (finditer true link_pattern body) unsubscribe_links in
  let links :=
    fold_left append_new (findall true unsub_before_link_pattern 1 body)
      links in
  fold_left append_new (findall true unsub_in_link_pattern 1 body) links.

(** The loop over [unsubscribe_patterns]. *)
Definition pattern_links (body : str) (unsubscribe_links : list str)
  : list str :=
  fold_left (fun links pattern =>
      fold_left (fun links m => append_new links (clean_url m))
        (findall true pattern 0 body) links)
    unsubscribe_patterns unsubscribe_links.

(** One pass of the loop over [[True, False]], the body being given. *)
Definition scan_body (prefer_html : bool) (body : str)
    (unsubscribe_links : list str) : list str :=
  if truthy body then
    pattern_links body
      (if prefer_html then anchor_links body unsubscribe_links
       else unsubscribe_links)
  else unsubscribe_links.

(** What a [List-Unsubscribe] header that is a [str] contributes. *)
Definition header_links (list_unsubscribe : str) : list str :=
  if truthy list_unsubscribe then
    findall false header_url_pattern 1 list_unsubscribe
      ++ findall false header_mailto_pattern 1 list_unsubscribe
  else [].

(** The statements on [list_unsubscribe]: a [Header] object is true, and
    [re.findall] raises [TypeError] on it. *)
Definition list_unsubscribe_links (list_unsubscribe : fetched)
  : result (list str) :=
  match list_unsubscribe with
  | Str value => OK (header_links value)
  | Header _ => Raise TypeError
  end.

(** [unsubscribe_links] before the duplicates are removed. *)
Definition collected_links (msg : Message) : result (list str) :=
  let* unsubscribe_links :=
    list_unsubscribe_links (get_or_empty msg (py "List-Unsubscribe")) in
  for_each (fun links prefer_html =>
      let* body := _get_email_body msg prefer_html in
      OK (scan_body prefer_html body links))
    [true; false]
    unsubscribe_links.

(** The last loop, on the pair [(seen, unique_links)]. *)
Definition unique_step (st : gset str * list str) (link : str)
  : gset str * list str :=
  let '(seen, unique_links) := st in
  if bool_decide (link ∈ seen) then st
  else ({[link]} ∪ seen, unique_links ++ [link]).

Definition unique (links : list str) : list str :=
  snd (fold_left unique_step links (∅, [])).

Definition _get_unsubscribe_links (msg : Message) : result (list str) :=
  let* unsubscribe_links := collected_links msg in
  OK (unique unsubscribe_links).

(** ** The links in the order the rules find them *)

(** The links the three loops of the HTML pass try to add, in their
    order: anchors with an unsubscribe text, anchors after the word
    unsubscribe, anchors before it. *)
Definition anchor_candidates (body : str) : list str :=
  List.map (group 1)
    (List.filter (fun m => search true link_text_pattern (group 2 m))
       (finditer true link_pattern body))
  ++ findall true unsub_before_link_pattern 1 body
  ++ findall true unsub_in_link_pattern 1 body.

(** The cleaned matches of the URL patterns, pattern after pattern. *)
Definition pattern_candidates (body : str) : list str :=
  flat_map (fun pattern => List.map clean_url (findall true pattern 0 body))
    unsubscribe_patterns.

(** The links one pass over a body tries to add. *)
Definition body_candidates (prefer_html : bool) (body : str) : list str :=
  if truthy body then
    (if prefer_html then anchor_candidates body else [])
      ++ pattern_candidates body
  else [].

(** Every link the rules find, in the order they find it: the links of
    the header, then those of the HTML pass and of the plain pass that
    start with [http]. *)
Definition links_in_order (list_unsubscribe html_pass plain_pass : str)
  : list str :=
  header_links list_unsubscribe
    ++ List.filter (startswith (py "http"))
         (body_candidates true html_pass ++ body_candidates false plain_pass).

(** A link is seen before another one is seen for the first time. *)
Definition first_seen_order (found links : list str) : Prop :=
  forall i j x y,
    links !! i = Some x -> links !! j = Some y -> (i < j)%nat ->
    exists a, found !! a = Some x /\
              forall b, found !! b = Some y -> (a < b)%nat.

(** ** Words of the specification and sample messages *)

(** The resolution policy as the specification words it. *)
Definition resolution_policy (preferHtml : bool) (plainBody htmlBody : str)
  : str :=
  if preferHtml && truthy htmlBody then htmlBody
  else if truthy plainBody then plainBody
  else if truthy htmlBody then htmlBody
  else [].

(** A part the loop of [_get_email_body] takes as the body of type
    [content_type]: the disposition header does not contain the word
    attachment and the content type is [content_type]. *)
Definition body_part (content_type : str) (part : Message) : bool :=
  negb (contains (py "attachment")
          (str_of (get part (py "Content-Disposition"))))
  && str_eqb (get_content_type (info_of part)) content_type.

(** The variable of the loop that holds the body of type [content_type]. *)
Definition captured (content_type : str) (st : str * str) : str :=
  if str_eqb content_type (py "text/plain") then st.1 else st.2.

Definition text_type (content_type : str) : Prop :=
  content_type = py "text/plain" \/ content_type = py "text/html".

(** No container is itself typed as text, as in every parsed message. *)
Definition text_parts_are_leaves (msg : Message) : bool :=
  forallb (fun q =>
      implb (body_part (py "text/plain") q || body_part (py "text/html") q)
            (negb (is_multipart q)))
    (walk msg).

Definition info (content_type : string) (headers : list (str * str))
    (filename : option str) : part_info :=
  {| _headers := headers;
     get_content_type := py content_type;
     get_filename := filename |}.

(** A leaf without headers whose payload is ASCII text. *)
Definition text_leaf (content_type text : string) : Message :=
  Leaf (info content_type [] None) (list_byte_of_string text).

(** A multipart/alternative message with two text/plain parts. *)
Definition two_plain_parts : Message :=
  Multipart (info "multipart/alternative" [] None)
    [text_leaf "text/plain" "first"; text_leaf "text/plain" "second"].

(** A multipart/alternative message with a plain and an HTML part. *)
Definition plain_and_html : Message :=
  Multipart (info "multipart/alternative" [] None)
    [text_leaf "text/plain" "hello"; text_leaf "text/html" "<p>hello</p>"].

(** A message whose only part is text/plain with an empty payload. *)
Definition empty_plain : Message := text_leaf "text/plain" "".

(** A message of one text/plain part with a [List-Unsubscribe] header and
    an empty body. *)
Definition header_only (list_unsubscribe : string) : Message :=
  Leaf (info "text/plain" [(py "List-Unsubscribe", py list_unsubscribe)] None)
       [].

(** A message of one text/plain part with the given body. *)
Definition plain_message (body : string) : Message :=
  text_leaf "text/plain" body.

(** A message of one text/plain part with a [List-Unsubscribe] header and
    a body. *)
Definition header_and_body (list_unsubscribe body : string) : Message :=
  Leaf (info "text/plain" [(py "List-Unsubscribe", py list_unsubscribe)] None)
       (list_byte_of_string body).

(** The surrogate escape that stands for a raw byte of a header. *)
Definition escaped_byte (b : N) : codepoint := 0xDC00 + b.

(** A message whose [List-Unsubscribe] header holds, in a bracketed URL,
    the raw byte 0xE9. *)
Definition header_with_raw_byte : Message :=
  Leaf (info "text/plain"
          [(py "List-Unsubscribe",
            py "<https://x.test/u" ++ [escaped_byte 0xE9] ++ py ">")] None)
       [].

(** A part that is an attachment with a file name. *)
Definition named_attachment (part : Message) : bool :=
  is_attachment part &&
  match get_filename (info_of part) with
  | Some filename => truthy filename
  | None => false
  end.

(** What [email.header.decode_header] returns for three headers: one
    encoded word that declares UTF-8 and holds the byte FF between [a] and
    [b], one encoded word that declares the charset [foo], and any header
    without encoded words (the header itself, as one chunk). *)
Definition sample_decode_header (h : str)
  : result (list (chunk * option str)) :=
  if str_eqb h (py "=?utf-8?q?a=FFb?=")
  then OK [(BytesChunk [x61; xff; x62], Some (py "utf-8"))]
  else if str_eqb h (py "=?foo?q?abc?=")
  then OK [(BytesChunk [x61; x62; x63], Some (py "foo"))]
  else OK [(StrChunk h, None)].

(** A registry that knows no codec but UTF-8. *)
Definition no_codecs (name : str) : option codec := None.




Definition attachment_part (disposition : string) (filename : option str)
  : Message :=
  Leaf (info "application/pdf"
          [(py "Content-Disposition", py disposition)] filename) [].

(** A message with a text part, a named attachment and an attachment
    without a file name. *)
Definition with_attachments : Message :=
  Multipart (info "multipart/mixed" [] None)
    [text_leaf "text/plain" "see attached";
     attachment_part "attachment; filename=report.pdf" (Some (py "report.pdf"));
     attachment_part "attachment" None].

(** The clauses of the search string, one for each filter that is given. *)
Definition clauses (from_address subject_filter : option str)
    (unread_only : bool) (days : option Z) (date : str) : list str :=
  (if present from_address
   then [py "FROM " ++ dquote ++ default [] from_address ++ dquote] else [])
  ++ (if present subject_filter
      then [py "SUBJECT " ++ dquote ++ default [] subject_filter ++ dquote]
      else [])
  ++ (if unread_only then [py "UNSEEN"] else [])
  ++ (if present_days days then [py "SINCE " ++ date] else []).

(** The state of the last loop of [_get_unsubscribe_links] after the
    links [links]. *)
Definition unique_state (links : list str) : gset str * list str :=
  fold_left unique_step links (∅, []).

(** An element of the attachment list and the part it comes from: an
    attachment whose file name is not empty and decodes to the element. *)
Definition names_part
    (decode_header : str -> result (list (chunk * option str)))
    (codecs : str -> option codec) (part : Message) (name : str) : Prop :=
  is_attachment part = true /\
  exists filename,
    get_filename (info_of part) = Some filename /\ filename <> [] /\
    _decode_header decode_header codecs (Some filename) = OK name.

(** ** Headers made of bracketed tokens *)

(** A token between angle brackets. *)
Definition bracket (t : str) : str := py "<" ++ t ++ py ">".

Definition no_gt (t : str) : bool := forallb (fun c => negb (c =? 0x3E)) t.
Definition no_lt (t : str) : bool := forallb (fun c => negb (c =? 0x3C)) t.

(** A token holds no angle bracket. *)
Definition no_angle (t : str) : bool :=
  forallb (fun c => negb ((c =? 0x3C) || (c =? 0x3E))) t.

(** A token that starts with [scheme] and goes on after it. *)
Definition scheme_token (scheme t : str) : bool :=
  startswith scheme t && (length scheme <? length t)%nat.

Definition url_token (t : str) : bool :=
  scheme_token (py "https://") t || scheme_token (py "http://") t.

Definition mailto_token (t : str) : bool := scheme_token (py "mailto:") t.

(** The header that holds the tokens of [items] in brackets, each after a
    separator, and ends with [tail]. *)
Fixpoint header_of (items : list (str * str)) (tail : str) : str :=
  match items with
  | [] => tail
  | (sep, t) :: items' => sep ++ bracket t ++ header_of items' tail
  end.

(** A continuation of the matcher that goes on only at a [>]. *)
Definition wants_gt {A} (k : str -> captures -> option A) : Prop :=
  forall s caps, match s with c :: _ => c <> 0x3E | [] => True end ->
                 k s caps = None.

(** How [match_here] ends a match. *)
Definition final (s : str) (rest : str) (caps : captures)
  : option (match_ * str) :=
  Some ({| whole := take (length s - length rest)%nat s; groups := caps |},
        rest).

(** ** More of [EmailReader]: what the links hold and what [read] fetches *)

(** A character [quote] can write: a letter, a digit, one of [_.-~], the
    percent sign of an escape, or an ASCII character of [safe]. *)
Definition url_safe (safe : str) (c : codepoint) : bool :=
  always_safe c || (c =? 0x25) || ((c <? 0x80) && in_chars safe c).

(** A character [quote] leaves as it is. *)
Definition kept_by_quote (safe : str) (c : codepoint) : bool :=
  always_safe c || ((c <? 0x80) && in_chars safe c).

Definition is_angle (c : codepoint) : bool := (c =? 0x3C) || (c =? 0x3E).

(** The start of the search link of a provider other than gmail. *)
Definition search_link_prefix (provider : str) : str :=
  if str_eqb provider (py "zoho")
  then py "https://mail.zoho.com/zm/#search/msgid/"
  else if str_eqb provider (py "fastmail")
  then py "https://app.fastmail.com/mail/search:msgid:"
  else py "https://mail." ++ provider ++ py ".com/search?q=".

(** The disposition header of a part holds the word attachment. *)
Definition marked_attachment (part : Message) : bool :=
  contains (py "attachment") (str_of (get part (py "Content-Disposition"))).

(** [b.split()]: the runs of bytes between ASCII white space. [word] is the
    run being read. *)
Definition is_ascii_space (b : byte) : bool :=
  let c := Byte.to_N b in
  ((0x09 <=? c) && (c <=? 0x0D)) || (c =? 0x20).

Definition close_word (word : bytes) : list bytes :=
  match word with
  | [] => []
  | _ => [word]
  end.

Fixpoint split_from (word : bytes) (bs : bytes) : list bytes :=
  match bs with
  | [] => close_word word
  | b :: bs' =>
      if is_ascii_space b then close_word word ++ split_from [] bs'
      else split_from (word ++ [b]) bs'
  end.

Definition bytes_split (bs : bytes) : list bytes := split_from [] bs.

(** [l[start:]]: a negative [start] counts from the end, and a [start]
    outside the list is brought back to its bounds. *)
Definition slice_from {X} (start : Z) (l : list X) : list X :=
  let n := Z.of_nat (length l) in
  let i := if (start <? 0)%Z then Z.max 0 (start + n) else Z.min start n in
  drop (Z.to_nat i) l.

(** The message numbers the loop of [read] fetches, in its order:
    [reversed(message_numbers[0].split()[-limit:])]. *)
Definition numbers_to_fetch (limit : Z) (message_numbers0 : bytes)
  : list bytes :=
  rev (slice_from (- limit)%Z (bytes_split message_numbers0)).

(** A Unicode scalar value: a code point that is not a surrogate. *)
Definition scalar_value (c : codepoint) : bool :=
  (c <? 0xD800) || ((0xDFFF <? c) && (c <=? 0x10FFFF)).

(** A link of the [List-Unsubscribe] header, or one that starts with
    [http]. *)
Definition from_header_or_http (msg : Message) (x : str) : Prop :=
  (exists value,
     get_or_empty msg (py "List-Unsubscribe") = Str value
     /\ x ∈ header_links value)
  \/ startswith (py "http") x = true.

(** ** [EmailConfig]

    [os.environ] is a finite map from names to values. The exceptions are
    those of CPython on Linux with the UTF-8 file system encoding. *)

Module Env.

Inductive exn :=
  | ValueError
  | OSError
  | UnicodeEncodeError.

Inductive outcome (A : Type) :=
  | Returns (a : A)
  | Raises (e : exn).
Arguments Returns {A} a.
Arguments Raises {A} e.

Definition and_then {A B} (r : outcome A) (k : A -> outcome B) : outcome B :=
  match r with
  | Returns a => k a
  | Raises e => Raises e
  end.

(** A string [os.environ] can encode: its surrogates, if any, are the
    escapes U+DC80 to U+DCFF. *)
Definition encodable (s : str) : bool :=
  forallb (fun c => negb ((0xD800 <=? c) && (c <=? 0xDFFF))
                    || ((0xDC80 <=? c) && (c <=? 0xDCFF))) s.

Definition has_null (s : str) : bool := existsb (N.eqb 0) s.

(** [key in os.environ] *)
Definition environ_contains (environ : gmap str str) (key : str)
  : outcome bool :=
  if encodable key then Returns (bool_decide (is_Some (environ !! key)))
  else Raises UnicodeEncodeError.

(** [os.environ[key] = value]: both are encoded, then [putenv] refuses a
    null character, a name with [=] and the empty name. *)
Definition environ_set (environ : gmap str str) (key value : str)
  : outcome (gmap str str) :=
  if negb (encodable key && encodable value) then Raises UnicodeEncodeError
  else if has_null key || has_null value then Raises ValueError
  else if contains (py "=") key then Raises ValueError
  else if bool_decide (key = []) then Raises OSError
  else Returns (<[key := value]> environ).

(** [line.split('=', 1)] for a line that holds [=]: what is before the
    first [=] and what is after it. *)
Fixpoint split_once (s : str) : str * str :=
  match s with
  | [] => ([], [])
  | c :: s' =>
      if c =? 0x3D then ([], s')
      else let '(key, value) := split_once s' in (c :: key, value)
  end.

(** The value stripped of double quotes, then of single quotes. *)
Definition unquote (value : str) : str :=
  strip_chars (py "'") (strip_chars dquote value).

(** The body of the loop of [load_env_file] over the lines of the file. *)
Definition load_line (environ : gmap str str) (raw : str)
  : outcome (gmap str str) :=
  let line := strip raw in
  if truthy line && negb (startswith (py "#") line) && contains (py "=") line
  then
    let '(key, value) := split_once line in
    and_then (environ_contains environ key) (fun present =>
      if present then Returns environ
      else environ_set environ key (unquote value))
  else Returns environ.

Fixpoint load_lines (lines : list str) (environ : gmap str str)
  : outcome (gmap str str) :=
  match lines with
  | [] => Returns environ
  | raw :: lines' =>
      and_then (load_line environ raw) (load_lines lines')
  end.

(** [load_env_file], the lines of the file being given; [None] when the
    file does not exist. *)
Definition load_env_file (env_file : option (list str))
    (environ : gmap str str) : outcome (gmap str str) :=
  match env_file with
  | Some lines => load_lines lines environ
  | None => Returns environ
  end.

(** [_get_required] *)
Definition _get_required (environ : gmap str str) (key : str) : outcome str :=
  match environ !! key with
  | Some value => if truthy value then Returns value else Raises ValueError
  | None => Raises ValueError
  end.

(** An entry of [PROVIDER_SETTINGS]; [use_tls] and [use_ssl] are the keys a
    provider may lack. *)
Record settings := {
  smtp_host_of : str;
  smtp_port_of : Z;
  use_tls : option bool;
  use_ssl : option bool;
  imap_host_of : str;
  imap_port_of : Z
}.

Definition PROVIDER_SETTINGS : gmap str settings :=
  <[py "gmail" := {| smtp_host_of := py "smtp.gmail.com";
                     smtp_port_of := 587;
                     use_tls := Some true; use_ssl := None;
                     imap_host_of := py "imap.gmail.com";
                     imap_port_of := 993 |}]>
  (<[py "zoho" := {| smtp_host_of := py "smtp.zoho.com";
                     smtp_port_of := 465;
                     use_tls := None; use_ssl := Some true;
                     imap_host_of := py "imap.zoho.com";
                     imap_port_of := 993 |}]>
  (<[py "fastmail" := {| smtp_host_of := py "smtp.fastmail.com";
                         smtp_port_of := 465;
                         use_tls := None; use_ssl := Some true;
                         imap_host_of := py "imap.fastmail.com";
                         imap_port_of := 993 |}]> ∅)).

Record EmailConfig := {
  provider : str;
  account : str;
  password : str;
  from_name : str;
  smtp_host : str;
  smtp_port : Z;
  smtp_use_tls : bool;
  smtp_use_ssl : bool;
  imap_host : str;
  imap_port : Z;
  from_address : str
}.

Section Init.

(** [int(s)], [None] when it raises [ValueError]. *)
Variable int : str -> option Z.

(** [int(os.getenv(key, default))], the default being a number. *)
Definition port (environ : gmap str str) (key : str) (default_port : Z)
  : outcome Z :=
  match environ !! key with
  | Some value =>
      match int value with
      | Some n => Returns n
      | None => Raises ValueError
      end
  | None => Returns default_port
  end.

(** [from_email or os.getenv('EMAIL_FROM_ADDRESS', self.account)] *)
Definition choose_from_address (environ : gmap str str)
    (from_email : option str) (account : str) : str :=
  if present from_email then default [] from_email
  else default account (environ !! py "EMAIL_FROM_ADDRESS").

(** [EmailConfig.__init__], [environ] being the environment once the file
    is loaded. *)
Definition init_loaded (environ : gmap str str) (from_email : option str)
  : outcome EmailConfig :=
  and_then (_get_required environ (py "EMAIL_PROVIDER")) (fun p =>
  let provider := lower p in
  and_then (_get_required environ (py "EMAIL_ACCOUNT")) (fun account =>
  and_then (_get_required environ (py "EMAIL_PASSWORD")) (fun password =>
  and_then (_get_required environ (py "EMAIL_FROM_NAME")) (fun from_name =>
  match PROVIDER_SETTINGS !! provider with
  | None => Raises ValueError
  | Some provider_config =>
      and_then (port environ (py "EMAIL_SMTP_PORT")
                  (smtp_port_of provider_config)) (fun smtp_port =>
      and_then (port environ (py "EMAIL_IMAP_PORT")
                  (imap_port_of provider_config)) (fun imap_port =>
      Returns
        {| provider := provider;
           account := account;
           password := password;
           from_name := from_name;
           smtp_host := default (smtp_host_of provider_config)
                          (environ !! py "EMAIL_SMTP_HOST");
           smtp_port := smtp_port;
           smtp_use_tls := default false (use_tls provider_config);
           smtp_use_ssl := default false (use_ssl provider_config);
           imap_host := default (imap_host_of provider_config)
                          (environ !! py "EMAIL_IMAP_HOST");
           imap_port := imap_port;
           from_address := choose_from_address environ from_email account |}))
  end)))).

Definition init (env_file : option (list str)) (environ : gmap str str)
    (from_email : option str) : outcome EmailConfig :=
  and_then (load_env_file env_file environ) (fun environ' =>
    init_loaded environ' from_email).

End Init.

End Env.

(** Sample environment file and environment. *)
Definition sample_env_lines : list str :=
  [py "# mail account"; py "EMAIL_PROVIDER='Gmail'";
   py "EMAIL_ACCOUNT=ann@example.org"; py "EMAIL_PROVIDER=zoho";
   py "EMAIL_PASSWORD=a=b "; py "EMAIL_FROM_NAME=Ann"].

Definition short_env_lines : list str :=
  [py "EMAIL_ACCOUNT=ann@example.org"; py "EMAIL_PROVIDER='Gmail'";
   py "EMAIL_PROVIDER=zoho"].

Definition sample_environ : gmap str str :=
  <[py "EMAIL_ACCOUNT" := py "bob@example.org"]> ∅.

Definition sample_int (s : str) : option Z :=
  if str_eqb s (py "2525") then Some 2525%Z else None.

Definition web_link_prefixes : list str :=
  [py "https://mail.google.com/mail/u/0/#";
   py "https://mail.zoho.com/zm/#search/msgid/";
   py "https://app.fastmail.com/mail/search:msgid:"].

(** ** [EmailSender._attach_file]: the header of an attached file *)


(** ** The unsubscribe command of [main] *)

Module Unsubscribe.

(** The keys of an email that the command reads. *)
Record email_data := {
  from_ : str;
  subject : str;
  date : option str;
  unsubscribe_links : list str
}.

(** A value of the dictionary [found_links]. *)
Record entry := {
  links : list str;
  entry_subject : str;
  entry_date : option str
}.

Definition entry_of (email_msg : email_data) : entry :=
  {| links := unsubscribe_links email_msg;
     entry_subject := subject email_msg;
     entry_date := date email_msg |}.

(** [sender in found_links]; the dictionary is the list of its items in
    insertion order. *)
Definition has_sender (found_links : list (str * entry)) (sender : str)
  : bool :=
  existsb (fun '(k, _) => str_eqb k sender) found_links.

Definition http_links (l : list str) : list str :=
  List.filter (startswith (py "http")) l.

(** The body of the loop over [emails], on [found_links] and
    [all_http_links]. *)
Definition found_step (st : list (str * entry) * list str)
    (email_msg : email_data) : list (str * entry) * list str :=
  let '(found_links, all_http_links) := st in
  match unsubscribe_links email_msg with
  | [] => st
  | _ :: _ =>
      let sender := from_ email_msg in
      if has_sender found_links sender then st
      else (found_links ++ [(sender, entry_of email_msg)],
            all_http_links ++ http_links (unsubscribe_links email_msg))
  end.

Definition found (emails : list email_data) : list (str * entry) * list str :=
  fold_left found_step emails ([], []).

(** [all_http_links[0]], the link the command offers to open, when there
    is one. *)
Definition link_to_open (emails : list email_data) : option str :=
  head (found emails).2.

Definition sample_emails : list email_data :=
  [ {| from_ := py "news@a.test"; subject := py "Offers"; date := None;
       unsubscribe_links := [py "mailto:off@a.test"] |};
    {| from_ := py "b@b.test"; subject := py "Hello"; date := None;
       unsubscribe_links := [] |};
    {| from_ := py "news@a.test"; subject := py "Older offers"; date := None;
       unsubscribe_links := [py "https://a.test/unsubscribe"] |};
    {| from_ := py "c@c.test"; subject := py "Digest"; date := None;
       unsubscribe_links := [py "mailto:x@c.test"; py "http://c.test/u"] |} ].

End Unsubscribe.

(** ** The IMAP session of [EmailReader] and [EmailClient]

    What the methods do to the connection is the list of calls they make
    on [imaplib], each either returning or raising; which one it is depends
    on the server and is a parameter. A response that is not OK but does
    not raise (a NO of the server) is a call that returns. *)

Module Imap.

Inductive call :=
  | IMAP4_SSL (host : str) (port : Z)
  | login (user password : str)
  | select (mailbox : str)
  | store (message_set : bytes) (command flags : str)
  | expunge
  | close
  | logout.

(** The reader: whether [self.imap] is set, and the calls made so far, each
    with whether it returned. *)
Record reader := {
  imap : bool;
  calls : list (call * bool)
}.

(** A method: the reader after it, and the value returned, or [None] when an
    exception leaves it. *)
Definition io (A : Type) : Type := reader -> reader * option A.

Definition ret {A} (a : A) : io A := fun r => (r, Some a).

Definition bind {A B} (m : io A) (k : A -> io B) : io B :=
  fun r =>
    match m r with
    | (r', Some a) => k a r'
    | (r', None) => (r', None)
    end.

Declare Scope io_scope.
Notation "m ;; k" := (bind m (fun _ => k))
  (at level 100, k at level 200, right associativity) : io_scope.
Local Open Scope io_scope.

(** [try: body except Exception: handler] *)
Definition try_except {A} (body handler : io A) : io A :=
  fun r =>
    match body r with
    | (r', None) => handler r'
    | returned => returned
    end.

(** [try: body finally: final] *)
Definition try_finally {A} (body : io A) (final : io unit) : io A :=
  fun r =>
    let '(r', result) := body r in
    match final r' with
    | (r'', Some _) => (r'', result)
    | (r'', None) => (r'', None)
    end.

(** A value of the error monad, an exception of which leaves the method. *)
Definition lift {A} (x : result A) : io A :=
  fun r =>
    match x with
    | OK a => (r, Some a)
    | Raise _ => (r, None)
    end.

Section Session.

(** Whether a call returns, after the calls made before it. *)
Variable returns : list (call * bool) -> call -> bool.

Variable config : Env.EmailConfig.

Definition perform (c : call) : io unit :=
  fun r =>
    let ok := returns (calls r) c in
    ({| imap := imap r; calls := calls r ++ [(c, ok)] |},
     if ok then Some tt else None).

Definition set_imap : io unit :=
  fun r => ({| imap := true; calls := calls r |}, Some tt).

Definition connect : io unit :=
  perform (IMAP4_SSL (Env.imap_host config) (Env.imap_port config)) ;;
  set_imap ;;
  perform (login (Env.account config) (Env.password config)) ;;
  perform (select (py "INBOX")).

Definition disconnect : io unit :=
  fun r => if imap r then (perform close ;; perform logout) r else ret tt r.

(** [if not self.imap: self.connect()] *)
Definition connect_if_needed : io unit :=
  fun r => if imap r then ret tt r else connect r.

(** [for email_id in email_ids: self.imap.store(email_id.encode(), '+FLAGS', flags)] *)
Fixpoint store_each (flags : str) (email_ids : list str) : io unit :=
  match email_ids with
  | [] => ret tt
  | email_id :: email_ids' =>
      bind (lift (utf8_encode email_id)) (fun message_set =>
        perform (store message_set (py "+FLAGS") flags) ;;
        store_each flags email_ids')
  end.

(** [EmailReader.mark_as_read] *)
Definition mark_as_read (email_ids : list str) : io bool :=
  connect_if_needed ;;
  try_except (store_each (py "\Seen") email_ids ;; ret true) (ret false).

(** [EmailReader.delete] *)
Definition delete (email_ids : list str) : io bool :=
  connect_if_needed ;;
  try_except
    (store_each (py "\Deleted") email_ids ;; perform expunge ;; ret true)
    (ret false).

(** [EmailClient.mark_as_read] *)
Definition client_mark_as_read (email_ids : list str) : io bool :=
  try_finally (mark_as_read email_ids) disconnect.

(** [EmailClient.delete] *)
Definition client_delete (email_ids : list str) : io bool :=
  delete email_ids.

(** The calls that store [flags] on the messages [email_ids], all of which
    returned. *)
Definition stored (flags : str) (email_ids : list str)
    (made : list (call * bool)) : Prop :=
  Forall2 (fun email_id c =>
             exists message_set,
               utf8_encode email_id = OK message_set
               /\ c = (store message_set (py "+FLAGS") flags, true))
    email_ids made.

Definition is_store (flags : str) (c : call * bool) : Prop :=
  exists message_set, c.1 = store message_set (py "+FLAGS") flags.

(** The calls of a loop that stops at one of the ids: the stores of the
    ids before it, which returned, and then either nothing, when the id
    cannot be encoded, or the store of the id, which raised. *)
Definition stopped (flags : str) (email_ids : list str)
    (made : list (call * bool)) : Prop :=
  exists done email_id rest done_stores,
    email_ids = done ++ email_id :: rest
    /\ stored flags done done_stores
    /\ ((exists e, utf8_encode email_id = Raise e) /\ made = done_stores
        \/ exists message_set,
             utf8_encode email_id = OK message_set
             /\ made = done_stores
                       ++ [(store message_set (py "+FLAGS") flags, false)]).

(** The methods a caller may run on a client, one after the other,
    whatever each one returns or raises. *)
Inductive method :=
  | MarkAsRead (email_ids : list str)
  | Delete (email_ids : list str)
  | ClientMarkAsRead (email_ids : list str)
  | ClientDelete (email_ids : list str)
  | Disconnect.

Definition run (m : method) (r : reader) : reader :=
  match m with
  | MarkAsRead email_ids => (mark_as_read email_ids r).1
  | Delete email_ids => (delete email_ids r).1
  | ClientMarkAsRead email_ids => (client_mark_as_read email_ids r).1
  | ClientDelete email_ids => (client_delete email_ids r).1
  | Disconnect => (disconnect r).1
  end.

Definition run_all (ms : list method) (r : reader) : reader :=
  fold_left (fun r m => run m r) ms r.

End Session.

(** The connections opened: the calls of [IMAP4_SSL] that returned. *)
Definition opened (c : call * bool) : bool :=
  match c with
  | (IMAP4_SSL _ _, true) => true
  | _ => false
  end.

Definition connections (made : list (call * bool)) : nat :=
  length (List.filter opened made).

(** The reader of a new client. *)
Definition new_reader : reader := {| imap := false; calls := [] |}.

(** The connections opened, plus one while [self.imap] is not set: no
    method makes it grow. *)
Definition budget (r : reader) : nat :=
  (connections (calls r) + (if imap r then 0 else 1))%nat.

Definition thrifty {A} (m : io A) : Prop :=
  forall r, (budget (m r).1 <= budget r)%nat.

(** A connection that is lost after [n] calls. *)
Definition lost_after (n : nat) (made : list (call * bool)) (_ : call) : bool :=
  (length made <? n)%nat.

Definition connected : reader := {| imap := true; calls := [] |}.

Definition sample_config : Env.EmailConfig :=
  {| Env.provider := py "gmail"; Env.account := py "ann@example.org";
     Env.password := py "secret"; Env.from_name := py "Ann";
     Env.smtp_host := py "smtp.gmail.com"; Env.smtp_port := 587;
     Env.smtp_use_tls := true; Env.smtp_use_ssl := false;
     Env.imap_host := py "imap.gmail.com"; Env.imap_port := 993;
     Env.from_address := py "ann@example.org" |}.

End Imap.

(** * Properties *)

(** ** The error monad and the loops *)

Lemma bind_OK {A B} (r : result A) (k : A -> result B) (b : B) :
  bind r k = OK b -> exists a, r = OK a /\ k a = OK b.
Proof. destruct r as [a|e]; simpl; [eauto | discriminate]. Qed.

Lemma for_each_app {S X} (body : S -> X -> result S) (xs ys : list X) (st : S) :
  for_each body (xs ++ ys) st =
  let* st' := for_each body xs st in for_each body ys st'.
Proof.
  revert st. induction xs as [|x xs IH]; intros st; simpl; [reflexivity|].
  destruct (body st x); simpl; auto.
Qed.

(** ** UTF-8 with [errors='ignore'] *)

Ltac split_decoder :=
  repeat match goal with
    | |- context [if ?c then _ else _] => destruct c
    | |- context [match ?l with [] => _ | _ :: _ => _ end] => destruct l
    end.

Lemma utf8_decode_ignore_bounded (n : nat) (b : bytes) :
  (length b <= n)%nat -> returns (utf8_decode Ignore b).
Proof.
  revert b. induction n as [|n IH]; intros b Hlen.
  - destruct b; [exists []; reflexivity | simpl in Hlen; lia].
  - destruct b as [|b0 r0]; [exists []; reflexivity|].
    simpl in Hlen.
    assert (Hk : forall r : bytes, (length r <= n)%nat ->
              forall c, returns (emit c (utf8_decode Ignore r))).
    { intros r Hr c. destruct (IH r Hr) as [t Ht]. unfold emit. rewrite Ht.
      eexists; reflexivity. }
    cbn [utf8_decode]. cbv zeta. unfold on_error.
    split_decoder;
      solve [ eexists; reflexivity
            | apply IH; simpl in *; lia
            | apply Hk; simpl in *; lia ].
Qed.

(** Decoding with ['ignore'] always returns. *)
Lemma utf8_decode_ignore_returns (b : bytes) : returns (utf8_decode Ignore b).
Proof. exact (utf8_decode_ignore_bounded (length b) b (le_n _)). Qed.

(** ** The body *)

Lemma truthy_nonempty (s : str) : truthy s = true <-> s <> [].
Proof. destruct s; simpl; split; congruence. Qed.

Lemma payload_text_leaf (part : Message) :
  is_multipart part = false -> returns (payload_text part).
Proof.
  destruct part; simpl; [intros _ | discriminate].
  apply utf8_decode_ignore_returns.
Qed.

Lemma capture_step_returns (st : str * str) (q : Message) :
  (body_part (py "text/plain") q || body_part (py "text/html") q = true ->
   is_multipart q = false) ->
  returns (capture_step st q).
Proof.
  intros Hleaf. destruct st as [plain html].
  unfold capture_step, body_part in *.
  destruct (negb _); simpl in *; [|eexists; reflexivity].
  destruct (str_eqb _ (py "text/plain")); simpl in *.
  - destruct (payload_text_leaf q (Hleaf eq_refl)) as [t ->].
    eexists; reflexivity.
  - destruct (str_eqb _ (py "text/html")); simpl in *.
    + destruct (payload_text_leaf q (Hleaf eq_refl)) as [t ->].
      eexists; reflexivity.
    + eexists; reflexivity.
Qed.

Lemma capture_step_other (ct : str) (st st' : str * str) (q : Message) :
  text_type ct -> body_part ct q = false ->
  capture_step st q = OK st' -> captured ct st' = captured ct st.
Proof.
  intros Hct Hq. destruct st as [plain html].
  unfold capture_step, body_part, captured in *.
  destruct (negb _); simpl in *; [|intros [= <-]; reflexivity].
  destruct Hct as [-> | ->]; simpl in *.
  - rewrite Hq. destruct (str_eqb _ (py "text/html")).
    + intros H. apply bind_OK in H as (t & _ & H).
      injection H as <-. reflexivity.
    + intros [= <-]; reflexivity.
  - rewrite Hq. destruct (str_eqb _ (py "text/plain")).
    + intros H. apply bind_OK in H as (t & _ & H).
      injection H as <-. reflexivity.
    + intros [= <-]; reflexivity.
Qed.

Lemma capture_step_hit (ct : str) (st : str * str) (p : Message) :
  text_type ct -> body_part ct p = true -> is_multipart p = false ->
  exists t st', payload_text p = OK t /\ capture_step st p = OK st'
                /\ captured ct st' = t.
Proof.
  intros Hct Hp Hleaf. destruct st as [plain html].
  destruct (payload_text_leaf p Hleaf) as [t Ht].
  unfold capture_step, body_part, captured in *.
  apply andb_true_iff in Hp as [Hdisp Htype]. rewrite Hdisp.
  apply bool_decide_eq_true in Htype.
  exists t. destruct Hct as [-> | ->]; rewrite Htype, Ht; simpl;
    eexists; split; try reflexivity; split; reflexivity.
Qed.

Lemma loop_returns (parts : list Message) (st : str * str) :
  (forall q, q ∈ parts ->
     body_part (py "text/plain") q || body_part (py "text/html") q = true ->
     is_multipart q = false) ->
  returns (for_each capture_step parts st).
Proof.
  revert st. induction parts as [|q parts IH]; intros st Hleaf; simpl.
  - eexists; reflexivity.
  - destruct (capture_step_returns st q) as [st' ->].
    { apply Hleaf. left. }
    simpl. apply IH. intros q' Hq'. apply Hleaf. by right.
Qed.

Lemma loop_keeps (ct : str) (parts : list Message) (st st' : str * str) :
  text_type ct ->
  (forall q, q ∈ parts -> body_part ct q = false) ->
  for_each capture_step parts st = OK st' ->
  captured ct st' = captured ct st.
Proof.
  intros Hct. revert st. induction parts as [|q parts IH]; intros st Hno; simpl.
  - congruence.
  - intros H. apply bind_OK in H as (st1 & Hstep & Hrest).
    rewrite (IH st1); [|intros q' Hq'; apply Hno; by right|exact Hrest].
    eapply capture_step_other; eauto. apply Hno. left.
Qed.

(** The loop leaves in each variable the text of the last part of its
    type. *)
Lemma loop_last_wins (ct : str) (before after : list Message) (p : Message)
    (st : str * str) :
  text_type ct ->
  (forall q, q ∈ before ++ p :: after ->
     body_part (py "text/plain") q || body_part (py "text/html") q = true ->
     is_multipart q = false) ->
  body_part ct p = true ->
  (forall q, q ∈ after -> body_part ct q = false) ->
  exists t st', payload_text p = OK t
    /\ for_each capture_step (before ++ p :: after) st = OK st'
    /\ captured ct st' = t.
Proof.
  intros Hct Hleaf Hp Hafter.
  assert (Hpleaf : is_multipart p = false).
  { apply Hleaf; [set_solver|]. destruct Hct as [-> | ->]; rewrite Hp;
      [reflexivity | apply orb_true_r]. }
  destruct (loop_returns before st) as [st0 H0].
  { intros q Hq. apply Hleaf. set_solver. }
  destruct (capture_step_hit ct st0 p Hct Hp Hpleaf) as (t & st1 & Ht & H1 & Hc).
  destruct (loop_returns after st1) as [st2 H2].
  { intros q Hq. apply Hleaf. set_solver. }
  exists t, st2. split; [exact Ht|]. split.
  - rewrite for_each_app, H0. simpl. rewrite H1. simpl. exact H2.
  - rewrite (loop_keeps ct after st1 st2 Hct Hafter H2). exact Hc.
Qed.

Lemma text_parts_are_leaves_elim (msg q : Message) :
  text_parts_are_leaves msg = true -> q ∈ walk msg ->
  body_part (py "text/plain") q || body_part (py "text/html") q = true ->
  is_multipart q = false.
Proof.
  unfold text_parts_are_leaves. rewrite forallb_forall.
  intros H Hq Hb. apply list_elem_of_In in Hq. specialize (H q Hq).
  rewrite Hb in H. simpl in H. by apply negb_true_iff.
Qed.

(** C1, as amended: in the traversal of a multipart tree the last
    text/plain part that is not marked as an attachment is captured as the
    plain body and the last such text/html part as the HTML body: a later
    part of a type overwrites the earlier capture of that type. *)
Theorem last_text_part_wins (msg : Message) (ct : str)
    (before after : list Message) (p : Message) :
  is_multipart msg = true ->
  text_type ct ->
  text_parts_are_leaves msg = true ->
  walk msg = before ++ p :: after ->
  body_part ct p = true ->
  (forall q, q ∈ after -> body_part ct q = false) ->
  exists t st, payload_text p = OK t /\ captured_bodies msg = OK st
               /\ captured ct st = t.
Proof.
  intros Hmulti Hct Hwf Hwalk Hp Hafter.
  unfold captured_bodies. rewrite Hmulti, Hwalk.
  apply loop_last_wins; auto.
  intros q Hq. rewrite <- Hwalk in Hq.
  by apply (text_parts_are_leaves_elim msg).
Qed.

Lemma last_text_part_wins_witness :
  exists t st, payload_text (text_leaf "text/plain" "second") = OK t
    /\ captured_bodies two_plain_parts = OK st
    /\ captured (py "text/plain") st = t.
Proof.
  apply (last_text_part_wins two_plain_parts (py "text/plain")
           [two_plain_parts; text_leaf "text/plain" "first"] []
           (text_leaf "text/plain" "second")).
  - reflexivity.
  - left; reflexivity.
  - vm_compute; reflexivity.
  - reflexivity.
  - vm_compute; reflexivity.
  - intros q Hq. inversion Hq.
Defined.

(** C1, as stated, fails: with two text/plain parts the second one is the
    plain body, not the first. *)
Lemma first_text_part_overwritten :
  ~ (forall msg p st,
       is_multipart msg = true ->
       List.find (body_part (py "text/plain")) (walk msg) = Some p ->
       captured_bodies msg = OK st ->
       payload_text p = OK st.1).
Proof.
  intros H.
  specialize (H two_plain_parts (text_leaf "text/plain" "first")
                (py "second", []) eq_refl eq_refl eq_refl).
  vm_compute in H. discriminate H.
Qed.

Lemma choose_body_policy (prefer_html : bool) (plain_body html_body : str) :
  choose_body prefer_html plain_body html_body =
  resolution_policy prefer_html plain_body html_body.
Proof.
  unfold choose_body, resolution_policy.
  destruct prefer_html, html_body, plain_body; reflexivity.
Qed.

Lemma body_of_captured (msg : Message) (prefer_html : bool)
    (plain_body html_body : str) :
  captured_bodies msg = OK (plain_body, html_body) ->
  _get_email_body msg prefer_html =
  OK (choose_body prefer_html plain_body html_body).
Proof. intros H. unfold _get_email_body. rewrite H. reflexivity. Qed.

Lemma choose_body_nonempty (prefer_html : bool) (plain_body html_body : str) :
  plain_body <> [] \/ html_body <> [] ->
  choose_body prefer_html plain_body html_body <> [].
Proof.
  intros Hne. unfold choose_body.
  destruct prefer_html, html_body, plain_body; simpl; destruct Hne; congruence.
Qed.

Lemma captured_nonempty (ct : str) (st : str * str) :
  captured ct st <> [] -> st.1 <> [] \/ st.2 <> [].
Proof. unfold captured. destruct (str_eqb _ _); auto. Qed.

(** C2, as amended: when the last text/plain part that is not marked as an
    attachment, or the last such text/html part, has a text that is not
    empty, the body returned is not empty, whatever the preference. For a
    message that is not multipart the part is the message itself. *)
Theorem nonempty_text_part_gives_body (msg : Message) (ct : str)
    (before after : list Message) (p : Message) (text : str)
    (prefer_html : bool) :
  text_type ct ->
  text_parts_are_leaves msg = true ->
  walk msg = before ++ p :: after ->
  body_part ct p = true ->
  (forall q, q ∈ after -> body_part ct q = false) ->
  payload_text p = OK text ->
  text <> [] ->
  exists body, _get_email_body msg prefer_html = OK body /\ body <> [].
Proof.
  intros Hct Hwf Hwalk Hp Hafter Htext Hne.
  assert (Hcap : exists st, captured_bodies msg = OK st
                            /\ (st.1 <> [] \/ st.2 <> [])).
  { unfold captured_bodies. destruct msg as [i payload|i parts].
    - cbn [is_multipart]. destruct before as [|q before]; simpl in Hwalk.
      + injection Hwalk as <- _. rewrite Htext. simpl.
        destruct (str_eqb _ _); eexists; (split; [reflexivity|]); simpl; auto.
      + injection Hwalk as _ Hwalk. by destruct before.
    - cbn [is_multipart]. rewrite Hwalk.
      destruct (loop_last_wins ct before after p ([], []) Hct)
        as (t & st & Ht & Hloop & Hc); [|exact Hp|exact Hafter|].
      { intros q Hq. rewrite <- Hwalk in Hq.
        by apply (text_parts_are_leaves_elim (Multipart i parts)). }
      exists st. split; [exact Hloop|].
      apply (captured_nonempty ct). congruence. }
  destruct Hcap as ([plain_body html_body] & Hcap & Hst).
  rewrite (body_of_captured _ _ _ _ Hcap).
  eexists; split; [reflexivity|]. by apply choose_body_nonempty.
Qed.

Lemma nonempty_text_part_gives_body_witness :
  exists body, _get_email_body plain_and_html true = OK body /\ body <> [].
Proof.
  apply (nonempty_text_part_gives_body plain_and_html (py "text/plain")
           [plain_and_html] [text_leaf "text/html" "<p>hello</p>"]
           (text_leaf "text/plain" "hello") (py "hello") true).
  - left; reflexivity.
  - vm_compute; reflexivity.
  - reflexivity.
  - vm_compute; reflexivity.
  - intros q Hq. apply list_elem_of_singleton in Hq as ->.
    vm_compute; reflexivity.
  - vm_compute; reflexivity.
  - vm_compute; discriminate.
Defined.

(** C2, as stated, fails: a text/plain part with an empty payload gives an
    empty body. *)
Lemma text_part_with_empty_body :
  ~ (forall msg prefer_html,
       (exists p, p ∈ walk msg /\
          (get_content_type (info_of p) = py "text/plain" \/
           get_content_type (info_of p) = py "text/html")) ->
       exists body, _get_email_body msg prefer_html = OK body /\ body <> []).
Proof.
  intros H. destruct (H empty_plain false) as (body & Hbody & Hne).
  - exists empty_plain. split; [left | left; reflexivity].
  - vm_compute in Hbody. injection Hbody as <-. by apply Hne.
Qed.

(** C7: the body returned is the one the resolution policy names: the HTML
    body when it is preferred and not empty, else the plain body when not
    empty, else the HTML body, else the empty string. So with the
    preference the HTML body is returned whenever there is one, and
    without it the plain body whenever there is one. *)
Theorem body_resolution (msg : Message) (prefer_html : bool)
    (plain_body html_body : str) :
  captured_bodies msg = OK (plain_body, html_body) ->
  _get_email_body msg prefer_html =
    OK (resolution_policy prefer_html plain_body html_body)
  /\ (html_body <> [] -> _get_email_body msg true = OK html_body)
  /\ (plain_body <> [] -> _get_email_body msg false = OK plain_body).
Proof.
  intros Hcap. rewrite !(body_of_captured _ _ _ _ Hcap).
  rewrite choose_body_policy. split; [reflexivity|]. split.
  - intros Hne. destruct html_body; [congruence | reflexivity].
  - intros Hne. destruct plain_body; [congruence | reflexivity].
Qed.

Lemma body_resolution_witness :
  _get_email_body plain_and_html true =
    OK (resolution_policy true (py "hello") (py "<p>hello</p>"))
  /\ (py "<p>hello</p>" <> [] ->
      _get_email_body plain_and_html true = OK (py "<p>hello</p>"))
  /\ (py "hello" <> [] ->
      _get_email_body plain_and_html false = OK (py "hello")).
Proof.
  apply (body_resolution plain_and_html true (py "hello") (py "<p>hello</p>")).
  vm_compute; reflexivity.
Defined.

(** ** Removing the duplicates *)

Lemma unique_state_snoc (l : list str) (z : str) :
  unique_state (l ++ [z]) = unique_step (unique_state l) z.
Proof. unfold unique_state. by rewrite fold_left_app. Qed.

(** [seen] and [unique_links] hold the links met so far. *)
Lemma unique_state_invariant (l : list str) :
  (forall x, x ∈ (unique_state l).1 <-> x ∈ l) /\
  (forall x, x ∈ (unique_state l).2 <-> x ∈ l) /\
  NoDup (unique_state l).2.
Proof.
  induction l as [|z l IH] using rev_ind.
  - unfold unique_state; simpl. split; [|split]; [set_solver..|constructor].
  - destruct IH as (Hseen & Hu & Hnd). rewrite unique_state_snoc.
    destruct (unique_state l) as [seen u]; simpl in *.
    unfold unique_step. case_bool_decide as Hz; simpl.
    + split; [|split]; [| |done]; intros x; rewrite ?Hseen, ?Hu; set_solver.
    + split; [|split].
      * intros x. rewrite elem_of_union, elem_of_singleton, Hseen. set_solver.
      * intros x. rewrite !elem_of_app, Hu. set_solver.
      * apply NoDup_app. split; [done|]. split; [|apply NoDup_singleton].
        intros x Hx. rewrite Hu, <- Hseen in Hx. set_solver.
Qed.

Lemma unique_snoc (l : list str) (z : str) :
  unique (l ++ [z]) = if bool_decide (z ∈ l) then unique l else unique l ++ [z].
Proof.
  unfold unique. fold (unique_state (l ++ [z])). fold (unique_state l).
  rewrite unique_state_snoc.
  destruct (unique_state_invariant l) as (Hseen & _ & _).
  destruct (unique_state l) as [seen u]; simpl in *.
  unfold unique_step. rewrite (bool_decide_ext _ _ (Hseen z)).
  by case_bool_decide.
Qed.

Lemma elem_of_unique (l : list str) (x : str) : x ∈ unique l <-> x ∈ l.
Proof. apply (unique_state_invariant l). Qed.

Lemma NoDup_unique (l : list str) : NoDup (unique l).
Proof. apply (unique_state_invariant l). Qed.

(** A link that comes before another one in the result was met before the
    other one was met for the first time. *)
Lemma unique_first_seen_order (l : list str) (i j : nat) (x y : str) :
  unique l !! i = Some x -> unique l !! j = Some y -> (i < j)%nat ->
  exists a, l !! a = Some x /\ forall b, l !! b = Some y -> (a < b)%nat.
Proof.
  revert i j x y. induction l as [|z l IH] using rev_ind; intros i j x y.
  - unfold unique; simpl. by rewrite lookup_nil.
  - rewrite unique_snoc. case_bool_decide as Hz.
    + intros Hi Hj Hij. destruct (IH i j x y Hi Hj Hij) as (a & Ha & Hb).
      exists a. split; [by apply lookup_app_l_Some|].
      intros b Hyb. apply lookup_lt_Some in Ha as Hlt.
      destruct (decide (b < length l)%nat) as [Hbl|Hbl]; [|lia].
      apply Hb. by rewrite lookup_app_l in Hyb.
    + intros Hi Hj Hij.
      assert (Hil : (i < length (unique l))%nat).
      { apply lookup_lt_Some in Hj. rewrite length_app in Hj. simpl in Hj. lia. }
      rewrite lookup_app_l in Hi by done.
      destruct (decide (j < length (unique l))%nat) as [Hjl|Hjl].
      * rewrite lookup_app_l in Hj by done.
        destruct (IH i j x y Hi Hj Hij) as (a & Ha & Hb).
        exists a. split; [by apply lookup_app_l_Some|].
        intros b Hyb. apply lookup_lt_Some in Ha as Hlt.
        destruct (decide (b < length l)%nat) as [Hbl|Hbl]; [|lia].
        apply Hb. by rewrite lookup_app_l in Hyb.
      * rewrite lookup_app_r in Hj by lia.
        apply list_lookup_singleton_Some in Hj as [_ <-].
        assert (Hx : x ∈ l).
        { apply elem_of_unique. by eapply list_elem_of_lookup_2. }
        apply list_elem_of_lookup_1 in Hx as [a Ha].
        exists a. split; [by apply lookup_app_l_Some|].
        intros b Hzb. apply lookup_lt_Some in Ha as Hlt.
        destruct (decide (b < length l)%nat) as [Hbl|Hbl]; [|lia].
        rewrite lookup_app_l in Hzb by done.
        exfalso. apply Hz. by eapply list_elem_of_lookup_2.
Qed.

(** ** The unsubscribe links *)

Lemma unique_drop_seen (a b : list str) (x : str) :
  x ∈ a -> unique (a ++ x :: b) = unique (a ++ b).
Proof.
  intros Hx. induction b as [|y b IH] using rev_ind.
  - rewrite app_nil_r, unique_snoc. by rewrite bool_decide_eq_true_2.
  - change (a ++ x :: b ++ [y]) with (a ++ (x :: b) ++ [y]).
    rewrite !app_assoc, !unique_snoc, IH.
    rewrite (bool_decide_ext (y ∈ a ++ x :: b) (y ∈ a ++ b)); [reflexivity|].
    set_solver.
Qed.

(** The loops that add a link when it starts with [http] and is not in
    the list yet give, once the duplicates are removed, what the list
    followed by all the links that start with [http] gives. *)
Lemma unique_append_new (xs acc : list str) :
  unique (fold_left append_new xs acc)
  = unique (acc ++ List.filter (startswith (py "http")) xs).
Proof.
  revert acc. induction xs as [|x xs IH]; intros acc;
    cbn [fold_left List.filter].
  - by rewrite app_nil_r.
  - rewrite IH. unfold append_new.
    destruct (startswith (py "http") x); cbn [andb]; [|reflexivity].
    case_bool_decide as Hin; cbn [negb].
    + by rewrite unique_drop_seen.
    + by rewrite <- app_assoc.
Qed.

Lemma anchor_links_candidates (body : str) (links : list str) :
  anchor_links body links = fold_left append_new (anchor_candidates body) links.
Proof.
  unfold anchor_links, anchor_candidates. rewrite !fold_left_app.
  do 2 f_equal. generalize (finditer true link_pattern body).
  intros ms. revert links.
  induction ms as [|m ms IH]; intros links; [reflexivity|].
  cbn [fold_left List.filter]. rewrite IH.
  by destruct (search true link_text_pattern (group 2 m)).
Qed.

Lemma pattern_links_candidates (body : str) (links : list str) :
  pattern_links body links
  = fold_left append_new (pattern_candidates body) links.
Proof.
  unfold pattern_links, pattern_candidates. revert links.
  generalize unsubscribe_patterns. intros patterns.
  induction patterns as [|pattern patterns IH]; intros links;
    [reflexivity|].
  cbn [fold_left flat_map]. rewrite fold_left_app, IH. f_equal.
  generalize (findall true pattern 0 body). intros ms. revert links.
  induction ms as [|m ms IHm]; intros links; [reflexivity|].
  cbn [fold_left List.map]. apply IHm.
Qed.

Lemma scan_body_candidates (prefer_html : bool) (body : str)
    (links : list str) :
  scan_body prefer_html body links
  = fold_left append_new (body_candidates prefer_html body) links.
Proof.
  unfold scan_body, body_candidates.
  destruct (truthy body); [|reflexivity].
  rewrite fold_left_app, pattern_links_candidates.
  destruct prefer_html; [by rewrite anchor_links_candidates | reflexivity].
Qed.

(** What [collected_links] returns: the header must be a [str], the two
    bodies must be returned, and the loops run on the links of the
    header. *)
Lemma collected_links_OK (msg : Message) (collected : list str) :
  collected_links msg = OK collected ->
  exists list_unsubscribe html_pass plain_pass,
    get_or_empty msg (py "List-Unsubscribe") = Str list_unsubscribe /\
    _get_email_body msg true = OK html_pass /\
    _get_email_body msg false = OK plain_pass /\
    collected
    = scan_body false plain_pass
        (scan_body true html_pass (header_links list_unsubscribe)).
Proof.
  unfold collected_links. intros H.
  apply bind_OK in H as (from_header & Hh & H).
  destruct (get_or_empty msg (py "List-Unsubscribe")) as [value|value];
    [|discriminate].
  injection Hh as <-. cbn [for_each] in H.
  apply bind_OK in H as (l1 & H1 & H).
  apply bind_OK in H1 as (html_pass & Hhtml & H1). injection H1 as <-.
  apply bind_OK in H as (l2 & H2 & H). injection H as <-.
  apply bind_OK in H2 as (plain_pass & Hplain & H2). injection H2 as <-.
  by exists value, html_pass, plain_pass.
Qed.

Lemma unique_collected (list_unsubscribe html_pass plain_pass : str) :
  unique (scan_body false plain_pass
            (scan_body true html_pass (header_links list_unsubscribe)))
  = unique (links_in_order list_unsubscribe html_pass plain_pass).
Proof.
  rewrite !scan_body_candidates, <- fold_left_app, unique_append_new.
  reflexivity.
Qed.

(** C3: when links are returned, no string is twice among them, they are
    the links the rules find (the header, then on the HTML pass the anchor
    text, the proximity and the URL patterns, then the URL patterns on the
    plain pass; body links only when they start with http), and they are
    in first-seen order over all the rules: a link that comes before
    another one in the result is found before the other one is found for
    the first time. *)
Theorem unsubscribe_links_unique (msg : Message) (links : list str) :
  _get_unsubscribe_links msg = OK links ->
  exists list_unsubscribe html_pass plain_pass,
    get_or_empty msg (py "List-Unsubscribe") = Str list_unsubscribe /\
    _get_email_body msg true = OK html_pass /\
    _get_email_body msg false = OK plain_pass /\
    let found := links_in_order list_unsubscribe html_pass plain_pass in
    NoDup links /\
    (forall x, x ∈ links <-> x ∈ found) /\
    first_seen_order found links.
Proof.
  unfold _get_unsubscribe_links. intros H.
  apply bind_OK in H as (collected & Hc & H). injection H as <-.
  apply collected_links_OK in Hc
    as (list_unsubscribe & html_pass & plain_pass & Hh & Hhtml & Hplain & ->).
  exists list_unsubscribe, html_pass, plain_pass.
  repeat (split; [assumption|]). cbv zeta. rewrite unique_collected.
  split; [apply NoDup_unique|]. split; [apply elem_of_unique|].
  intros i j x y. apply unique_first_seen_order.
Qed.

Lemma unsubscribe_links_unique_witness :
  let msg :=
    header_and_body "<https://x.test/unsubscribe>, <mailto:off@x.test>"
      "at https://y.test/unsubscribe or https://x.test/unsubscribe now" in
  let links :=
    [py "https://x.test/unsubscribe"; py "mailto:off@x.test";
     py "https://y.test/unsubscribe"] in
  exists list_unsubscribe html_pass plain_pass,
    get_or_empty msg (py "List-Unsubscribe") = Str list_unsubscribe /\
    _get_email_body msg true = OK html_pass /\
    _get_email_body msg false = OK plain_pass /\
    let found := links_in_order list_unsubscribe html_pass plain_pass in
    NoDup links /\
    (forall x, x ∈ links <-> x ∈ found) /\
    first_seen_order found links.
Proof.
  apply (unsubscribe_links_unique
           (header_and_body
              "<https://x.test/unsubscribe>, <mailto:off@x.test>"
              "at https://y.test/unsubscribe or https://x.test/unsubscribe now")).
  vm_compute; reflexivity.
Defined.

Lemma append_new_prefix (links : list str) (url : str) :
  links `prefix_of` append_new links url.
Proof.
  unfold append_new. destruct (_ && _); [by apply prefix_app_r | done].
Qed.

Lemma fold_left_prefix {X} (f : list str -> X -> list str) (xs : list X)
    (links : list str) :
  (forall acc x, acc `prefix_of` f acc x) ->
  links `prefix_of` fold_left f xs links.
Proof.
  intros Hf. revert links. induction xs as [|x xs IH]; intros links; simpl.
  - done.
  - etrans; [apply (Hf links x) | apply IH].
Qed.

Lemma anchor_links_prefix (body : str) (links : list str) :
  links `prefix_of` anchor_links body links.
Proof.
  unfold anchor_links.
  etrans; [|apply fold_left_prefix, append_new_prefix].
  etrans; [|apply fold_left_prefix, append_new_prefix].
  apply fold_left_prefix. intros acc m.
  destruct (search _ _ _); [apply append_new_prefix | done].
Qed.

Lemma pattern_links_prefix (body : str) (links : list str) :
  links `prefix_of` pattern_links body links.
Proof.
  unfold pattern_links. apply fold_left_prefix. intros acc pattern.
  apply fold_left_prefix. intros acc' m. apply append_new_prefix.
Qed.

(** A pass over a body only adds links at the end of the list. *)
Lemma scan_body_prefix (prefer_html : bool) (body : str) (links : list str) :
  links `prefix_of` scan_body prefer_html body links.
Proof.
  unfold scan_body. destruct (truthy body); [|done].
  etrans; [|apply pattern_links_prefix].
  destruct prefer_html; [apply anchor_links_prefix | done].
Qed.

Lemma collected_links_prefix (msg : Message) (collected : list str) :
  collected_links msg = OK collected ->
  exists list_unsubscribe,
    get_or_empty msg (py "List-Unsubscribe") = Str list_unsubscribe /\
    header_links list_unsubscribe `prefix_of` collected.
Proof.
  intros H.
  apply collected_links_OK in H as (h & html_pass & plain_pass & Hh & _ & _ & ->).
  exists h. split; [exact Hh|].
  etrans; [|apply scan_body_prefix]. apply scan_body_prefix.
Qed.

Lemma header_links_findall (h : str) :
  header_links h =
  findall false header_url_pattern 1 h
    ++ findall false header_mailto_pattern 1 h.
Proof. destruct h; reflexivity. Qed.

(** ** The patterns of the header on bracketed tokens *)

Section GreedyRun.
Context {A : Type}.
Implicit Type k : str -> captures -> option A.

Lemma matcher_lits (w s : str) (caps : captures) k :
  matcher false (seq (List.map Lit w)) s caps k =
  if startswith w s then k (drop (length w) s) caps else None.
Proof.
  revert s. induction w as [|p w IH]; intros s; simpl.
  - reflexivity.
  - destruct s as [|c s]; simpl; [reflexivity|].
    rewrite N.eqb_sym. destruct (p =? c); simpl; [apply IH | reflexivity].
Qed.

Lemma not_gt_match (c : codepoint) :
  set_match false true [ch ">"] c = negb (c =? 0x3E).
Proof. unfold set_match. simpl. by rewrite orb_false_r. Qed.

(** The greedy run over a token stops at the [>] that ends it. *)
Lemma star_until_gt (u rest : str) (caps : captures) k (fuel : nat) :
  forallb (fun c => negb (c =? 0x3E)) u = true ->
  wants_gt k ->
  (length u < fuel)%nat ->
  star_loop (matcher false not_gt) fuel (u ++ 0x3E :: rest) caps k
  = k (0x3E :: rest) caps.
Proof.
  intros Hu Hk. revert fuel. induction u as [|c u IH]; intros fuel Hf.
  - destruct fuel; [simpl in Hf; lia|].
    cbn [star_loop app]. unfold not_gt at 1. cbn [matcher].
    rewrite not_gt_match. rewrite N.eqb_refl. reflexivity.
  - destruct fuel; [simpl in Hf; lia|].
    simpl in Hu. apply andb_true_iff in Hu as [Hc Hu].
    cbn [star_loop app]. unfold not_gt at 1. cbn [matcher].
    rewrite not_gt_match, Hc.
    assert (Hlt : (length (u ++ 0x3E%N :: rest)
                     <? length (c :: u ++ 0x3E%N :: rest))%nat = true)
      by (apply Nat.ltb_lt; simpl; lia).
    rewrite Hlt, (IH Hu) by (simpl in Hf; lia).
    destruct (k (0x3E :: rest) caps) eqn:Hres; [reflexivity|].
    apply Hk. apply negb_true_iff, N.eqb_neq in Hc. exact Hc.
Qed.

Lemma plus_until_gt (u rest : str) (caps : captures) k :
  forallb (fun c => negb (c =? 0x3E)) u = true ->
  wants_gt k ->
  matcher false (Plus not_gt) (u ++ 0x3E :: rest) caps k
  = match u with [] => None | _ => k (0x3E :: rest) caps end.
Proof.
  intros Hu Hk. destruct u as [|c u].
  - unfold Plus. cbn [matcher app]. unfold not_gt at 1. cbn [matcher].
    rewrite not_gt_match. rewrite N.eqb_refl. reflexivity.
  - simpl in Hu. apply andb_true_iff in Hu as [Hc Hu].
    unfold Plus. cbn [matcher app]. unfold not_gt at 1. cbn [matcher].
    rewrite not_gt_match, Hc.
    fold not_gt. apply star_until_gt; [exact Hu | exact Hk |].
    rewrite length_app. lia.
Qed.

End GreedyRun.

Section Schemes.
Context {A : Type}.
Implicit Type k : str -> captures -> option A.

Lemma matcher_cat (r1 r2 : regex) (s : str) (caps : captures) k :
  matcher false (Cat r1 r2) s caps k
  = matcher false r1 s caps (fun s' caps' => matcher false r2 s' caps' k).
Proof. reflexivity. Qed.

Lemma startswith_app (a b s : str) :
  startswith (a ++ b) s = startswith a s && startswith b (drop (length a) s).
Proof.
  revert s. induction a as [|c a IH]; intros s; simpl; [reflexivity|].
  destruct s as [|d s]; simpl; [reflexivity|].
  rewrite IH. by rewrite andb_assoc.
Qed.

Lemma startswith_split (w t : str) :
  startswith w t = true -> t = w ++ drop (length w) t.
Proof.
  revert t. induction w as [|c w IH]; intros t; simpl; [reflexivity|].
  destruct t as [|d t]; [discriminate|]. intros H.
  apply andb_true_iff in H as [Hc Hw]. apply N.eqb_eq in Hc as ->.
  simpl. f_equal. by apply IH.
Qed.

(** A scheme without [>] starts a token followed by [>] only when it starts
    the token. *)
Lemma startswith_token (w t rest : str) :
  forallb (fun c => negb (c =? 0x3E)) w = true ->
  startswith w (t ++ 0x3E :: rest) = startswith w t.
Proof.
  revert t. induction w as [|c w IH]; intros t Hw; simpl; [reflexivity|].
  simpl in Hw. apply andb_true_iff in Hw as [Hc Hw].
  destruct t as [|d t]; simpl.
  - apply negb_true_iff in Hc. by rewrite Hc.
  - by rewrite IH.
Qed.

Lemma scheme_then_run (scheme t rest : str) (caps : captures) k :
  forallb (fun c => negb (c =? 0x3E)) scheme = true ->
  forallb (fun c => negb (c =? 0x3E)) t = true ->
  wants_gt k ->
  matcher false (Cat (seq (List.map Lit scheme)) (Cat (Plus not_gt) Eps))
    (t ++ 0x3E :: rest) caps k
  = if scheme_token scheme t then k (0x3E :: rest) caps else None.
Proof.
  intros Hs Ht Hk. rewrite matcher_cat, matcher_lits.
  rewrite startswith_token by done. unfold scheme_token.
  destruct (startswith scheme t) eqn:Hst; [|reflexivity].
  rewrite andb_true_l. cbv beta iota.
  apply startswith_split in Hst. set (u := drop (length scheme) t) in *.
  assert (Hu : forallb (fun c => negb (c =? 0x3E)) u = true).
  { rewrite Hst, forallb_app in Ht. by apply andb_true_iff in Ht as [_ ?]. }
  rewrite Hst at 1. rewrite <- app_assoc, drop_app_length.
  rewrite matcher_cat, plus_until_gt; [|done|exact Hk].
  rewrite Hst, length_app. cbn [matcher].
  destruct u; simpl.
  - rewrite Nat.add_0_r, Nat.ltb_irrefl. reflexivity.
  - assert (H : (length scheme <? length scheme + S (length u))%nat = true)
      by (apply Nat.ltb_lt; lia).
    by rewrite H.
Qed.
End Schemes.

Section Groups.
Context {A : Type}.
Implicit Type k : str -> captures -> option A.

Lemma matcher_group (n : nat) (r : regex) (s : str) (caps : captures) k :
  matcher false (Group n r) s caps k
  = matcher false r s caps (fun s' caps' =>
      k s' ((n, take (length s - length s')%nat s) :: caps')).
Proof. reflexivity. Qed.

Lemma matcher_opt (r r2 : regex) (s : str) (caps : captures) k :
  matcher false (Cat (Opt r) r2) s caps k
  = match matcher false (Cat r r2) s caps k with
    | Some x => Some x
    | None => matcher false r2 s caps k
    end.
Proof. reflexivity. Qed.

(** Two runs of literals are the run of their concatenation. *)
Lemma matcher_lits_app (a b : str) (r : regex) (s : str) (caps : captures) k :
  matcher false (Cat (seq (List.map Lit a)) (Cat (seq (List.map Lit b)) r))
    s caps k
  = matcher false (Cat (seq (List.map Lit (a ++ b))) r) s caps k.
Proof.
  rewrite (matcher_cat (seq (List.map Lit a))), matcher_lits.
  rewrite (matcher_cat (seq (List.map Lit (a ++ b)))), matcher_lits.
  rewrite startswith_app.
  destruct (startswith a s); [|reflexivity].
  rewrite andb_true_l. cbv beta.
  rewrite matcher_cat, matcher_lits, length_app, drop_drop. reflexivity.
Qed.

Lemma wants_gt_group (n : nat) (s : str) k :
  wants_gt k ->
  wants_gt (fun s' caps' =>
    k s' ((n, take (length s - length s')%nat s) :: caps')).
Proof. intros Hk s' caps' Hs'. by apply Hk. Qed.

Lemma take_token (t rest : str) :
  take (length (t ++ 0x3E%N :: rest) - length (0x3E%N :: rest))%nat
       (t ++ 0x3E :: rest) = t.
Proof.
  assert (E : (length (t ++ 0x3E%N :: rest) - length (0x3E%N :: rest))%nat
              = length t) by (rewrite length_app; cbn [length]; unfold str, codepoint; lia).
  rewrite E. apply take_app_length.
Qed.

Lemma group_scheme (scheme t rest : str) (caps : captures) k :
  forallb (fun c => negb (c =? 0x3E)) scheme = true ->
  forallb (fun c => negb (c =? 0x3E)) t = true ->
  wants_gt k ->
  matcher false
    (Group 1 (Cat (seq (List.map Lit scheme)) (Cat (Plus not_gt) Eps)))
    (t ++ 0x3E :: rest) caps k
  = if scheme_token scheme t then k (0x3E :: rest) ((1%nat, t) :: caps)
    else None.
Proof.
  intros Hs Ht Hk. rewrite matcher_group.
  rewrite scheme_then_run by (done || by apply wants_gt_group).
  by rewrite take_token.
Qed.

End Groups.

Lemma wants_gt_close (s : str) :
  wants_gt (fun s' caps' =>
    matcher false (Cat (seq (List.map Lit (py ">"))) Eps) s' caps' (final s)).
Proof.
  intros s' caps' Hs'. rewrite matcher_cat, matcher_lits.
  destruct s' as [|c s']; [reflexivity|].
  change (startswith (py ">") (c :: s')) with ((0x3E =? c) && true).
  destruct (N.eqb_spec 0x3E c) as [<-|]; [done | reflexivity].
Qed.

Lemma bracket_app (t rest : str) :
  bracket t ++ rest = 0x3C :: (t ++ 0x3E :: rest).
Proof. unfold bracket. simpl. by rewrite <- app_assoc. Qed.

Lemma take_bracket (t rest : str) :
  take (length (0x3C%N :: (t ++ 0x3E%N :: rest)) - length rest)%nat
       (0x3C :: (t ++ 0x3E :: rest)) = bracket t.
Proof.
  assert (E : (length (0x3C%N :: (t ++ 0x3E%N :: rest)) - length rest)%nat
              = length (bracket t)).
  { unfold bracket. change (py "<") with [0x3C]. change (py ">") with [0x3E].
    cbn [length app]. rewrite !length_app. cbn [length].
    unfold str, codepoint. lia. }
  rewrite E, <- bracket_app. apply take_app_length.
Qed.

(** A bracketed token against a pattern [<(...)>] whose group matches the
    tokens [token] accepts. *)
Lemma match_here_bracket (body : regex) (token : str -> bool) (t rest : str) :
  (forall k : str -> captures -> option (match_ * str), wants_gt k ->
     matcher false (Group 1 body) (t ++ 0x3E :: rest) [] k
     = if token t then k (0x3E :: rest) [(1%nat, t)] else None) ->
  match_here false
    (Cat (seq (List.map Lit (py "<")))
       (Cat (Group 1 body) (Cat (seq (List.map Lit (py ">"))) Eps)))
    (bracket t ++ rest)
  = if token t
    then Some ({| whole := bracket t; groups := [(1%nat, t)] |}, rest)
    else None.
Proof.
  intros Hbody. unfold match_here. rewrite bracket_app.
  set (s := 0x3C :: (t ++ 0x3E :: rest)).
  change (matcher false ?r s [] ?k) with (matcher false r s [] (final s)).
  rewrite matcher_cat, matcher_lits.
  change (startswith (py "<") s) with true.
  change (drop (length (py "<")) s) with (t ++ 0x3E :: rest).
  cbv beta iota. rewrite matcher_cat, Hbody by apply wants_gt_close.
  destruct (token t); [|reflexivity].
  rewrite matcher_cat, matcher_lits.
  change (startswith (py ">") (0x3E :: rest)) with true.
  cbv beta iota.
  change (matcher false Eps ?a ?b ?k) with (k a b).
  change (drop (length (py ">")) (0x3E :: rest)) with rest.
  unfold final, s. by rewrite take_bracket.
Qed.

Lemma header_mailto_pattern_eq :
  header_mailto_pattern =
  Cat (seq (List.map Lit (py "<")))
    (Cat (Group 1 (Cat (seq (List.map Lit (py "mailto:")))
                     (Cat (Plus not_gt) Eps)))
       (Cat (seq (List.map Lit (py ">"))) Eps)).
Proof. reflexivity. Qed.

Lemma header_url_pattern_eq :
  header_url_pattern =
  Cat (seq (List.map Lit (py "<")))
    (Cat (Group 1 (Cat (seq (List.map Lit (py "http")))
                     (Cat (Opt (seq (List.map Lit (py "s"))))
                        (Cat (seq (List.map Lit (py "://")))
                           (Cat (Plus not_gt) Eps)))))
       (Cat (seq (List.map Lit (py ">"))) Eps)).
Proof. reflexivity. Qed.

(** [http], an optional [s] and [://] match as [https://] does or else as
    [http://] does. *)
Lemma http_split {A} (r : regex) (s : str) (caps : captures)
    (k : str -> captures -> option A) :
  matcher false
    (Cat (seq (List.map Lit (py "http")))
       (Cat (Opt (seq (List.map Lit (py "s"))))
          (Cat (seq (List.map Lit (py "://"))) r))) s caps k
  = match matcher false (Cat (seq (List.map Lit (py "https://"))) r) s caps k
    with
    | Some x => Some x
    | None => matcher false (Cat (seq (List.map Lit (py "http://"))) r) s caps k
    end.
Proof.
  change (py "https://") with (py "http" ++ py "s://").
  change (py "http://") with (py "http" ++ py "://").
  rewrite <- !matcher_lits_app.
  rewrite !(matcher_cat (seq (List.map Lit (py "http")))), !matcher_lits.
  destruct (startswith (py "http") s); [|reflexivity].
  cbv beta iota. rewrite matcher_opt, matcher_lits_app. reflexivity.
Qed.

Lemma group_http {A} (t rest : str) (caps : captures)
    (k : str -> captures -> option A) :
  no_gt t = true -> wants_gt k ->
  matcher false
    (Group 1 (Cat (seq (List.map Lit (py "http")))
                (Cat (Opt (seq (List.map Lit (py "s"))))
                   (Cat (seq (List.map Lit (py "://")))
                      (Cat (Plus not_gt) Eps)))))
    (t ++ 0x3E :: rest) caps k
  = if url_token t then k (0x3E :: rest) ((1%nat, t) :: caps) else None.
Proof.
  intros Ht Hk. rewrite matcher_group, http_split.
  rewrite !scheme_then_run by (done || by apply wants_gt_group).
  rewrite take_token. unfold url_token.
  destruct (scheme_token (py "https://") t); simpl.
  - by destruct (k _ _), (scheme_token (py "http://") t).
  - reflexivity.
Qed.

Lemma match_here_url (t rest : str) :
  no_gt t = true ->
  match_here false header_url_pattern (bracket t ++ rest)
  = if url_token t
    then Some ({| whole := bracket t; groups := [(1%nat, t)] |}, rest)
    else None.
Proof.
  intros Ht. rewrite header_url_pattern_eq.
  apply match_here_bracket. intros k Hk. by apply group_http.
Qed.

Lemma match_here_mailto (t rest : str) :
  no_gt t = true ->
  match_here false header_mailto_pattern (bracket t ++ rest)
  = if mailto_token t
    then Some ({| whole := bracket t; groups := [(1%nat, t)] |}, rest)
    else None.
Proof.
  intros Ht. rewrite header_mailto_pattern_eq.
  apply match_here_bracket. intros k Hk. by apply group_scheme.
Qed.

Lemma match_here_not_lt (r : regex) (c : codepoint) (s : str) :
  c <> 0x3C ->
  match_here false (Cat (seq (List.map Lit (py "<"))) r) (c :: s) = None.
Proof.
  intros Hc. unfold match_here. rewrite matcher_cat, matcher_lits.
  change (startswith (py "<") (c :: s)) with ((0x3C =? c) && true).
  destruct (N.eqb_spec 0x3C c) as [<-|]; [done | reflexivity].
Qed.

Section Scan.

Variable pattern : regex.
Variable token : str -> bool.

Hypothesis at_token : forall t rest, no_gt t = true ->
  match_here false pattern (bracket t ++ rest)
  = if token t
    then Some ({| whole := bracket t; groups := [(1%nat, t)] |}, rest)
    else None.
Hypothesis not_at_lt : forall c s, c <> 0x3C ->
  match_here false pattern (c :: s) = None.
Hypothesis not_at_end : match_here false pattern [] = None.

Lemma finditer_skip (xs s : str) :
  finditer_from false pattern (length xs) (xs ++ s)
  = finditer_from false pattern O s.
Proof.
  induction xs as [|x xs IH]; [by destruct s|]. simpl. exact IH.
Qed.

Lemma finditer_no_lt (xs s : str) :
  no_lt xs = true ->
  finditer_from false pattern O (xs ++ s) = finditer_from false pattern O s.
Proof.
  induction xs as [|c xs IH]; intros Hxs; [reflexivity|].
  simpl in Hxs. apply andb_true_iff in Hxs as [Hc Hxs].
  apply negb_true_iff, N.eqb_neq in Hc.
  cbn [app finditer_from]. rewrite (not_at_lt c _ Hc). by apply IH.
Qed.

Lemma finditer_bracket (t rest : str) :
  no_angle t = true ->
  finditer_from false pattern O (bracket t ++ rest)
  = (if token t then [{| whole := bracket t; groups := [(1%nat, t)] |}]
     else [])
    ++ finditer_from false pattern O rest.
Proof.
  intros Ht.
  assert (Hgt : no_gt t = true /\ no_lt t = true).
  { unfold no_angle, no_gt, no_lt in *. rewrite !forallb_forall in *.
    split; intros c Hc; specialize (Ht c Hc);
      apply negb_true_iff, orb_false_iff in Ht as [? ?];
      by apply negb_true_iff. }
  destruct Hgt as [Hgt Hlt].
  pose proof (at_token t rest Hgt) as Hm. rewrite bracket_app in *.
  cbn [finditer_from]. rewrite Hm. destruct (token t).
  - cbn [whole]. simpl app at 2. f_equal.
    replace (Nat.pred (length (bracket t))) with (length (t ++ [0x3E])).
    2:{ unfold bracket. change (py "<") with [0x3C]. change (py ">") with [0x3E].
        cbn [length app]. reflexivity. }
    replace (t ++ 0x3E :: rest) with ((t ++ [0x3E]) ++ rest)
      by (by rewrite <- app_assoc).
    apply finditer_skip.
  - replace (t ++ 0x3E :: rest) with ((t ++ [0x3E]) ++ rest)
      by (by rewrite <- app_assoc).
    apply finditer_no_lt. unfold no_lt. rewrite forallb_app.
    apply andb_true_iff. split; [exact Hlt | reflexivity].
Qed.

(** On a header made of bracketed tokens the pattern finds the tokens it
    accepts, in the order of the header. *)
Lemma findall_header_of (items : list (str * str)) (tail : str) :
  forallb (fun '(sep, t) => no_lt sep && no_angle t) items = true ->
  no_lt tail = true ->
  findall false pattern 1 (header_of items tail)
  = List.filter token (List.map snd items).
Proof.
  intros Hitems Htail. unfold findall, finditer.
  induction items as [|[sep t] items IH]; cbn [header_of].
  - rewrite <- (app_nil_r tail), finditer_no_lt by done.
    cbn [finditer_from]. rewrite not_at_end. reflexivity.
  - simpl in Hitems. apply andb_true_iff in Hitems as [Hh Hitems].
    apply andb_true_iff in Hh as [Hsep Ht].
    rewrite finditer_no_lt, finditer_bracket by done.
    rewrite map_app, (IH Hitems). cbn [List.map List.filter snd].
    by destruct (token t).
Qed.

End Scan.

Lemma header_links_tokens (items : list (str * str)) (tail : str) :
  forallb (fun '(sep, t) => no_lt sep && no_angle t) items = true ->
  no_lt tail = true ->
  header_links (header_of items tail)
  = List.filter url_token (List.map snd items)
      ++ List.filter mailto_token (List.map snd items).
Proof.
  intros Hitems Htail. rewrite header_links_findall.
  rewrite (findall_header_of header_url_pattern url_token),
          (findall_header_of header_mailto_pattern mailto_token); try done.
  - intros. by apply match_here_mailto.
  - intros. rewrite header_mailto_pattern_eq. by apply match_here_not_lt.
  - intros. by apply match_here_url.
  - intros. rewrite header_url_pattern_eq. by apply match_here_not_lt.
Qed.

(** C8 fails on the code: a [List-Unsubscribe] header that holds a raw byte
    above 0x7F comes back from [msg.get] as a [Header] object, and
    [re.findall] raises [TypeError] on it, where the rule read on the text
    of the header finds the bracketed URL. The body loop applies [str] to
    what [part.get] returns; this path does not. The header of the
    scenario gives its two links. *)
Theorem header_with_raw_byte_raises :
  get_or_empty header_with_raw_byte (py "List-Unsubscribe")
    = Header (py "<https://x.test/u" ++ [escaped_byte 0xE9] ++ py ">")
  /\ _get_unsubscribe_links header_with_raw_byte = Raise TypeError
  /\ header_links (py "<https://x.test/u" ++ [escaped_byte 0xE9] ++ py ">")
     = [py "https://x.test/u" ++ [escaped_byte 0xE9]]
  /\ _get_unsubscribe_links
       (header_only "<https://x.test/u>, <mailto:off@x.test>")
     = OK [py "https://x.test/u"; py "mailto:off@x.test"].
Proof. repeat split; vm_compute; reflexivity. Qed.

(** X25: when the links are collected, the [List-Unsubscribe] header is a
    [str] and its links come first in the collected list: the http(s)
    matches in the order of the header, then the mailto matches in the
    order of the header. For a header made of bracketed tokens these are
    the tokens that start with [http://] or [https://], then those that
    start with [mailto:]. The header
    [<https://x.test/u>, <mailto:off@x.test>] with no other link gives
    exactly these two links in that order. *)
Theorem header_links_first (msg : Message) (collected : list str) :
  collected_links msg = OK collected ->
  exists h others,
    get_or_empty msg (py "List-Unsubscribe") = Str h /\
    collected = findall false header_url_pattern 1 h
                  ++ findall false header_mailto_pattern 1 h ++ others /\
    _get_unsubscribe_links msg = OK (unique collected) /\
    (forall items tail,
       forallb (fun '(sep, t) => no_lt sep && no_angle t) items = true ->
       no_lt tail = true ->
       h = header_of items tail ->
       collected = List.filter url_token (List.map snd items)
                     ++ List.filter mailto_token (List.map snd items)
                     ++ others) /\
    (h = py "<https://x.test/u>, <mailto:off@x.test>" -> others = [] ->
     _get_unsubscribe_links msg
       = OK [py "https://x.test/u"; py "mailto:off@x.test"]).
Proof.
  intros Hc.
  destruct (collected_links_prefix msg collected Hc) as (h & Hh & others & Ho).
  exists h, others. split; [exact Hh|].
  split; [by rewrite Ho, header_links_findall, <- app_assoc|].
  unfold _get_unsubscribe_links. rewrite Hc. simpl. split; [reflexivity|].
  split.
  - intros items tail Hitems Htail Hheader.
    rewrite Ho, Hheader, header_links_tokens by done. by rewrite <- app_assoc.
  - intros Hheader ->. rewrite Ho, Hheader. vm_compute. reflexivity.
Qed.

Lemma header_links_first_witness :
  let msg := header_only "<https://x.test/u>, <mailto:off@x.test>" in
  exists h others,
    get_or_empty msg (py "List-Unsubscribe") = Str h /\
    [py "https://x.test/u"; py "mailto:off@x.test"]
      = findall false header_url_pattern 1 h
          ++ findall false header_mailto_pattern 1 h ++ others /\
    _get_unsubscribe_links msg
      = OK (unique [py "https://x.test/u"; py "mailto:off@x.test"]) /\
    (forall items tail,
       forallb (fun '(sep, t) => no_lt sep && no_angle t) items = true ->
       no_lt tail = true ->
       h = header_of items tail ->
       [py "https://x.test/u"; py "mailto:off@x.test"]
         = List.filter url_token (List.map snd items)
             ++ List.filter mailto_token (List.map snd items)
             ++ others) /\
    (h = py "<https://x.test/u>, <mailto:off@x.test>" -> others = [] ->
     _get_unsubscribe_links msg
       = OK [py "https://x.test/u"; py "mailto:off@x.test"]).
Proof.
  apply (header_links_first
           (header_only "<https://x.test/u>, <mailto:off@x.test>")).
  vm_compute; reflexivity.
Defined.

(** The header of the scenario is made of two bracketed tokens. *)
Example scenario_header_tokens :
  py "<https://x.test/u>, <mailto:off@x.test>"
  = header_of [([], py "https://x.test/u"); (py ", ", py "mailto:off@x.test")]
      [].
Proof. reflexivity. Qed.

(** ** The search string *)

(** C9: the search string is the clauses of the filters that are given,
    joined by one space, and [ALL] when there is none; for unread messages
    of the last 7 days it is [UNSEEN], a space, and [SINCE] with the date
    of the day 7 days before today. *)
Theorem search_string_spec (now : Z) (from_address subject_filter : option str)
    (unread_only : bool) (days : option Z) (date : str) :
  (8 <= now <= max_ordinal)%Z ->
  (present_days days = true -> since_date now (default 0%Z days) = OK date) ->
  search_string now from_address subject_filter unread_only days
    = OK (match clauses from_address subject_filter unread_only days date with
          | [] => py "ALL"
          | cs => join (py " ") cs
          end)
  /\ search_string now None None false None = OK (py "ALL")
  /\ search_string now None None true (Some 7%Z)
      = OK (py "UNSEEN" ++ py " " ++ py "SINCE " ++ strftime_d_b_Y (now - 7)).
Proof.
  intros Hnow Hdate. split; [|split].
  - unfold search_string, build_criteria, clauses.
    destruct (present_days days).
    + rewrite (Hdate eq_refl). simpl.
      destruct (present from_address), (present subject_filter), unread_only;
        reflexivity.
    + destruct (present from_address), (present subject_filter), unread_only;
        reflexivity.
  - reflexivity.
  - unfold search_string, build_criteria, since_date, max_ordinal in *. simpl.
    destruct (Z.ltb_spec (now - 7) 1); [lia|].
    destruct (Z.ltb_spec 3652059 (now - 7)); [lia|].
    reflexivity.
Qed.

Lemma search_string_spec_witness :
  search_string 738948 (Some (py "a@b.test")) None true (Some 7%Z)
    = OK (match clauses (Some (py "a@b.test")) None true (Some 7%Z)
                  (py "25-Feb-2024") with
          | [] => py "ALL"
          | cs => join (py " ") cs
          end)
  /\ search_string 738948 None None false None = OK (py "ALL")
  /\ search_string 738948 None None true (Some 7%Z)
      = OK (py "UNSEEN" ++ py " " ++ py "SINCE "
              ++ strftime_d_b_Y (738948 - 7)).
Proof.
  apply (search_string_spec 738948 (Some (py "a@b.test")) None true
           (Some 7%Z) (py "25-Feb-2024")).
  - unfold max_ordinal; lia.
  - intros _. vm_compute; reflexivity.
Defined.

(** ** The web link *)

(** C4 fails on the code: for zoho the message id goes into the URL as it
    is, where [quote] would write [%2B], [%26] and [%40]; the gmail branch
    does encode it. *)
Theorem web_link_not_encoded (int : str -> option Z) :
  _get_web_link int (py "zoho") (py "<a+b&c@x.test>") None
    = OK (py "https://mail.zoho.com/zm/#search/msgid/a+b&c@x.test")
  /\ quote (py "a+b&c@x.test") [] = OK (py "a%2Bb%26c%40x.test")
  /\ _get_web_link int (py "gmail") (py "<a+b&c@x.test>") None
      = OK (py "https://mail.google.com/mail/u/0/#search/rfc822msgid%3A"
              ++ py "a%2Bb%26c%40x.test").
Proof. repeat split; vm_compute; reflexivity. Qed.

(** ** The URL patterns *)

Lemma lstrip_by_snoc (p : codepoint -> bool) (m : str) (c : codepoint) :
  p c = true ->
  lstrip_by p (m ++ [c]) = if forallb p m then [] else lstrip_by p m ++ [c].
Proof.
  intros Hc. induction m as [|d m IH]; simpl.
  - by rewrite Hc.
  - destruct (p d); simpl; [exact IH | reflexivity].
Qed.

Lemma lstrip_by_all (p : codepoint -> bool) (m : str) :
  forallb p m = true -> lstrip_by p m = [].
Proof.
  induction m as [|d m IH]; simpl; [reflexivity|].
  destruct (p d); simpl; [exact IH | discriminate].
Qed.

(** A character of the set at the end of a match is removed, whether it is
    punctuation or one of the letters of [&amp;]. *)
Lemma strip_chars_snoc (chars m : str) (c : codepoint) :
  in_chars chars c = true ->
  strip_chars chars (m ++ [c]) = strip_chars chars m.
Proof.
  intros Hc. unfold strip_chars. rewrite lstrip_by_snoc by done.
  destruct (forallb (in_chars chars) m) eqn:Hall.
  - by rewrite lstrip_by_all.
  - unfold rstrip_by. rewrite rev_app_distr. simpl. by rewrite Hc.
Qed.

Lemma clean_url_drops_letter (m : str) (c : codepoint) :
  in_chars (py "amp") c = true ->
  clean_url (m ++ [c]) = clean_url m.
Proof.
  intros Hc. unfold clean_url. rewrite strip_chars_snoc; [reflexivity|].
  unfold in_chars in *.
  apply existsb_exists in Hc as (x & Hin & Heq).
  apply existsb_exists. exists x. split; [|exact Heq].
  vm_compute in Hin |- *. intuition.
Qed.

(** C6 fails on the code: [strip] is given the letters of [&amp;] among
    the characters to remove, so a URL that ends in [map] loses these
    three letters. *)
Theorem trailing_letters_stripped :
  clean_url (py "https://news.test/unsubscribe/map")
    = py "https://news.test/unsubscribe/"
  /\ _get_unsubscribe_links
       (plain_message "see https://news.test/unsubscribe/map now")
     = OK [py "https://news.test/unsubscribe/"]
  /\ _get_unsubscribe_links
       (plain_message "see https://news.test/email/preferences?id=9. Bye")
     = OK [py "https://news.test/email/preferences?id=9"].
Proof. repeat split; vm_compute; reflexivity. Qed.

(** ** Header decoding *)

Section DecodingFacts.

Variable decode_header : str -> result (list (chunk * option str)).
Variable codecs : str -> option codec.

Lemma decode_header_absent :
  _decode_header decode_header codecs None = OK [] /\
  _decode_header decode_header codecs (Some []) = OK [].
Proof. split; reflexivity. Qed.



End DecodingFacts.





(** ** Attachments *)

Section AttachmentFacts.

Variable decode_header : str -> result (list (chunk * option str)).
Variable codecs : str -> option codec.

Lemma attachment_loop (parts : list Message) (acc attachments : list str) :
  for_each (attachment_step decode_header codecs) parts acc = OK attachments ->
  exists new,
    attachments = acc ++ new /\
    Forall2 (names_part decode_header codecs)
      (List.filter named_attachment parts) new.
Proof.
  revert acc. induction parts as [|part parts IH]; intros acc; simpl.
  - intros [= <-]. exists []. split; [by rewrite app_nil_r | constructor].
  - intros H. apply bind_OK in H as (acc' & Hstep & Hrest).
    destruct (IH acc' Hrest) as (new & -> & Hnew). clear IH Hrest.
    unfold attachment_step in Hstep. unfold named_attachment at 1.
    destruct (is_attachment part) eqn:Hatt; simpl.
    + destruct (get_filename (info_of part)) as [filename|] eqn:Hname.
      * destruct (truthy filename) eqn:Htruthy.
        -- apply bind_OK in Hstep as (name & Hdec & Hacc).
           injection Hacc as <-. exists (name :: new).
           split; [by rewrite <- app_assoc|].
           constructor; [|exact Hnew].
           split; [exact Hatt|]. exists filename.
           split; [exact Hname|]. split; [by apply truthy_nonempty | exact Hdec].
        -- injection Hstep as <-. by exists new.
      * injection Hstep as <-. by exists new.
    + injection Hstep as <-. by exists new.
Qed.

End AttachmentFacts.

(** C10: the attachments returned are, in the order of the traversal, the
    decoded file names of the parts that are attachments and have a file
    name, so every element comes from a part with both; an attachment
    without a file name adds nothing: the traversal without that part
    gives the same list. *)
Theorem attachments_have_filenames
    (decode_header : str -> result (list (chunk * option str)))
    (codecs : str -> option codec) (msg : Message) (attachments : list str) :
  _get_attachments decode_header codecs msg = OK attachments ->
  Forall2 (names_part decode_header codecs)
    (List.filter named_attachment (walk msg)) attachments
  /\ (forall name, name ∈ attachments ->
        exists part, part ∈ walk msg /\
                     names_part decode_header codecs part name)
  /\ (forall before part after,
        walk msg = before ++ part :: after ->
        is_attachment part = true ->
        get_filename (info_of part) = None ->
        for_each (attachment_step decode_header codecs) (before ++ after) []
          = OK attachments).
Proof.
  intros H. unfold _get_attachments in H. split; [|split].
  - apply attachment_loop in H as (new & -> & Hnew). exact Hnew.
  - apply attachment_loop in H as (new & -> & Hnew). simpl.
    intros name Hname.
    apply list_elem_of_lookup_1 in Hname as [i Hi].
    destruct (Forall2_lookup_r _ _ _ _ _ Hnew Hi) as (part & Hpart & Hnames).
    exists part. split; [|exact Hnames].
    apply list_elem_of_lookup_2 in Hpart.
    apply list_elem_of_In, filter_In in Hpart as [Hpart _].
    by apply list_elem_of_In.
  - intros before part after Hwalk Hatt Hnone.
    rewrite Hwalk, for_each_app in H. rewrite for_each_app.
    destruct (for_each _ before []) as [acc|e]; simpl in *; [|discriminate].
    unfold attachment_step at 1 in H. rewrite Hatt, Hnone in H. exact H.
Qed.

Lemma attachments_have_filenames_witness :
  Forall2 (names_part sample_decode_header no_codecs)
    (List.filter named_attachment (walk with_attachments)) [py "report.pdf"]
  /\ (forall name, name ∈ [py "report.pdf"] ->
        exists part, part ∈ walk with_attachments /\
                     names_part sample_decode_header no_codecs part name)
  /\ (forall before part after,
        walk with_attachments = before ++ part :: after ->
        is_attachment part = true ->
        get_filename (info_of part) = None ->
        for_each (attachment_step sample_decode_header no_codecs)
          (before ++ after) [] = OK [py "report.pdf"]).
Proof.
  apply (attachments_have_filenames sample_decode_header no_codecs
           with_attachments [py "report.pdf"]).
  vm_compute; reflexivity.
Defined.

(** * More properties of the code *)

(** ** What [quote] writes *)

Lemma upper_digit_safe (n : N) : n < 16 -> always_safe (upper_digit_char n) = true.
Proof.
  intros Hn. unfold upper_digit_char, always_safe.
  destruct (N.ltb_spec n 10).
  - assert (H1 : (0x30 <=? 0x30 + n) = true) by (apply N.leb_le; lia).
    assert (H2 : (0x30 + n <=? 0x39) = true) by (apply N.leb_le; lia).
    rewrite H1, H2. simpl. by rewrite !orb_true_r.
  - assert (H1 : (0x41 <=? 0x41 + (n - 10)) = true) by (apply N.leb_le; lia).
    assert (H2 : (0x41 + (n - 10) <=? 0x5A) = true) by (apply N.leb_le; lia).
    by rewrite H1, H2.
Qed.

Lemma byte_to_N_lt (b : byte) : Byte.to_N b < 256.
Proof. pose proof (Byte.to_N_bounded b). lia. Qed.

Lemma quote_byte_safe (safe : str) (b : byte) :
  Forall (fun c => url_safe safe c = true) (quote_byte safe b).
Proof.
  unfold quote_byte. pose proof (byte_to_N_lt b) as Hb.
  destruct (always_safe _ || _) eqn:Hkeep.
  - constructor; [|constructor]. unfold url_safe.
    apply orb_true_iff in Hkeep as [-> | ->]; [reflexivity|].
    by rewrite orb_true_r.
  - constructor; [reflexivity|].
    constructor.
    { unfold url_safe. rewrite upper_digit_safe; [reflexivity|].
      apply N.Div0.div_lt_upper_bound. lia. }
    constructor; [|constructor].
    unfold url_safe. rewrite upper_digit_safe; [reflexivity|].
    apply N.mod_lt. lia.
Qed.

Lemma quote_safe (s safe q : str) :
  quote s safe = OK q -> Forall (fun c => url_safe safe c = true) q.
Proof.
  unfold quote. intros H. apply bind_OK in H as (b & _ & H).
  injection H as <-. induction b as [|x b IH]; simpl; [constructor|].
  apply Forall_app. split; [apply quote_byte_safe | exact IH].
Qed.

Lemma to_N_byte_of (c : N) : c < 256 -> Byte.to_N (byte_of c) = c.
Proof.
  intros Hc. unfold byte_of. destruct (Byte.of_N c) as [b|] eqn:E.
  - by apply Byte.to_of_N.
  - apply Byte.of_N_None_iff in E. lia.
Qed.

Lemma always_safe_ascii (c : N) : always_safe c = true -> c < 0x80.
Proof.
  unfold always_safe.
  rewrite !orb_true_iff, !andb_true_iff, !N.leb_le, !N.eqb_eq. lia.
Qed.

Lemma kept_by_quote_ascii (safe : str) (c : N) :
  kept_by_quote safe c = true -> c < 0x80.
Proof.
  unfold kept_by_quote. intros [H | H]%orb_true_iff.
  - by apply always_safe_ascii.
  - apply andb_true_iff in H as [H _]. by apply N.ltb_lt.
Qed.

Lemma utf8_encode_ascii (s : str) :
  Forall (fun c => c < 0x80) s -> utf8_encode s = OK (List.map byte_of s).
Proof.
  induction 1 as [|c s Hc _ IH]; simpl; [reflexivity|].
  rewrite IH. simpl.
  assert (H1 : (0xD800 <=? c) = false) by (apply N.leb_gt; lia).
  assert (H2 : (0x10FFFF <? c) = false) by (apply N.ltb_ge; lia).
  assert (H3 : (c <? 0x80) = true) by (by apply N.ltb_lt).
  by rewrite H1, H2, H3.
Qed.

(** A string of characters that need no escape is left as it is. *)
Lemma quote_kept (s safe : str) :
  Forall (fun c => kept_by_quote safe c = true) s -> quote s safe = OK s.
Proof.
  intros Hs. unfold quote. rewrite utf8_encode_ascii.
  2:{ eapply Forall_impl; [exact Hs|]. intros c. apply kept_by_quote_ascii. }
  simpl. f_equal. induction Hs as [|c s Hc _ IH]; simpl; [reflexivity|].
  rewrite IH. unfold quote_byte.
  rewrite to_N_byte_of by (apply kept_by_quote_ascii in Hc; lia).
  unfold kept_by_quote in Hc. by rewrite Hc.
Qed.

(** ** The native link *)

(** X1: the native link is empty for an empty message id and only then;
    otherwise it is [message://] followed by characters that are safe in a
    URL: letters, digits, [_.-~], [@] and percent escapes. *)
Theorem native_link_url_safe (message_id link : str) :
  _get_native_mail_link message_id = OK link ->
  (message_id = [] /\ link = []) \/
  (message_id <> [] /\
   exists q, link = py "message://" ++ q /\
             Forall (fun c => url_safe (py "@") c = true) q).
Proof.
  unfold _get_native_mail_link. destruct message_id as [|c id]; simpl.
  - intros [= <-]. by left.
  - intros H. apply bind_OK in H as (q & Hq & H). injection H as <-.
    right. split; [done|]. exists q. split; [reflexivity|].
    by eapply quote_safe.
Qed.

Lemma native_link_url_safe_witness :
  (py "<a b@x.test>" = [] /\ py "message://a%20b@x.test" = []) \/
  (py "<a b@x.test>" <> [] /\
   exists q, py "message://a%20b@x.test" = py "message://" ++ q /\
             Forall (fun c => url_safe (py "@") c = true) q).
Proof.
  apply (native_link_url_safe (py "<a b@x.test>") (py "message://a%20b@x.test")).
  vm_compute; reflexivity.
Defined.

(** X2: for a message id whose characters, once the angle brackets at its
    ends are removed, are letters, digits, [_.-~] or [@], the native link
    is [message://] followed by that id, unchanged. *)
Theorem native_link_plain_id (message_id : str) :
  message_id <> [] ->
  Forall (fun c => kept_by_quote (py "@") c = true)
    (strip_chars (py "<>") message_id) ->
  _get_native_mail_link message_id
  = OK (py "message://" ++ strip_chars (py "<>") message_id).
Proof.
  intros Hne Hkept. unfold _get_native_mail_link.
  destruct message_id as [|c id]; [done|].
  cbn [truthy negb]. by rewrite quote_kept.
Qed.

Lemma native_link_plain_id_witness :
  _get_native_mail_link (py "<abc.123@mail.x.test>")
  = OK (py "message://" ++ strip_chars (py "<>") (py "<abc.123@mail.x.test>")).
Proof.
  apply (native_link_plain_id (py "<abc.123@mail.x.test>")).
  - vm_compute; discriminate.
  - vm_compute. repeat constructor.
Defined.

(** ** The web link *)

(** Replacing a character by nothing removes every occurrence of it. *)
Lemma replace_char (c : codepoint) (s : str) :
  replace [c] [] s = List.filter (fun d => negb (d =? c)) s.
Proof.
  unfold replace. induction s as [|d s IH]; simpl; [reflexivity|].
  rewrite N.eqb_sym. destruct (d =? c); simpl; by rewrite IH.
Qed.

Lemma filter_twice {X} (f g : X -> bool) (l : list X) :
  List.filter f (List.filter g l) = List.filter (fun x => g x && f x) l.
Proof.
  induction l as [|x l IH]; simpl; [reflexivity|].
  destruct (g x); simpl; [|exact IH]. destruct (f x); by rewrite IH.
Qed.

Lemma clean_id_filter (message_id : str) :
  replace (py ">") [] (replace (py "<") [] message_id)
  = List.filter (fun c => negb (is_angle c)) message_id.
Proof.
  change (py ">") with [0x3E]. change (py "<") with [0x3C].
  rewrite !replace_char, filter_twice. apply filter_ext.
  intros c. unfold is_angle. by rewrite negb_orb.
Qed.

(** X3: for a provider other than gmail the web link never raises: it is
    empty for an empty message id, and otherwise the search URL of the
    provider followed by the message id with every angle bracket removed,
    the ones inside the id included, and nothing else changed. *)
Theorem web_link_other_providers (int : str -> option Z)
    (provider message_id : str) (gmail_msg_id : option str) :
  provider <> py "gmail" ->
  _get_web_link int provider message_id gmail_msg_id
  = OK (if truthy message_id
        then search_link_prefix provider
               ++ List.filter (fun c => negb (is_angle c)) message_id
        else []).
Proof.
  intros Hp. unfold _get_web_link, gmail_numeric_id, str_eqb.
  rewrite !(bool_decide_eq_false_2 (provider = py "gmail")) by done.
  destruct (truthy message_id); cbn [negb]; [|reflexivity].
  rewrite clean_id_filter. unfold search_link_prefix, str_eqb.
  repeat case_bool_decide; by rewrite <- ?app_assoc.
Qed.

Lemma web_link_other_providers_witness :
  _get_web_link (fun _ => None) (py "fastmail") (py "<a<b>c@x.test>") None
  = OK (if truthy (py "<a<b>c@x.test>")
        then search_link_prefix (py "fastmail")
               ++ List.filter (fun c => negb (is_angle c)) (py "<a<b>c@x.test>")
        else []).
Proof.
  apply (web_link_other_providers (fun _ => None) (py "fastmail")
           (py "<a<b>c@x.test>") None).
  vm_compute; discriminate.
Defined.

Lemma utf8_encode_returns (s : str) :
  forallb scalar_value s = true -> returns (utf8_encode s).
Proof.
  induction s as [|c s IH]; simpl; [intros _; eexists; reflexivity|].
  intros [Hc Hs]%andb_true_iff. destruct (IH Hs) as [b ->].
  assert (H : ((0xD800 <=? c) && (c <=? 0xDFFF)) || (0x10FFFF <? c) = false).
  { unfold scalar_value in Hc. apply orb_false_iff.
    apply orb_true_iff in Hc as [Hc | [H1 H2]%andb_true_iff].
    - apply N.ltb_lt in Hc. split.
      + apply andb_false_iff. left. apply N.leb_gt. lia.
      + apply N.ltb_ge. lia.
    - apply N.ltb_lt in H1. apply N.leb_le in H2. split.
      + apply andb_false_iff. right. apply N.leb_gt. lia.
      + apply N.ltb_ge. lia. }
  rewrite H. eexists; reflexivity.
Qed.

Lemma filter_scalar (f : codepoint -> bool) (s : str) :
  forallb scalar_value s = true ->
  forallb scalar_value (List.filter f s) = true.
Proof.
  induction s as [|c s IH]; simpl; [done|].
  intros [Hc Hs]%andb_true_iff. destruct (f c); simpl; [|by apply IH].
  by rewrite Hc, IH.
Qed.

(** X4: for gmail without a usable numeric id, the search link of a message
    id without surrogates is returned, and what follows
    [rfc822msgid%3A] holds only letters, digits, [_.-~] and percent
    escapes. *)
Theorem gmail_search_link_url_safe (int : str -> option Z)
    (message_id : str) (gmail_msg_id : option str) :
  gmail_numeric_id int (py "gmail") gmail_msg_id = None ->
  message_id <> [] ->
  forallb scalar_value message_id = true ->
  exists q,
    _get_web_link int (py "gmail") message_id gmail_msg_id
    = OK (py "https://mail.google.com/mail/u/0/#search/rfc822msgid%3A" ++ q)
    /\ Forall (fun c => url_safe [] c = true) q.
Proof.
  intros Hnum Hne Hs. unfold _get_web_link. rewrite Hnum.
  destruct message_id as [|c id]; [done|]. cbn [truthy negb].
  rewrite clean_id_filter.
  change (str_eqb (py "gmail") (py "gmail")) with true. cbv iota.
  destruct (utf8_encode_returns
              (List.filter (fun c => negb (is_angle c)) (c :: id)))
    as [b Hb]; [by apply filter_scalar|].
  assert (Hq : exists q, quote (List.filter (fun c => negb (is_angle c))
                                  (c :: id)) [] = OK q).
  { unfold quote. rewrite Hb. eexists; reflexivity. }
  destruct Hq as [q Hq]. exists q. rewrite Hq. split; [reflexivity|].
  by eapply quote_safe.
Qed.

Lemma gmail_search_link_url_safe_witness :
  exists q,
    _get_web_link (fun _ => None) (py "gmail") (py "<a+b&c@x.test>") None
    = OK (py "https://mail.google.com/mail/u/0/#search/rfc822msgid%3A" ++ q)
    /\ Forall (fun c => url_safe [] c = true) q.
Proof.
  apply (gmail_search_link_url_safe (fun _ => None) (py "<a+b&c@x.test>") None).
  - reflexivity.
  - vm_compute; discriminate.
  - vm_compute; reflexivity.
Defined.

(** ** Where the unsubscribe links come from *)


Section Provenance.

Variable P : str -> Prop.
Hypothesis http_ok : forall x, startswith (py "http") x = true -> P x.

Lemma append_new_keeps (links : list str) (url : str) :
  Forall P links -> Forall P (append_new links url).
Proof.
  intros Hl. unfold append_new.
  destruct (startswith (py "http") url) eqn:Hh; simpl; [|exact Hl].
  destruct (negb _); [|exact Hl].
  apply Forall_app. split; [exact Hl|]. constructor; [by apply http_ok|constructor].
Qed.

Lemma fold_left_keeps {X} (f : list str -> X -> list str) (xs : list X)
    (links : list str) :
  (forall acc x, Forall P acc -> Forall P (f acc x)) ->
  Forall P links -> Forall P (fold_left f xs links).
Proof.
  intros Hf. revert links. induction xs as [|x xs IH]; intros links Hl; simpl.
  - exact Hl.
  - apply IH. by apply Hf.
Qed.

Lemma scan_body_keeps (prefer_html : bool) (body : str) (links : list str) :
  Forall P links -> Forall P (scan_body prefer_html body links).
Proof.
  intros Hl. unfold scan_body. destruct (truthy body); [|exact Hl].
  unfold pattern_links. apply fold_left_keeps.
  { intros acc pattern Hacc. apply fold_left_keeps; [|exact Hacc].
    intros acc' m Hacc'. by apply append_new_keeps. }
  destruct prefer_html; [|exact Hl].
  unfold anchor_links.
  apply fold_left_keeps; [intros; by apply append_new_keeps|].
  apply fold_left_keeps; [intros; by apply append_new_keeps|].
  apply fold_left_keeps; [|exact Hl].
  intros acc m Hacc. destruct (search _ _ _); [by apply append_new_keeps|exact Hacc].
Qed.

End Provenance.

(** X5: every unsubscribe link returned is a link of the [List-Unsubscribe]
    header or starts with [http] in lower case: the rules that read the
    body never give a [mailto:] link, nor a URL written [HTTP://]. *)
Theorem unsubscribe_links_provenance (msg : Message) (links : list str) :
  _get_unsubscribe_links msg = OK links ->
  Forall (from_header_or_http msg) links.
Proof.
  unfold _get_unsubscribe_links. intros H.
  apply bind_OK in H as (collected & Hc & H). injection H as <-.
  assert (Hall : Forall (from_header_or_http msg) collected).
  { apply collected_links_OK in Hc as (h & b1 & b2 & Hh & _ & _ & ->).
    apply scan_body_keeps; [intros x Hx; by right|].
    apply scan_body_keeps; [intros x Hx; by right|].
    apply Forall_forall. intros x Hx. left. by exists h. }
  apply Forall_forall. intros x Hx. rewrite elem_of_unique in Hx.
  rewrite Forall_forall in Hall. by apply Hall.
Qed.

Lemma unsubscribe_links_provenance_witness :
  Forall (from_header_or_http
            (header_only "<https://x.test/u>, <mailto:off@x.test>"))
    [py "https://x.test/u"; py "mailto:off@x.test"].
Proof.
  apply (unsubscribe_links_provenance
           (header_only "<https://x.test/u>, <mailto:off@x.test>")).
  vm_compute; reflexivity.
Defined.

(** ** The body of a single part and of a message without text *)

(** X6: the body of a message that is not multipart is its payload decoded,
    whatever the content type, the disposition and the preference. *)
Theorem single_part_body (info : part_info) (payload : bytes)
    (prefer_html : bool) :
  _get_email_body (Leaf info payload) prefer_html = utf8_decode Ignore payload.
Proof.
  unfold _get_email_body, captured_bodies, payload_text.
  cbn [is_multipart get_payload_decoded info_of].
  destruct (utf8_decode Ignore payload) as [body|e]; simpl; [|reflexivity].
  destruct (str_eqb _ _); simpl; unfold choose_body;
    destruct prefer_html, body; reflexivity.
Qed.

Lemma capture_step_marked (st : str * str) (q : Message) :
  marked_attachment q = true -> capture_step st q = OK st.
Proof.
  intros Hq. destruct st as [plain html]. unfold capture_step.
  unfold marked_attachment in Hq. by rewrite Hq.
Qed.

Lemma loop_without_marked (parts : list Message) (st : str * str) :
  for_each capture_step parts st
  = for_each capture_step
      (List.filter (fun q => negb (marked_attachment q)) parts) st.
Proof.
  revert st. induction parts as [|q parts IH]; intros st; simpl; [reflexivity|].
  destruct (marked_attachment q) eqn:Hq; simpl.
  - rewrite capture_step_marked by done. simpl. apply IH.
  - destruct (capture_step st q); simpl; [apply IH | reflexivity].
Qed.

(** X7: the parts whose disposition header holds the word attachment play
    no part in the body of a multipart message: the traversal without
    them captures the same two bodies. *)
Theorem attachments_not_in_body (msg : Message) :
  is_multipart msg = true ->
  captured_bodies msg
  = for_each capture_step
      (List.filter (fun q => negb (marked_attachment q)) (walk msg)) ([], []).
Proof.
  intros Hm. unfold captured_bodies. rewrite Hm. apply loop_without_marked.
Qed.

Lemma attachments_not_in_body_witness :
  captured_bodies with_attachments
  = for_each capture_step
      (List.filter (fun q => negb (marked_attachment q))
         (walk with_attachments)) ([], []).
Proof. apply (attachments_not_in_body with_attachments). reflexivity. Defined.

Lemma capture_step_no_text (st : str * str) (q : Message) :
  body_part (py "text/plain") q = false ->
  body_part (py "text/html") q = false ->
  capture_step st q = OK st.
Proof.
  intros Hp Hh. destruct st as [plain html].
  unfold capture_step, body_part in *.
  destruct (negb _); simpl in *; [|reflexivity]. by rewrite Hp, Hh.
Qed.

(** X8: a multipart message without a text/plain or text/html part outside
    the attachments has the empty string for body, whatever the
    preference; nothing is raised. *)
Theorem body_without_text_part (msg : Message) (prefer_html : bool) :
  is_multipart msg = true ->
  forallb (fun q => negb (body_part (py "text/plain") q)
                    && negb (body_part (py "text/html") q)) (walk msg) = true ->
  _get_email_body msg prefer_html = OK [].
Proof.
  intros Hm Hno. unfold _get_email_body, captured_bodies. rewrite Hm.
  assert (H : for_each capture_step (walk msg) ([], []) = OK ([], [])).
  { revert Hno. generalize (walk msg). intros parts.
    induction parts as [|q parts IH]; intros Hno; cbn [for_each];
      [reflexivity|].
    simpl in Hno. apply andb_true_iff in Hno as [Hq Hno].
    apply andb_true_iff in Hq as [Hp Hh].
    rewrite capture_step_no_text by (by apply negb_true_iff).
    by apply IH. }
  rewrite H. simpl. by destruct prefer_html.
Qed.

Lemma body_without_text_part_witness :
  _get_email_body
    (Multipart (info "multipart/mixed" [] None)
       [attachment_part "attachment; filename=report.pdf"
          (Some (py "report.pdf"))]) true = OK [].
Proof.
  apply (body_without_text_part
           (Multipart (info "multipart/mixed" [] None)
              [attachment_part "attachment; filename=report.pdf"
                 (Some (py "report.pdf"))]) true).
  - reflexivity.
  - vm_compute; reflexivity.
Defined.

(** ** The messages [read] fetches *)

Lemma rev_drop {X} (i : nat) (l : list X) :
  (i <= length l)%nat -> rev (drop i l) = take (length l - i) (rev l).
Proof.
  intros Hi. rewrite firstn_rev. do 2 f_equal. lia.
Qed.

(** X9: with a positive limit, [read] fetches the last [limit] message
    numbers of the search result (all of them when there are fewer), the
    last one first; with the limit 0 it fetches all of them, and with a
    negative limit all but that many of the first ones. *)
Theorem numbers_to_fetch_spec (limit : Z) (message_numbers0 : bytes) :
  numbers_to_fetch limit message_numbers0
  = let newest_first := rev (bytes_split message_numbers0) in
    if (0 <? limit)%Z then take (Z.to_nat limit) newest_first
    else take (length newest_first - Z.to_nat (- limit)) newest_first.
Proof.
  unfold numbers_to_fetch, slice_from. cbv zeta.
  set (ids := bytes_split message_numbers0).
  rewrite length_rev.
  destruct (Z.ltb_spec 0 limit) as [Hpos|Hnon].
  - destruct (Z.ltb_spec (- limit) 0) as [_|]; [|lia].
    rewrite rev_drop by lia.
    destruct (Z.le_gt_cases (Z.of_nat (length ids)) limit) as [Hbig|Hsmall].
    + replace (Z.to_nat (Z.max 0 (- limit + Z.of_nat (length ids)))) with O
        by lia.
      rewrite Nat.sub_0_r, !firstn_all2; [reflexivity|..];
        rewrite length_rev; lia.
    + f_equal. lia.
  - destruct (Z.ltb_spec (- limit) 0) as [|_]; [lia|].
    rewrite rev_drop by lia. f_equal. lia.
Qed.

(** ** The environment file *)

Lemma and_then_Returns {A B} (r : Env.outcome A) (k : A -> Env.outcome B)
    (b : B) :
  Env.and_then r k = Env.Returns b ->
  exists a, r = Env.Returns a /\ k a = Env.Returns b.
Proof. destruct r as [a|e]; simpl; [eauto | discriminate]. Qed.

Lemma environ_set_fresh (environ environ' : gmap str str) (key value : str) :
  environ !! key = None ->
  Env.environ_set environ key value = Env.Returns environ' ->
  environ ⊆ environ'.
Proof.
  intros Hfresh. unfold Env.environ_set.
  destruct (negb _); [discriminate|].
  destruct (_ || _); [discriminate|].
  destruct (contains _ _); [discriminate|].
  case_bool_decide; [discriminate|]. intros [= <-].
  by apply insert_subseteq.
Qed.

Lemma load_line_subseteq (environ environ' : gmap str str) (raw : str) :
  Env.load_line environ raw = Env.Returns environ' -> environ ⊆ environ'.
Proof.
  unfold Env.load_line. cbv zeta.
  destruct (_ && _ && _); [|by intros [= <-]].
  destruct (Env.split_once (strip raw)) as [key value].
  intros H. apply and_then_Returns in H as (present & Hp & H).
  unfold Env.environ_contains in Hp.
  destruct (Env.encodable key); [|discriminate]. injection Hp as <-.
  case_bool_decide as Hin.
  - by injection H as <-.
  - eapply environ_set_fresh; [|exact H].
    by apply eq_None_not_Some.
Qed.

Lemma load_lines_subseteq (lines : list str) (environ environ' : gmap str str) :
  Env.load_lines lines environ = Env.Returns environ' -> environ ⊆ environ'.
Proof.
  revert environ. induction lines as [|raw lines IH]; intros environ; simpl.
  - by intros [= <-].
  - intros H. apply and_then_Returns in H as (mid & Hmid & H).
    etrans; [by eapply load_line_subseteq | by apply IH].
Qed.

(** X10: [load_env_file] never changes a variable that is set: when it
    returns, every variable of the environment it started from has the value
    it had, and among several lines for one name the first one counts. *)
Theorem load_env_file_keeps_environment (env_file : option (list str))
    (environ environ' : gmap str str) :
  Env.load_env_file env_file environ = Env.Returns environ' ->
  environ ⊆ environ'.
Proof.
  destruct env_file as [lines|]; simpl.
  - apply load_lines_subseteq.
  - by intros [= <-].
Qed.

Lemma load_env_file_keeps_environment_witness :
  sample_environ ⊆ <[py "EMAIL_PROVIDER" := py "Gmail"]> sample_environ.
Proof.
  apply (load_env_file_keeps_environment (Some short_env_lines)).
  vm_compute. reflexivity.
Defined.

Lemma split_once_first (key value : str) :
  contains (py "=") key = false ->
  Env.split_once (key ++ py "=" ++ value) = (key, value).
Proof.
  change (py "=") with [0x3D].
  induction key as [|c key IH]; [reflexivity|].
  cbn [contains startswith app Env.split_once]. intros H.
  apply orb_false_iff in H as [Hc H].
  rewrite andb_true_r in Hc. rewrite N.eqb_sym in Hc. rewrite Hc.
  cbn [app] in IH. rewrite IH; [reflexivity|].
  destruct key; exact H.
Qed.

Lemma contains_app_r (needle a b : str) :
  contains needle b = true -> contains needle (a ++ b) = true.
Proof.
  intros H. induction a as [|c a IH]; [exact H|].
  simpl. rewrite IH. apply orb_true_r.
Qed.

(** X11: a line of the file that reads, once stripped of white space,
    key = value, where the key holds no equals sign, does not start a
    comment and is not set yet, sets the key to the value stripped of double
    quotes and then of single quotes, or raises what that assignment
    raises. *)
Theorem load_line_sets (environ : gmap str str) (raw key value : str) :
  strip raw = key ++ py "=" ++ value ->
  contains (py "=") key = false ->
  startswith (py "#") key = false ->
  environ !! key = None ->
  Env.load_line environ raw
  = Env.environ_set environ key
      (strip_chars (py "'") (strip_chars dquote value)).
Proof.
  intros Hline Hkey Hcomment Hfresh.
  unfold Env.load_line. cbv zeta. rewrite Hline.
  replace (truthy (key ++ py "=" ++ value)) with true
    by (by destruct key).
  replace (startswith (py "#") (key ++ py "=" ++ value)) with false
    by (destruct key; [reflexivity | exact (eq_sym Hcomment)]).
  rewrite (contains_app_r (py "=") key (py "=" ++ value)) by reflexivity.
  simpl andb. cbv iota. rewrite (split_once_first key value Hkey).
  unfold Env.environ_contains, Env.environ_set.
  destruct (Env.encodable key); [|reflexivity].
  simpl. rewrite bool_decide_eq_false_2; [reflexivity|].
  rewrite Hfresh. by intros [? ?].
Qed.

Lemma load_line_sets_witness :
  Env.load_line sample_environ (py "  EMAIL_PASSWORD='a=b'  ")
  = Env.Returns (<[py "EMAIL_PASSWORD" := py "a=b"]> sample_environ).
Proof.
  rewrite (load_line_sets sample_environ (py "  EMAIL_PASSWORD='a=b'  ")
             (py "EMAIL_PASSWORD") (py "'a=b'"));
    vm_compute; reflexivity.
Defined.

(** ** [EmailConfig.__init__] *)

Lemma _get_required_truthy (environ : gmap str str) (key value : str) :
  Env._get_required environ key = Env.Returns value ->
  environ !! key = Some value /\ value <> [].
Proof.
  unfold Env._get_required. destruct (environ !! key) as [v|]; [|discriminate].
  destruct v; simpl; [discriminate|]. intros [= <-]. by split.
Qed.

Lemma provider_settings_lookup (provider : str) (provider_config : Env.settings) :
  Env.PROVIDER_SETTINGS !! provider = Some provider_config ->
  (provider = py "gmail"
   /\ Env.use_tls provider_config = Some true
   /\ Env.use_ssl provider_config = None)
  \/ (provider <> py "gmail"
      /\ (provider = py "zoho" \/ provider = py "fastmail")
      /\ Env.use_tls provider_config = None
      /\ Env.use_ssl provider_config = Some true).
Proof.
  unfold Env.PROVIDER_SETTINGS.
  rewrite !lookup_insert_Some, lookup_empty.
  intros [[<- <-]|[Hg [[<- <-]|[Hz [[<- <-]|[_ ?]]]]]]; try discriminate;
    [left | right | right]; auto.
Qed.

Lemma init_loaded_Returns (int : str -> option Z) (environ : gmap str str)
    (from_email : option str) (cfg : Env.EmailConfig) :
  Env.init_loaded int environ from_email = Env.Returns cfg ->
  exists provider_config,
    Env.PROVIDER_SETTINGS !! Env.provider cfg = Some provider_config
    /\ Env.account cfg <> [] /\ Env.password cfg <> []
    /\ Env.from_name cfg <> []
    /\ Env.smtp_use_tls cfg = default false (Env.use_tls provider_config)
    /\ Env.smtp_use_ssl cfg = default false (Env.use_ssl provider_config)
    /\ Env.from_address cfg
       = Env.choose_from_address environ from_email (Env.account cfg).
Proof.
  unfold Env.init_loaded. intros H.
  apply and_then_Returns in H as (p & Hp & H).
  apply and_then_Returns in H as (account & Ha & H).
  apply and_then_Returns in H as (password & Hw & H).
  apply and_then_Returns in H as (from_name & Hn & H).
  destruct (Env.PROVIDER_SETTINGS !! lower p) as [provider_config|] eqn:Hs;
    [|discriminate].
  apply and_then_Returns in H as (smtp_port & _ & H).
  apply and_then_Returns in H as (imap_port & _ & H).
  injection H as <-. simpl.
  apply _get_required_truthy in Ha as [_ Ha], Hw as [_ Hw], Hn as [_ Hn].
  exists provider_config. auto 10.
Qed.

(** X12: a configuration that [EmailConfig.__init__] returns names one of the
    three providers of [PROVIDER_SETTINGS], has a non-empty account, password
    and sender name, and uses exactly one of STARTTLS and SSL: STARTTLS for
    gmail, SSL for the others. *)
Theorem config_is_valid (int : str -> option Z) (env_file : option (list str))
    (environ : gmap str str) (from_email : option str)
    (cfg : Env.EmailConfig) :
  Env.init int env_file environ from_email = Env.Returns cfg ->
  Env.provider cfg ∈ [py "gmail"; py "zoho"; py "fastmail"]
  /\ Env.account cfg <> [] /\ Env.password cfg <> []
  /\ Env.from_name cfg <> []
  /\ Env.smtp_use_ssl cfg = negb (Env.smtp_use_tls cfg)
  /\ (Env.smtp_use_tls cfg = true <-> Env.provider cfg = py "gmail").
Proof.
  unfold Env.init. intros H.
  apply and_then_Returns in H as (environ' & _ & H).
  apply init_loaded_Returns in H
    as (provider_config & Hs & Ha & Hw & Hn & Htls & Hssl & _).
  apply provider_settings_lookup in Hs
    as [(Hp & Ht & Hl)|(Hg & Hp & Ht & Hl)];
    rewrite Htls, Hssl, Ht, Hl; simpl.
  - rewrite Hp. split; [set_solver|]. by repeat (split; [assumption|]).
  - split; [destruct Hp as [-> | ->]; set_solver|].
    repeat (split; [assumption|]). split; [reflexivity|].
    split; [discriminate | by intros ?].
Qed.

Lemma config_is_valid_witness :
  exists cfg,
    Env.init sample_int (Some sample_env_lines) sample_environ None
    = Env.Returns cfg
    /\ Env.provider cfg ∈ [py "gmail"; py "zoho"; py "fastmail"]
    /\ Env.account cfg <> [] /\ Env.password cfg <> []
    /\ Env.from_name cfg <> []
    /\ Env.smtp_use_ssl cfg = negb (Env.smtp_use_tls cfg)
    /\ (Env.smtp_use_tls cfg = true <-> Env.provider cfg = py "gmail").
Proof.
  eexists. split; [vm_compute; reflexivity|].
  eapply (config_is_valid sample_int (Some sample_env_lines) sample_environ
            None).
  vm_compute. reflexivity.
Defined.

(** X13: the sender address of a configuration is [from_email] when one
    is given and not empty; otherwise it is the value of EMAIL_FROM_ADDRESS
    in the environment once the file is loaded, and the account when that
    variable is not set. It is empty exactly when no [from_email] is given
    (or an empty one) and the variable is set to the empty string. *)
Theorem from_address_choice (int : str -> option Z)
    (env_file : option (list str)) (environ : gmap str str)
    (from_email : option str) (cfg : Env.EmailConfig) :
  Env.init int env_file environ from_email = Env.Returns cfg ->
  exists environ',
    Env.load_env_file env_file environ = Env.Returns environ'
    /\ (present from_email = true -> from_email = Some (Env.from_address cfg))
    /\ (present from_email = false ->
        Env.from_address cfg
        = match environ' !! py "EMAIL_FROM_ADDRESS" with
          | Some address => address
          | None => Env.account cfg
          end)
    /\ (Env.from_address cfg = []
        <-> present from_email = false
            /\ environ' !! py "EMAIL_FROM_ADDRESS" = Some []).
Proof.
  unfold Env.init. intros H.
  apply and_then_Returns in H as (environ' & Hload & H).
  exists environ'. split; [exact Hload|].
  apply init_loaded_Returns in H
    as (provider_config & _ & Ha & _ & _ & _ & _ & Hfrom).
  rewrite Hfrom. unfold Env.choose_from_address.
  destruct (environ' !! py "EMAIL_FROM_ADDRESS") as [v|];
    destruct from_email as [[|c e]|]; simpl;
    (split; [try discriminate; by intros _|]);
    (split; [try discriminate; by intros _|]);
    split; try (intros [? ?]); try discriminate; try congruence;
    try (intros ->; by split); try (intros ?; by split).
Qed.

Lemma from_address_choice_witness :
  exists cfg,
    Env.init sample_int (Some sample_env_lines) sample_environ None
    = Env.Returns cfg
    /\ Env.from_address cfg = py "bob@example.org"
    /\ exists environ',
         Env.load_env_file (Some sample_env_lines) sample_environ
         = Env.Returns environ'
         /\ (present None = true -> None = Some (Env.from_address cfg))
         /\ (present None = false ->
             Env.from_address cfg
             = match environ' !! py "EMAIL_FROM_ADDRESS" with
               | Some address => address
               | None => Env.account cfg
               end)
         /\ (Env.from_address cfg = []
             <-> present None = false
                 /\ environ' !! py "EMAIL_FROM_ADDRESS" = Some []).
Proof.
  eexists. split; [vm_compute; reflexivity|]. split; [reflexivity|].
  eapply (from_address_choice sample_int (Some sample_env_lines)
            sample_environ None).
  vm_compute; reflexivity.
Defined.

(** X14: with the provider of a configuration that [EmailConfig.__init__]
    returned, the link [_get_web_link] gives for a non-empty message id is
    one of the gmail, zoho and fastmail links; the generic link built from
    the provider name is never produced. *)
Theorem web_link_of_valid_config (int int' : str -> option Z)
    (env_file : option (list str)) (environ : gmap str str)
    (from_email : option str) (cfg : Env.EmailConfig)
    (message_id link : str) (gmail_msg_id : option str) :
  Env.init int env_file environ from_email = Env.Returns cfg ->
  message_id <> [] ->
  _get_web_link int' (Env.provider cfg) message_id gmail_msg_id = OK link ->
  exists p, p ∈ web_link_prefixes /\ p `prefix_of` link.
Proof.
  unfold Env.init. intros H Hid Hlink.
  apply and_then_Returns in H as (environ' & _ & H).
  apply init_loaded_Returns in H as (provider_config & Hs & _).
  unfold _get_web_link in Hlink.
  destruct (gmail_numeric_id int' (Env.provider cfg) gmail_msg_id) as [n|].
  { injection Hlink as <-.
    exists (py "https://mail.google.com/mail/u/0/#").
    split; [unfold web_link_prefixes; set_solver|].
    exists (py "inbox/" ++ format_x n). reflexivity. }
  destruct message_id as [|c message_id]; [done|]. cbn [truthy negb] in Hlink.
  cbv zeta in Hlink.
  apply provider_settings_lookup in Hs as [(Hp & _)|(_ & [Hp|Hp] & _)];
    rewrite Hp in Hlink.
  - change (str_eqb (py "gmail") (py "gmail")) with true in Hlink.
    cbv iota in Hlink.
    apply bind_OK in Hlink as (q & _ & Hlink). injection Hlink as <-.
    exists (py "https://mail.google.com/mail/u/0/#").
    split; [unfold web_link_prefixes; set_solver|].
    exists (py "search/rfc822msgid%3A" ++ q). reflexivity.
  - change (str_eqb (py "zoho") (py "gmail")) with false in Hlink.
    change (str_eqb (py "zoho") (py "zoho")) with true in Hlink.
    cbv iota in Hlink. injection Hlink as <-.
    exists (py "https://mail.zoho.com/zm/#search/msgid/").
    split; [unfold web_link_prefixes; set_solver|].
    eexists. reflexivity.
  - change (str_eqb (py "fastmail") (py "gmail")) with false in Hlink.
    change (str_eqb (py "fastmail") (py "zoho")) with false in Hlink.
    change (str_eqb (py "fastmail") (py "fastmail")) with true in Hlink.
    cbv iota in Hlink. injection Hlink as <-.
    exists (py "https://app.fastmail.com/mail/search:msgid:").
    split; [unfold web_link_prefixes; set_solver|].
    eexists. reflexivity.
Qed.

Lemma web_link_of_valid_config_witness :
  exists cfg link,
    Env.init sample_int (Some sample_env_lines) sample_environ None
    = Env.Returns cfg
    /\ _get_web_link sample_int (Env.provider cfg) (py "<a@b>") None = OK link
    /\ exists p, p ∈ web_link_prefixes /\ p `prefix_of` link.
Proof.
  eexists. eexists. split; [vm_compute; reflexivity|].
  split; [vm_compute; reflexivity|].
  eapply (web_link_of_valid_config sample_int sample_int
            (Some sample_env_lines) sample_environ None _ (py "<a@b>") _ None);
    [vm_compute; reflexivity | discriminate | vm_compute; reflexivity].
Defined.

(** ** The header of an attached file *)



(** ** The unsubscribe command *)

Section UnsubscribeCommand.

Import Unsubscribe.

Lemma found_snoc (emails : list email_data) (e : email_data) :
  found (emails ++ [e]) = found_step (found emails) e.
Proof. unfold found. by rewrite fold_left_app. Qed.

Lemma has_sender_elem (found_links : list (str * entry)) (sender : str) :
  has_sender found_links sender = true
  <-> exists x, (sender, x) ∈ found_links.
Proof.
  unfold has_sender. rewrite existsb_exists. split.
  - intros ([k x] & Hin & Heq). apply bool_decide_eq_true_1 in Heq as ->.
    exists x. by apply list_elem_of_In.
  - intros [x Hin]. exists (sender, x). split; [by apply list_elem_of_In|].
    by apply bool_decide_eq_true_2.
Qed.

Lemma found_step_fst (st : list (str * entry) * list str) (e : email_data) :
  (found_step st e).1
  = if negb (bool_decide (unsubscribe_links e = []))
       && negb (has_sender st.1 (from_ e))
    then st.1 ++ [(from_ e, entry_of e)] else st.1.
Proof.
  destruct st as [f a]. unfold found_step.
  destruct (unsubscribe_links e); simpl; [reflexivity|].
  by destruct (has_sender f (from_ e)).
Qed.

(** The senders of [found_links] are those of the emails with links. *)
Lemma found_senders (emails : list email_data) (sender : str) :
  has_sender (found emails).1 sender = true
  <-> exists e, e ∈ emails /\ from_ e = sender /\ unsubscribe_links e <> [].
Proof.
  induction emails as [|e emails IH] using rev_ind.
  - split; [discriminate|]. intros (e & He & _). by apply elem_of_nil in He.
  - rewrite found_snoc, found_step_fst.
    case_bool_decide as Hl; simpl.
    { rewrite IH. split; intros (e' & He' & Hs & Hn).
      - exists e'. rewrite elem_of_app. auto.
      - apply elem_of_app in He' as [He'|He']; [by exists e'|].
        apply list_elem_of_singleton in He' as ->. done. }
    destruct (has_sender (found emails).1 (from_ e)) eqn:Hhas; simpl.
    { rewrite IH. split; intros (e' & He' & Hs & Hn).
      - exists e'. rewrite elem_of_app. auto.
      - apply elem_of_app in He' as [He'|He']; [by exists e'|].
        apply list_elem_of_singleton in He' as ->.
        rewrite Hs in Hhas. by apply IH in Hhas. }
    rewrite has_sender_elem. setoid_rewrite elem_of_app.
    rewrite has_sender_elem in IH. split.
    + intros (x & [Hin|Hin]).
      * destruct IH as [IH _]. destruct IH as (e' & ? & ? & ?); [by exists x|].
        exists e'. auto.
      * apply list_elem_of_singleton in Hin. injection Hin as Hs _.
        exists e. split; [right; by apply list_elem_of_singleton|done].
    + intros (e' & [He'|He'] & Hs & Hn).
      * destruct IH as [_ IH]. destruct IH as [x Hx]; [by exists e'|].
        exists x. by left.
      * apply list_elem_of_singleton in He' as ->. exists (entry_of e).
        right. apply list_elem_of_singleton. by rewrite Hs.
Qed.

Lemma no_sender_before (emails : list email_data) (sender : str) :
  has_sender (found emails).1 sender = false
  <-> Forall (fun e => unsubscribe_links e = [] \/ from_ e <> sender) emails.
Proof.
  rewrite <- not_true_iff_false, found_senders, Forall_forall. split.
  - intros Hno e He.
    destruct (unsubscribe_links e) eqn:Hl; [by left|]. right.
    intros Hs. apply Hno. exists e. rewrite Hl. done.
  - intros Hall (e & He & Hs & Hn).
    destruct (Hall e He) as [?|?]; done.
Qed.

Lemma found_entry (emails : list email_data) (sender : str) (x : entry) :
  (sender, x) ∈ (found emails).1
  <-> exists before e after,
        emails = before ++ e :: after
        /\ from_ e = sender /\ unsubscribe_links e <> []
        /\ x = entry_of e
        /\ Forall (fun e' => unsubscribe_links e' = [] \/ from_ e' <> sender)
             before.
Proof.
  induction emails as [|e emails IH] using rev_ind.
  - split; [intros H; by apply elem_of_nil in H|].
    intros (before & e & after & H & _). by destruct before.
  - rewrite found_snoc, found_step_fst. split.
    + intros Hin.
      assert (Hcases : (sender, x) ∈ (found emails).1
                       \/ (unsubscribe_links e <> []
                           /\ has_sender (found emails).1 (from_ e) = false
                           /\ (sender, x) = (from_ e, entry_of e))).
      { case_bool_decide as Hl; simpl in Hin; [by left|].
        destruct (has_sender (found emails).1 (from_ e)) eqn:Hhas;
          simpl in Hin; [by left|].
        apply elem_of_app in Hin as [Hin|Hin]; [by left|].
        apply list_elem_of_singleton in Hin. by right. }
      destruct Hcases as [Hold|(Hl & Hhas & Heq)].
      * apply IH in Hold as (before & e0 & after & -> & H).
        exists before, e0, (after ++ [e]).
        split; [by rewrite <- app_assoc|exact H].
      * injection Heq as -> ->.
        exists emails, e, []. repeat (split; [done|]).
        by apply no_sender_before.
    + intros (before & e0 & after & Heq & Hs & Hl & Hx & Hall).
      destruct after as [|a after _] using rev_ind.
      * apply app_inj_tail in Heq as [-> ->].
        rewrite bool_decide_eq_false_2 by done.
        rewrite Hs, (proj2 (no_sender_before _ _) Hall). simpl.
        apply elem_of_app. right. apply list_elem_of_singleton. by subst.
      * rewrite app_comm_cons, app_assoc in Heq.
        apply app_inj_tail in Heq as [-> ->].
        assert (Hold : (sender, x) ∈ (found (before ++ e0 :: after)).1).
        { apply IH. exists before, e0, after. done. }
        destruct (_ && _); [|exact Hold].
        apply elem_of_app. by left.
Qed.

(** X16: the unsubscribe command keeps, for each sender, the first email in
    the order read that has unsubscribe links: a sender and an entry are in
    [found_links] exactly when the entry is that of an email from the sender
    with links, before which no email from this sender has any. *)
Theorem found_links_first_per_sender (emails : list email_data)
    (sender : str) (x : entry) :
  (sender, x) ∈ (found emails).1
  <-> exists before e after,
        emails = before ++ e :: after
        /\ from_ e = sender /\ unsubscribe_links e <> []
        /\ x = entry_of e
        /\ Forall (fun e' => unsubscribe_links e' = [] \/ from_ e' <> sender)
             before.
Proof. apply found_entry. Qed.

Lemma found_http_links (emails : list email_data) :
  (found emails).2
  = flat_map (fun item => http_links (links item.2)) (found emails).1
  /\ NoDup (found emails).1.*1.
Proof.
  induction emails as [|e emails [IH1 IH2]] using rev_ind.
  - split; [reflexivity | constructor].
  - rewrite found_snoc.
    destruct (found emails) as [f a] eqn:Hf. simpl in IH1, IH2.
    unfold found_step.
    destruct (unsubscribe_links e) as [|l ls] eqn:Hl; [by split|].
    destruct (has_sender f (from_ e)) eqn:Hhas; [by split|]. simpl. split.
    + rewrite flat_map_app, IH1. simpl. by rewrite app_nil_r, Hl.
    + rewrite fmap_app. apply NoDup_app. split; [exact IH2|].
      split; [|apply NoDup_singleton].
      intros k Hk Hk'. apply list_elem_of_singleton in Hk' as ->.
      apply list_elem_of_fmap in Hk as ([k x] & Hkx & Hin). simpl in Hkx.
      subst k. apply not_true_iff_false in Hhas. apply Hhas.
      apply has_sender_elem. by exists x.
Qed.

(** X17: the links the unsubscribe command may open are the links of
    [found_links] that start with http, in the order of the dictionary, and
    the dictionary has one entry for a sender. *)
Theorem all_http_links_of_found (emails : list email_data) :
  (found emails).2
  = flat_map (fun item => http_links (links item.2)) (found emails).1
  /\ NoDup (found emails).1.*1.
Proof. apply found_http_links. Qed.

(** X18: the link the unsubscribe command opens starts with http and is an
    unsubscribe link of one of the emails read; a mailto link is never
    opened. *)
Theorem link_to_open_is_http (emails : list email_data) (link : str) :
  link_to_open emails = Some link ->
  startswith (py "http") link = true
  /\ startswith (py "mailto:") link = false
  /\ exists e, e ∈ emails /\ link ∈ unsubscribe_links e.
Proof.
  unfold link_to_open. intros H.
  assert (Hin : link ∈ (found emails).2).
  { destruct (found emails).2; [discriminate|]. injection H as ->.
    apply list_elem_of_here. }
  rewrite (proj1 (found_http_links emails)) in Hin.
  apply list_elem_of_In, in_flat_map in Hin as ([sender x] & Hx & Hin).
  apply filter_In in Hin as [Hin Hhttp]. simpl in Hin.
  apply list_elem_of_In, found_entry in Hx
    as (before & e & after & -> & _ & _ & -> & _).
  split; [exact Hhttp|]. split.
  - destruct link as [|c link]; [discriminate|].
    change (py "http") with (0x68 :: py "ttp") in Hhttp.
    change (py "mailto:") with (0x6D :: py "ailto:").
    cbn [startswith] in Hhttp |- *.
    apply andb_true_iff in Hhttp as [Hc _]. apply N.eqb_eq in Hc as <-.
    reflexivity.
  - exists e. split; [|by apply list_elem_of_In].
    apply elem_of_app. right. apply list_elem_of_here.
Qed.

Lemma link_to_open_is_http_witness :
  startswith (py "http") (py "http://c.test/u") = true
  /\ startswith (py "mailto:") (py "http://c.test/u") = false
  /\ exists e, e ∈ sample_emails /\ py "http://c.test/u" ∈ unsubscribe_links e.
Proof. apply (link_to_open_is_http sample_emails). reflexivity. Defined.

End UnsubscribeCommand.

(** ** The IMAP session *)

Section ImapSession.

Import Imap.

Variable returns : list (call * bool) -> call -> bool.
Variable config : Env.EmailConfig.

Lemma store_each_calls (flags : str) (email_ids : list str) (r r' : reader)
    (result : option unit) :
  store_each returns flags email_ids r = (r', result) ->
  imap r' = imap r
  /\ exists made,
       calls r' = calls r ++ made
       /\ Forall (is_store flags) made
       /\ (result = Some tt <-> stored flags email_ids made).
Proof.
  revert r result.
  induction email_ids as [|email_id email_ids IH]; intros r result.
  - intros [= <- <-]. split; [reflexivity|]. exists [].
    rewrite app_nil_r. repeat split; constructor.
  - cbn [store_each]. unfold bind at 1, lift.
    destruct (utf8_encode email_id) as [message_set|e] eqn:Henc.
    2:{ intros [= <- <-]. split; [reflexivity|]. exists [].
        rewrite app_nil_r. repeat split; [constructor | discriminate|].
        intros H. inversion H. }
    unfold bind at 1, perform at 1.
    destruct (returns (calls r) (store message_set (py "+FLAGS") flags))
      eqn:Hok.
    + intros H. apply IH in H as (Himap & made & Hcalls & Hall & Hres).
      cbn [imap calls] in Himap, Hcalls. split; [exact Himap|].
      exists ((store message_set (py "+FLAGS") flags, true) :: made).
      rewrite Hcalls, <- app_assoc. split; [reflexivity|]. split.
      * constructor; [by exists message_set | exact Hall].
      * rewrite Hres. split.
        -- intros Hr. constructor; [by exists message_set | exact Hr].
        -- intros Hr. by inversion Hr.
    + intros [= <- <-]. split; [reflexivity|].
      exists [(store message_set (py "+FLAGS") flags, false)].
      repeat split; [|discriminate|].
      * constructor; [by exists message_set | constructor].
      * intros H. inversion H as [|? ? ? ? (? & _ & Hc)]. discriminate.
Qed.

(** The loop either stores every id, or stops at the first id that
    cannot be encoded or whose store raises. *)
Lemma store_each_trace (flags : str) (email_ids : list str) (r r' : reader)
    (result : option unit) :
  store_each returns flags email_ids r = (r', result) ->
  exists made,
    calls r' = calls r ++ made
    /\ ((result = Some tt /\ stored flags email_ids made)
        \/ (result = None /\ stopped flags email_ids made)).
Proof.
  revert r result.
  induction email_ids as [|email_id email_ids IH]; intros r result.
  - intros [= <- <-]. exists []. rewrite app_nil_r.
    split; [reflexivity|]. left. split; [reflexivity | constructor].
  - cbn [store_each]. unfold bind at 1, lift.
    destruct (utf8_encode email_id) as [message_set|e] eqn:Henc.
    2:{ intros [= <- <-]. exists []. rewrite app_nil_r.
        split; [reflexivity|]. right. split; [reflexivity|].
        exists [], email_id, email_ids, [].
        split; [reflexivity|]. split; [constructor|]. left. eauto. }
    unfold bind at 1, perform at 1.
    destruct (returns (calls r) (store message_set (py "+FLAGS") flags))
      eqn:Hok.
    + intros H. apply IH in H as (made & Hcalls & Hres).
      cbn [calls] in Hcalls.
      exists ((store message_set (py "+FLAGS") flags, true) :: made).
      rewrite Hcalls, <- app_assoc. split; [reflexivity|].
      destruct Hres as [[-> Hall]|[-> Hstop]]; [left | right];
        (split; [reflexivity|]).
      * constructor; [by exists message_set | exact Hall].
      * destruct Hstop as (done & id & rest & done_stores & -> & Hd & Hlast).
        exists (email_id :: done), id, rest,
          ((store message_set (py "+FLAGS") flags, true) :: done_stores).
        split; [reflexivity|].
        split; [constructor; [by exists message_set | exact Hd]|].
        destruct Hlast as [[He ->]|(b & Hb & ->)];
          [left; by split | right; by exists b].
    + intros [= <- <-].
      exists [(store message_set (py "+FLAGS") flags, false)].
      split; [reflexivity|]. right. split; [reflexivity|].
      exists [], email_id, email_ids, [].
      split; [reflexivity|]. split; [constructor|].
      right. by exists message_set.
Qed.

Lemma stopped_nonempty (flags : str) (made : list (call * bool)) :
  ~ stopped flags [] made.
Proof. intros (done & id & rest & ? & H & _). by destruct done. Qed.

Lemma mark_as_read_calls (email_ids : list str) (r r' : reader)
    (result : option bool) :
  imap r = true ->
  mark_as_read returns config email_ids r = (r', result) ->
  imap r' = true
  /\ exists made,
       calls r' = calls r ++ made
       /\ result <> None
       /\ Forall (is_store (py "\Seen")) made
       /\ (result = Some true <-> stored (py "\Seen") email_ids made).
Proof.
  intros Himap. unfold mark_as_read, connect_if_needed, bind at 1.
  rewrite Himap. unfold ret at 1, try_except, bind at 1.
  destruct (store_each returns (py "\Seen") email_ids r)
    as [r1 result1] eqn:Hstores.
  apply store_each_calls in Hstores as (Hi & made & Hcalls & Hall & Hres).
  rewrite Himap in Hi.
  destruct result1 as [[]|]; unfold ret; intros [= <- <-];
    (split; [exact Hi|]); exists made;
    (split; [exact Hcalls|]); (split; [discriminate|]);
    (split; [exact Hall|]).
  - split; [intros _; by apply Hres | reflexivity].
  - split; [discriminate|]. intros H. apply Hres in H. discriminate.
Qed.

(** X19: on a connected reader [EmailReader.delete] raises nothing. It
    stores the Deleted flag for the ids in their order. When every id was
    encoded and every store returned, it calls expunge as its last call
    and returns whether expunge returned; so with no id at all it calls
    expunge and nothing else. When an id cannot be encoded or its store
    raises, it stops there, calls no expunge and returns False; the flags
    stored before stay. *)
Theorem delete_expunges_after_all_stores (email_ids : list str)
    (r r' : reader) (result : option bool) :
  imap r = true ->
  delete returns config email_ids r = (r', result) ->
  exists made,
    calls r' = calls r ++ made
    /\ ((exists stores ok,
           stored (py "\Deleted") email_ids stores
           /\ made = stores ++ [(expunge, ok)]
           /\ result = Some ok)
        \/ (stopped (py "\Deleted") email_ids made /\ result = Some false))
    /\ (email_ids = [] ->
        exists ok, made = [(expunge, ok)] /\ result = Some ok).
Proof.
  intros Himap. unfold delete, connect_if_needed, bind at 1.
  rewrite Himap. unfold ret at 1, try_except, bind at 1.
  destruct (store_each returns (py "\Deleted") email_ids r)
    as [r1 result1] eqn:Hstores.
  apply store_each_trace in Hstores
    as (stores & Hcalls & [[-> Hstored]|[-> Hstop]]).
  - unfold bind, perform, ret.
    destruct (returns (calls r1) expunge) eqn:Hok; intros [= <- <-];
      cbn [calls]; eexists;
      (split; [by rewrite Hcalls, <- app_assoc|]);
      (split; [left; by eexists stores, _|]);
      intros ->; inversion Hstored; subst; by eexists.
  - unfold ret. intros [= <- <-]. exists stores.
    split; [exact Hcalls|]. split; [right; by split|].
    intros ->. by apply stopped_nonempty in Hstop.
Qed.

(** X20: on a connected reader [EmailReader.mark_as_read] raises nothing and
    makes no call but stores of the Seen flag; it returns True exactly when
    a store returned for every message, in the order given. *)
Theorem mark_as_read_only_stores (email_ids : list str) (r r' : reader)
    (result : option bool) :
  imap r = true ->
  mark_as_read returns config email_ids r = (r', result) ->
  exists made,
    calls r' = calls r ++ made
    /\ result <> None
    /\ Forall (is_store (py "\Seen")) made
    /\ (result = Some true <-> stored (py "\Seen") email_ids made).
Proof.
  intros Himap H.
  by destruct (mark_as_read_calls _ _ _ _ Himap H) as [_ ?].
Qed.

Lemma thrifty_ret {A} (a : A) : thrifty (ret a).
Proof. intros r. reflexivity. Qed.

Lemma thrifty_lift {A} (x : result A) : thrifty (lift x).
Proof. intros r. unfold lift. by destruct x. Qed.

Lemma thrifty_bind {A B} (m : io A) (k : A -> io B) :
  thrifty m -> (forall a, thrifty (k a)) -> thrifty (bind m k).
Proof.
  intros Hm Hk r. unfold bind. specialize (Hm r).
  destruct (m r) as [r1 [a|]]; [|exact Hm].
  etrans; [apply Hk | exact Hm].
Qed.

Lemma thrifty_try_except {A} (body handler : io A) :
  thrifty body -> thrifty handler -> thrifty (try_except body handler).
Proof.
  intros Hb Hh r. unfold try_except. specialize (Hb r).
  destruct (body r) as [r1 [a|]]; [exact Hb|].
  etrans; [apply Hh | exact Hb].
Qed.

Lemma thrifty_try_finally {A} (body : io A) (final : io unit) :
  thrifty body -> thrifty final -> thrifty (try_finally body final).
Proof.
  intros Hb Hf r. unfold try_finally. specialize (Hb r).
  destruct (body r) as [r1 result]. specialize (Hf r1).
  destruct (final r1) as [r2 [u|]]; (etrans; [exact Hf | exact Hb]).
Qed.

Lemma connections_snoc (made : list (call * bool)) (c : call * bool) :
  connections (made ++ [c])
  = (connections made + (if opened c then 1 else 0))%nat.
Proof.
  unfold connections. rewrite List.filter_app, length_app. simpl.
  by destruct (opened c).
Qed.

Lemma thrifty_perform (c : call) :
  (forall host port, c <> IMAP4_SSL host port) -> thrifty (perform returns c).
Proof.
  intros Hc r. unfold perform, budget. cbn [fst imap calls].
  rewrite connections_snoc.
  replace (opened (c, returns (calls r) c)) with false; [lia|].
  destruct c; try reflexivity. by destruct (Hc host port).
Qed.

Lemma thrifty_connect_if_needed : thrifty (connect_if_needed returns config).
Proof.
  intros r. unfold connect_if_needed.
  destruct (imap r) eqn:Himap; [reflexivity|].
  unfold connect, bind at 1, perform at 1.
  destruct (returns (calls r) _) eqn:Hok.
  - unfold bind at 1, set_imap.
    etrans.
    + apply (thrifty_bind (perform returns _) (fun _ => perform returns _)).
      * by apply thrifty_perform.
      * intros _. by apply thrifty_perform.
    + unfold budget. cbn [imap calls]. rewrite connections_snoc, Himap.
      simpl. lia.
  - cbn [fst]. unfold budget. cbn [imap calls].
    rewrite connections_snoc, Himap. simpl. lia.
Qed.

Lemma thrifty_store_each (flags : str) (email_ids : list str) :
  thrifty (store_each returns flags email_ids).
Proof.
  induction email_ids as [|email_id email_ids IH]; [apply thrifty_ret|].
  cbn [store_each]. apply thrifty_bind; [apply thrifty_lift|].
  intros message_set. apply thrifty_bind; [by apply thrifty_perform|].
  intros _. exact IH.
Qed.

Lemma thrifty_mark_as_read (email_ids : list str) :
  thrifty (mark_as_read returns config email_ids).
Proof.
  apply thrifty_bind; [apply thrifty_connect_if_needed|]. intros _.
  apply thrifty_try_except; [|apply thrifty_ret].
  apply thrifty_bind; [apply thrifty_store_each|]. intros _.
  apply thrifty_ret.
Qed.

Lemma thrifty_delete (email_ids : list str) :
  thrifty (delete returns config email_ids).
Proof.
  apply thrifty_bind; [apply thrifty_connect_if_needed|]. intros _.
  apply thrifty_try_except; [|apply thrifty_ret].
  apply thrifty_bind; [apply thrifty_store_each|]. intros _.
  apply thrifty_bind; [by apply thrifty_perform|]. intros _.
  apply thrifty_ret.
Qed.

Lemma thrifty_disconnect : thrifty (disconnect returns).
Proof.
  intros r. unfold disconnect. destruct (imap r); [|reflexivity].
  apply (thrifty_bind (perform returns _) (fun _ => perform returns _)).
  - by apply thrifty_perform.
  - intros _. by apply thrifty_perform.
Qed.

Lemma thrifty_run (m : method) (r : reader) :
  (budget (run returns config m r) <= budget r)%nat.
Proof.
  destruct m; simpl.
  - apply thrifty_mark_as_read.
  - apply thrifty_delete.
  - apply thrifty_try_finally;
      [apply thrifty_mark_as_read | apply thrifty_disconnect].
  - apply thrifty_delete.
  - apply thrifty_disconnect.
Qed.

(** X21: a reader opens at most one connection in its life: whatever methods
    are run on a new client, and whatever they return or raise, at most one
    call of IMAP4_SSL returns. After a disconnect nothing connects again. *)
Theorem connects_at_most_once (ms : list method) :
  (connections (calls (run_all returns config ms new_reader)) <= 1)%nat.
Proof.
  assert (H : forall r,
             (budget (run_all returns config ms r) <= budget r)%nat).
  { induction ms as [|m ms IH]; intros r; [reflexivity|].
    etrans; [apply IH | apply thrifty_run]. }
  specialize (H new_reader). unfold budget in H at 1.
  change (budget new_reader) with 1%nat in H. lia.
Qed.

Lemma perform_imap (c : call) (r : reader) :
  imap (perform returns c r).1 = imap r.
Proof. reflexivity. Qed.

Lemma store_each_imap (flags : str) (email_ids : list str) (r : reader) :
  imap (store_each returns flags email_ids r).1 = imap r.
Proof.
  destruct (store_each returns flags email_ids r) as [r' result] eqn:H.
  by apply store_each_calls in H as [? _].
Qed.

Lemma connect_if_needed_returns (r r' : reader) :
  connect_if_needed returns config r = (r', Some tt) -> imap r' = true.
Proof.
  unfold connect_if_needed. destruct (imap r) eqn:Himap.
  - by intros [= <-].
  - unfold connect, bind at 1, perform at 1.
    destruct (returns (calls r) _); [|discriminate].
    unfold bind at 1, set_imap. unfold bind, perform.
    destruct (returns _ _); [|discriminate].
    destruct (returns _ _); [|discriminate].
    by intros [= <-].
Qed.

Lemma mark_as_read_returns (email_ids : list str) (r r' : reader) (b : bool) :
  mark_as_read returns config email_ids r = (r', Some b) -> imap r' = true.
Proof.
  unfold mark_as_read, bind at 1.
  destruct (connect_if_needed returns config r) as [r1 [[]|]] eqn:Hc;
    [|discriminate].
  apply connect_if_needed_returns in Hc.
  unfold try_except, bind at 1.
  pose proof (store_each_imap (py "\Seen") email_ids r1) as Hi.
  destruct (store_each returns (py "\Seen") email_ids r1) as [r2 [[]|]];
    unfold ret; intros [= <- _]; by rewrite <- Hc.
Qed.

(** X22: when [EmailClient.mark_as_read] returns a value, its last two calls
    were close and logout and both returned; [self.imap] is still set, so
    that nothing the reader does later connects again. *)
Theorem client_mark_as_read_disconnects (email_ids : list str)
    (r r' : reader) (b : bool) :
  client_mark_as_read returns config email_ids r = (r', Some b) ->
  imap r' = true
  /\ exists before, calls r' = before ++ [(close, true); (logout, true)].
Proof.
  unfold client_mark_as_read, try_finally.
  destruct (mark_as_read returns config email_ids r) as [r1 result] eqn:Hm.
  unfold disconnect. destruct (imap r1) eqn:Himap.
  - unfold bind, perform.
    destruct (returns (calls r1) close) eqn:Hclose; [|discriminate].
    cbn [calls imap].
    destruct (returns (calls r1 ++ [(close, true)]) logout) eqn:Hlogout;
      [|discriminate].
    intros [= <- _]. cbn [calls imap]. split; [exact Himap|].
    exists (calls r1). by rewrite <- app_assoc.
  - unfold ret. intros [= <- ->].
    apply mark_as_read_returns in Hm. congruence.
Qed.

End ImapSession.

Lemma delete_expunges_after_all_stores_witness :
  let run := Imap.delete (Imap.lost_after 3) Imap.sample_config []
               Imap.connected in
  exists made,
    Imap.calls run.1 = Imap.calls Imap.connected ++ made
    /\ ((exists stores ok,
           Imap.stored (py "\Deleted") [] stores
           /\ made = stores ++ [(Imap.expunge, ok)]
           /\ run.2 = Some ok)
        \/ (Imap.stopped (py "\Deleted") [] made /\ run.2 = Some false))
    /\ (@nil str = [] ->
        exists ok, made = [(Imap.expunge, ok)] /\ run.2 = Some ok).
Proof.
  apply (delete_expunges_after_all_stores (Imap.lost_after 3)
           Imap.sample_config [] Imap.connected); reflexivity.
Defined.

Lemma mark_as_read_only_stores_witness :
  let run := Imap.mark_as_read (Imap.lost_after 1) Imap.sample_config
               [py "1"; py "2"; py "3"] Imap.connected in
  exists made,
    Imap.calls run.1 = Imap.calls Imap.connected ++ made
    /\ run.2 <> None
    /\ Forall (Imap.is_store (py "\Seen")) made
    /\ (run.2 = Some true
        <-> Imap.stored (py "\Seen") [py "1"; py "2"; py "3"] made).
Proof.
  apply (mark_as_read_only_stores (Imap.lost_after 1) Imap.sample_config
           [py "1"; py "2"; py "3"] Imap.connected); reflexivity.
Defined.

Lemma client_mark_as_read_disconnects_witness :
  exists r',
    Imap.client_mark_as_read (Imap.lost_after 9) Imap.sample_config
      [py "7"] Imap.new_reader = (r', Some true)
    /\ Imap.imap r' = true
    /\ exists before,
         Imap.calls r'
         = before ++ [(Imap.close, true); (Imap.logout, true)].
Proof.
  eexists. split; [vm_compute; reflexivity|].
  eapply (client_mark_as_read_disconnects (Imap.lost_after 9)
            Imap.sample_config [py "7"] Imap.new_reader).
  vm_compute. reflexivity.
Defined.

(** ** Message numbers: decoded by [_fetch_email], encoded by
    [mark_as_read] and [delete] *)

Lemma lor_shiftl_add (a b k : N) :
  b < 2 ^ k -> N.lor (N.shiftl a k) b = a * 2 ^ k + b.
Proof.
  intros Hb.
  assert (Hland : N.land (N.shiftl a k) b = 0).
  { apply N.bits_inj. intros n. rewrite N.land_spec, N.bits_0.
    destruct (N.lt_ge_cases n k) as [Hn|Hn].
    - by rewrite N.shiftl_spec_low.
    - rewrite <- (N.mod_small b (2 ^ k)) by exact Hb.
      rewrite N.mod_pow2_bits_high by exact Hn. apply andb_false_r. }
  rewrite <- N.lxor_lor, <- N.add_nocarry_lxor by exact Hland.
  by rewrite N.shiftl_mul_pow2.
Qed.

Lemma low6_mod (c : N) : low6 c = c mod 64.
Proof. unfold low6. apply (N.land_ones c 6). Qed.

Lemma byte_of_to_N (b : byte) : byte_of (Byte.to_N b) = b.
Proof. unfold byte_of. by rewrite Byte.of_to_N. Qed.

Lemma byte_of_eq (n : N) (b : byte) : n = Byte.to_N b -> byte_of n = b.
Proof. intros ->. apply byte_of_to_N. Qed.

Ltac div_mod_lia := zify; Z.to_euclidean_division_equations; lia.

Lemma lor_tag (tag x k : N) (t : N) :
  tag = N.shiftl t k -> x < 2 ^ k -> N.lor tag x = tag + x.
Proof.
  intros -> Hx. rewrite lor_shiftl_add by exact Hx.
  by rewrite N.shiftl_mul_pow2.
Qed.

Lemma cont_byte_value (c shift : N) :
  Byte.to_N (cont_byte c shift) = 0x80 + (c / 2 ^ shift) mod 64.
Proof.
  unfold cont_byte. rewrite low6_mod, N.shiftr_div_pow2.
  rewrite (lor_tag 0x80 _ 6 2) by (reflexivity || (apply N.mod_lt; lia)).
  apply to_N_byte_of.
  assert ((c / 2 ^ shift) mod 64 < 64) by (apply N.mod_lt; lia). lia.
Qed.

Lemma cont_byte_eq (c shift : N) (b : byte) :
  0x80 + (c / 2 ^ shift) mod 64 = Byte.to_N b -> cont_byte c shift = b.
Proof.
  intros H. rewrite <- cont_byte_value in H.
  rewrite <- (byte_of_to_N b), <- H. symmetry. apply byte_of_to_N.
Qed.

Lemma lead_byte_eq (tag k t c shift : N) (b : byte) :
  tag = N.shiftl t k -> c / 2 ^ shift < 2 ^ k ->
  tag + c / 2 ^ shift = Byte.to_N b ->
  byte_of (N.lor tag (N.shiftr c shift)) = b.
Proof.
  intros Htag Hlt H. rewrite N.shiftr_div_pow2.
  rewrite (lor_tag tag _ k t Htag Hlt). by apply byte_of_eq.
Qed.

Lemma encode_1 (b0 : byte) (s : str) (r : bytes) :
  Byte.to_N b0 < 0x80 ->
  utf8_encode s = OK r ->
  utf8_encode (Byte.to_N b0 :: s) = OK (b0 :: r).
Proof.
  intros H0 Hs. cbn [utf8_encode]. rewrite Hs.
  rewrite (proj2 (N.leb_gt _ _)) by lia.
  rewrite (proj2 (N.ltb_ge _ _)) by lia.
  rewrite (proj2 (N.ltb_lt _ _)) by lia.
  simpl. by rewrite byte_of_to_N.
Qed.

Lemma encode_2 (b0 b1 : byte) (s : str) (r : bytes) :
  0xC2 <= Byte.to_N b0 < 0xE0 ->
  is_cont (Byte.to_N b1) = true ->
  utf8_encode s = OK r ->
  utf8_encode (N.lor (N.shiftl (N.land (Byte.to_N b0) 0x1F) 6)
                 (low6 (Byte.to_N b1)) :: s)
  = OK (b0 :: b1 :: r).
Proof.
  intros H0 H1 Hs. unfold is_cont in H1.
  apply andb_true_iff in H1 as [H1 H1'].
  apply N.leb_le in H1. apply N.ltb_lt in H1'.
  set (c0 := Byte.to_N b0) in *. set (c1 := Byte.to_N b1) in *.
  change (N.land c0 0x1F) with (N.land c0 (N.ones 5)).
  rewrite low6_mod, (N.land_ones c0 5).
  rewrite lor_shiftl_add by (apply N.mod_lt; lia).
  change (2 ^ 5) with 32. change (2 ^ 6) with 64.
  set (c := c0 mod 32 * 64 + c1 mod 64).
  assert (Hc : 0x80 <= c < 0x800) by (unfold c; div_mod_lia).
  cbn [utf8_encode]. rewrite Hs.
  rewrite (proj2 (N.leb_gt 0xD800 c)) by lia.
  rewrite (proj2 (N.ltb_ge 0x10FFFF c)) by lia.
  rewrite (proj2 (N.ltb_ge c 0x80)) by lia.
  rewrite (proj2 (N.ltb_lt c 0x800)) by lia.
  simpl. f_equal. f_equal; [|f_equal].
  - apply (lead_byte_eq 0xC0 5 6); [reflexivity| |];
      change (2 ^ 6) with 64; change (2 ^ 5) with 32;
      fold c0; unfold c; div_mod_lia.
  - apply cont_byte_eq. change (2 ^ 0) with 1. fold c1. unfold c.
    div_mod_lia.
Qed.

Lemma is_cont_range (c : N) : is_cont c = true -> 0x80 <= c < 0xC0.
Proof.
  unfold is_cont. intros H. apply andb_true_iff in H as [H1 H2].
  apply N.leb_le in H1. apply N.ltb_lt in H2. lia.
Qed.

Lemma second_of_3_range (c0 c1 : N) :
  second_of_3 c0 c1 = true ->
  0x80 <= c1 < 0xC0 /\ (c0 = 0xE0 -> 0xA0 <= c1) /\ (c0 = 0xED -> c1 < 0xA0).
Proof.
  unfold second_of_3. intros H. apply andb_true_iff in H as [H1 H2].
  apply is_cont_range in H1. split; [exact H1|].
  apply negb_true_iff in H2.
  destruct (N.ltb_spec c1 0xA0); apply N.eqb_neq in H2; split; lia.
Qed.

Lemma second_of_4_range (c0 c1 : N) :
  second_of_4 c0 c1 = true ->
  0x80 <= c1 < 0xC0 /\ (c0 = 0xF0 -> 0x90 <= c1) /\ (c0 = 0xF4 -> c1 < 0x90).
Proof.
  unfold second_of_4. intros H. apply andb_true_iff in H as [H1 H2].
  apply is_cont_range in H1. split; [exact H1|].
  apply negb_true_iff in H2.
  destruct (N.ltb_spec c1 0x90); apply N.eqb_neq in H2; split; lia.
Qed.

Lemma encode_3 (b0 b1 b2 : byte) (s : str) (r : bytes) :
  0xE0 <= Byte.to_N b0 < 0xF0 ->
  second_of_3 (Byte.to_N b0) (Byte.to_N b1) = true ->
  is_cont (Byte.to_N b2) = true ->
  utf8_encode s = OK r ->
  utf8_encode (N.lor (N.shiftl (N.land (Byte.to_N b0) 0x0F) 12)
                 (N.lor (N.shiftl (low6 (Byte.to_N b1)) 6)
                    (low6 (Byte.to_N b2))) :: s)
  = OK (b0 :: b1 :: b2 :: r).
Proof.
  intros H0 H1 H2 Hs.
  apply second_of_3_range in H1 as (H1 & Hlow & Hsur).
  apply is_cont_range in H2.
  set (c0 := Byte.to_N b0) in *. set (c1 := Byte.to_N b1) in *.
  set (c2 := Byte.to_N b2) in *.
  change (N.land c0 0x0F) with (N.land c0 (N.ones 4)).
  rewrite !low6_mod, (N.land_ones c0 4).
  rewrite (lor_shiftl_add (c1 mod 64) (c2 mod 64) 6)
    by (apply N.mod_lt; lia).
  rewrite lor_shiftl_add
    by (change (2 ^ 6) with 64; change (2 ^ 12) with 4096; div_mod_lia).
  change (2 ^ 4) with 16. change (2 ^ 6) with 64. change (2 ^ 12) with 4096.
  set (c := c0 mod 16 * 4096 + (c1 mod 64 * 64 + c2 mod 64)).
  assert (Hc : 0x800 <= c < 0x10000 /\ (c < 0xD800 \/ 0xDFFF < c))
    by (unfold c; div_mod_lia).
  cbn [utf8_encode]. rewrite Hs.
  replace ((0xD800 <=? c) && (c <=? 0xDFFF)) with false
    by (symmetry; apply andb_false_iff;
        destruct Hc as [_ [?|?]];
        [left; apply N.leb_gt | right; apply N.leb_gt]; lia).
  rewrite (proj2 (N.ltb_ge 0x10FFFF c)) by lia.
  rewrite (proj2 (N.ltb_ge c 0x80)) by lia.
  rewrite (proj2 (N.ltb_ge c 0x800)) by lia.
  rewrite (proj2 (N.ltb_lt c 0x10000)) by lia.
  simpl. f_equal. f_equal; [|f_equal; [|f_equal]].
  - apply (lead_byte_eq 0xE0 4 14); [reflexivity| |];
      change (2 ^ 12) with 4096; change (2 ^ 4) with 16;
      fold c0; unfold c; div_mod_lia.
  - apply cont_byte_eq. change (2 ^ 6) with 64. fold c1. unfold c.
    div_mod_lia.
  - apply cont_byte_eq. change (2 ^ 0) with 1. fold c2. unfold c.
    div_mod_lia.
Qed.

Lemma encode_4 (b0 b1 b2 b3 : byte) (s : str) (r : bytes) :
  0xF0 <= Byte.to_N b0 < 0xF5 ->
  second_of_4 (Byte.to_N b0) (Byte.to_N b1) = true ->
  is_cont (Byte.to_N b2) = true ->
  is_cont (Byte.to_N b3) = true ->
  utf8_encode s = OK r ->
  utf8_encode (N.lor (N.shiftl (N.land (Byte.to_N b0) 0x07) 18)
                 (N.lor (N.shiftl (low6 (Byte.to_N b1)) 12)
                    (N.lor (N.shiftl (low6 (Byte.to_N b2)) 6)
                       (low6 (Byte.to_N b3)))) :: s)
  = OK (b0 :: b1 :: b2 :: b3 :: r).
Proof.
  intros H0 H1 H2 H3 Hs.
  apply second_of_4_range in H1 as (H1 & Hlow & Hhigh).
  apply is_cont_range in H2. apply is_cont_range in H3.
  set (c0 := Byte.to_N b0) in *. set (c1 := Byte.to_N b1) in *.
  set (c2 := Byte.to_N b2) in *. set (c3 := Byte.to_N b3) in *.
  change (N.land c0 0x07) with (N.land c0 (N.ones 3)).
  rewrite !low6_mod, (N.land_ones c0 3).
  rewrite (lor_shiftl_add (c2 mod 64) (c3 mod 64) 6)
    by (apply N.mod_lt; lia).
  rewrite (lor_shiftl_add (c1 mod 64) _ 12)
    by (change (2 ^ 6) with 64; change (2 ^ 12) with 4096; div_mod_lia).
  rewrite lor_shiftl_add
    by (change (2 ^ 6) with 64; change (2 ^ 12) with 4096;
        change (2 ^ 18) with 262144; div_mod_lia).
  change (2 ^ 3) with 8. change (2 ^ 6) with 64. change (2 ^ 12) with 4096.
  change (2 ^ 18) with 262144.
  set (c := c0 mod 8 * 262144
            + (c1 mod 64 * 4096 + (c2 mod 64 * 64 + c3 mod 64))).
  assert (Hc : 0x10000 <= c <= 0x10FFFF) by (unfold c; div_mod_lia).
  cbn [utf8_encode]. rewrite Hs.
  rewrite (proj2 (N.leb_gt c 0xDFFF)) by lia. rewrite andb_false_r.
  rewrite (proj2 (N.ltb_ge 0x10FFFF c)) by lia.
  rewrite (proj2 (N.ltb_ge c 0x80)) by lia.
  rewrite (proj2 (N.ltb_ge c 0x800)) by lia.
  rewrite (proj2 (N.ltb_ge c 0x10000)) by lia.
  simpl. f_equal. f_equal; [|f_equal; [|f_equal; [|f_equal]]].
  - apply (lead_byte_eq 0xF0 3 30); [reflexivity| |];
      change (2 ^ 18) with 262144; change (2 ^ 3) with 8;
      fold c0; unfold c; div_mod_lia.
  - apply cont_byte_eq. change (2 ^ 12) with 4096. fold c1. unfold c.
    div_mod_lia.
  - apply cont_byte_eq. change (2 ^ 6) with 64. fold c2. unfold c.
    div_mod_lia.
  - apply cont_byte_eq. change (2 ^ 0) with 1. fold c3. unfold c.
    div_mod_lia.
Qed.

Lemma emit_OK (c : codepoint) (k : result str) (s : str) :
  emit c k = OK s -> exists r, k = OK r /\ s = c :: r.
Proof.
  unfold emit. destruct k as [r|e]; simpl; [|discriminate].
  intros [= <-]. by exists r.
Qed.

Lemma decode_then_encode (n : nat) (num : bytes) (s : str) :
  (length num <= n)%nat ->
  utf8_decode Strict num = OK s -> utf8_encode s = OK num.
Proof.
  revert num s. induction n as [|n IH]; intros num s Hlen.
  { destruct num; [|simpl in Hlen; lia]. by intros [= <-]. }
  destruct num as [|b0 r0]; [by intros [= <-]|].
  cbn [utf8_decode]. cbv zeta. cbn [on_error].
  simpl in Hlen.
  destruct (N.ltb_spec (Byte.to_N b0) 0x80) as [H0|H0].
  { intros H. apply emit_OK in H as (r & Hr & ->).
    apply encode_1; [exact H0|]. apply IH; [lia | exact Hr]. }
  destruct (N.ltb_spec (Byte.to_N b0) 0xC2) as [H1|H1]; [discriminate|].
  destruct (N.leb_spec 0xF5 (Byte.to_N b0)) as [H2|H2]; [discriminate|].
  cbn [orb].
  destruct (N.ltb_spec (Byte.to_N b0) 0xE0) as [H3|H3].
  { destruct r0 as [|b1 r1]; [discriminate|].
    destruct (is_cont (Byte.to_N b1)) eqn:Hc1; [|discriminate].
    intros H. apply emit_OK in H as (r & Hr & ->).
    apply encode_2; [lia | exact Hc1 |].
    apply IH; [simpl in Hlen; lia | exact Hr]. }
  destruct (N.ltb_spec (Byte.to_N b0) 0xF0) as [H4|H4].
  { destruct r0 as [|b1 r1]; [discriminate|].
    destruct (second_of_3 (Byte.to_N b0) (Byte.to_N b1)) eqn:Hc1;
      [|discriminate].
    cbn [negb]. destruct r1 as [|b2 r2]; [discriminate|].
    destruct (is_cont (Byte.to_N b2)) eqn:Hc2; [|discriminate].
    intros H. apply emit_OK in H as (r & Hr & ->).
    apply encode_3; [lia | exact Hc1 | exact Hc2 |].
    apply IH; [simpl in Hlen; lia | exact Hr]. }
  destruct r0 as [|b1 r1]; [discriminate|].
  destruct (second_of_4 (Byte.to_N b0) (Byte.to_N b1)) eqn:Hc1;
    [|discriminate].
  cbn [negb]. destruct r1 as [|b2 r2]; [discriminate|].
  destruct (is_cont (Byte.to_N b2)) eqn:Hc2; [|discriminate].
  cbn [negb]. destruct r2 as [|b3 r3]; [discriminate|].
  destruct (is_cont (Byte.to_N b3)) eqn:Hc3; [|discriminate].
  intros H. apply emit_OK in H as (r & Hr & ->).
  apply encode_4; [lia | exact Hc1 | exact Hc2 | exact Hc3 |].
  apply IH; [simpl in Hlen; lia | exact Hr].
Qed.

(** X23: the id of an email, which [_fetch_email] decodes from the message
    number of the server, is encoded by [mark_as_read] and [delete] to that
    message number again. *)
Theorem message_number_round_trip (num : bytes) (email_id : str) :
  utf8_decode Strict num = OK email_id -> utf8_encode email_id = OK num.
Proof. apply (decode_then_encode (length num)). lia. Qed.

Lemma message_number_round_trip_witness :
  utf8_encode (py "1042") = OK (list_byte_of_string "1042").
Proof.
  apply (message_number_round_trip (list_byte_of_string "1042")).
  reflexivity.
Defined.

(** X24: when the ids given to [delete] or [mark_as_read] are the ids
    [_fetch_email] made of message numbers, the stores that returned were
    sent for exactly those message numbers, in that order. *)
Theorem stores_name_fetched_numbers (flags : str) (nums : list bytes)
    (email_ids : list str) (made : list (Imap.call * bool)) :
  Forall2 (fun num email_id => utf8_decode Strict num = OK email_id)
    nums email_ids ->
  Imap.stored flags email_ids made ->
  made = map (fun num => (Imap.store num (py "+FLAGS") flags, true)) nums.
Proof.
  intros Hids. revert made.
  induction Hids as [|num email_id nums email_ids Hid _ IH]; intros made H.
  - by inversion H.
  - inversion H as [|? c ? made' (message_set & Henc & ->) Hrest]; subst.
    simpl. f_equal; [|by apply IH].
    apply (decode_then_encode (length num)) in Hid; [|lia].
    congruence.
Qed.

Lemma stores_name_fetched_numbers_witness :
  [(Imap.store (list_byte_of_string "7") (py "+FLAGS") (py "\Deleted"), true)]
  = map (fun num => (Imap.store num (py "+FLAGS") (py "\Deleted"), true))
      [list_byte_of_string "7"].
Proof.
  apply (stores_name_fetched_numbers (py "\Deleted")
           [list_byte_of_string "7"] [py "7"]).
  - constructor; [reflexivity | constructor].
  - constructor; [|constructor].
    exists (list_byte_of_string "7"). split; reflexivity.
Defined.
